(** * BACnet stack: ring buffer, BACnet/IP datalink driver and WriteProperty handler

    A shallow embedding of

    - the ring buffer declared in [ringbuf.h] (module [Ringbuf]),
    - the BACnet/IP driver for BSD and Mac OS X, the file "Initializes
      BACnet/IP interface" (module [Bip]),
    - the WriteProperty service handler [h_wp.c] (module [WriteProperty]),
    - the unconfirmed COV notification handler [h_ucov.c] (module [Ucov]),
    - the millisecond timer of the STM32F4 port (module [Mstimer]),

    together with the properties stated about them.  Machine integers are
    modelled as [Z] with their wrap-around written out, byte arrays as
    [list Z], C structs as records, pointers that may be null as options,
    and the operating system as explicit answers handed to the functions
    that make system calls. *)

From Stdlib Require Import ZArith Lia Bool.
From stdpp Require Import base list gmap strings.

Local Open Scope Z_scope.

(** ** Byte arrays *)

(** [memcpy(&dst[off], src, length src)]: the bytes of [src] are stored at
    [dst[off]], [dst[off+1]], ... *)
Fixpoint store_bytes (dst : list Z) (off : nat) (src : list Z) : list Z :=
  match src with
  | [] => dst
  | x :: xs => store_bytes (<[off := x]> dst) (S off) xs
  end.

(** [memset(&dst[off], 0, n)] *)
Definition zero_bytes (dst : list Z) (off n : nat) : list Z :=
  store_bytes dst off (replicate n 0).

(** [dst[i]] read as a C rvalue (a read past the modelled array yields 0). *)
Definition byte_at (l : list Z) (i : nat) : Z := default 0 (l !! i).

(** * The ring buffer ([ringbuf.h]) *)
Module Ringbuf.

(** C's [unsigned] is taken to be 32 bits wide; arithmetic on it wraps. *)
Definition to_unsigned (x : Z) : Z := x mod 2 ^ 32.

(** [struct ring_buffer_t].  [buffer] is the caller's block of memory, seen
    as its bytes. *)
Record RING_BUFFER := mkRING_BUFFER {
  buffer : list Z;          (* block of memory or array of data *)
  element_size : Z;         (* how many bytes for each chunk *)
  element_count : Z;        (* number of chunks of data *)
  head : Z;                 (* where the writes go *)
  tail : Z;                 (* where the reads come from *)
  depth : Z                 (* maximum depth reached *)
}.

(** Modelled from the spec: [ringbuf.c], which implements the functions that
    [ringbuf.h] declares, is missing.  "[element_count] must be a power of
    two" and is not zero. *)
Definition is_power_of_two (x : Z) : bool :=
  (0 <? x) && (x =? 2 ^ Z.log2 x).

(** Modelled from the spec: the body of [Ringbuf_Init] is missing.  It "fails
    (returns false) if [element_count] is not a power of two or is zero, or if
    [element_size] is zero; otherwise binds the structure to the
    caller-supplied memory (no allocation) and resets head/tail/depth to
    zero".  The result pairs the returned status with the structure [*b]
    after the call. *)
Definition Ringbuf_Init (b : RING_BUFFER) (buf : list Z)
    (elem_size elem_count : Z) : bool * RING_BUFFER :=
  if is_power_of_two elem_count && negb (elem_size =? 0) then
    (true, {| buffer := buf; element_size := elem_size;
              element_count := elem_count;
              head := 0; tail := 0; depth := 0 |})
  else (false, b).

(** Modelled from the spec: the body of [Ringbuf_Count] is missing.  The
    occupied count is [head - tail] in unsigned arithmetic: [head] and [tail]
    run freely and are reduced to a slot by the bit mask only when the memory
    is addressed, so that the count can reach [element_count] ("buffer is full
    when occupied count equals element_count"). *)
Definition Ringbuf_Count (b : RING_BUFFER) : Z :=
  to_unsigned (head b - tail b).

(** Modelled from the spec: "buffer is full when occupied count equals
    element_count". *)
Definition Ringbuf_Full (b : RING_BUFFER) : bool :=
  Ringbuf_Count b =? element_count b.

(** Modelled from the spec: the buffer is empty when nothing is occupied. *)
Definition Ringbuf_Empty (b : RING_BUFFER) : bool :=
  Ringbuf_Count b =? 0.

(** Modelled from the spec: [depth] is the "high-water mark". *)
Definition Ringbuf_Depth (b : RING_BUFFER) : Z := depth b.

(** Modelled from the spec: "read/write indices wrap via bitmask, not
    modulo".  The byte offset of the slot that index [idx] designates. *)
Definition slot_offset (b : RING_BUFFER) (idx : Z) : nat :=
  Z.to_nat (Z.land idx (element_count b - 1) * element_size b).

(** Modelled from the spec: the high-water mark follows the count. *)
Definition Ringbuf_Depth_Update (b : RING_BUFFER) : RING_BUFFER :=
  {| buffer := buffer b; element_size := element_size b;
     element_count := element_count b;
     head := head b; tail := tail b;
     depth := Z.max (depth b) (Ringbuf_Count b) |}.

(** Modelled from the spec: the body of [Ringbuf_Put] is missing.  It "copies
    one [element_size] chunk into the head"; "fails if full"; "[put] advances
    head". *)
Definition Ringbuf_Put (b : RING_BUFFER) (data_element : list Z)
    : bool * RING_BUFFER :=
  if Ringbuf_Full b then (false, b)
  else
    let chunk := take (Z.to_nat (element_size b)) data_element in
    (true,
     Ringbuf_Depth_Update
       {| buffer := store_bytes (buffer b) (slot_offset b (head b)) chunk;
          element_size := element_size b;
          element_count := element_count b;
          head := to_unsigned (head b + 1);
          tail := tail b; depth := depth b |}).

(** Modelled from the spec: the body of [Ringbuf_Pop] is missing.  It "copies
    the tail chunk into [out] and advances tail; fails if empty".  [None] is
    the [false] status; [Some chunk] is [true] with the bytes copied out. *)
Definition Ringbuf_Pop (b : RING_BUFFER) : option (list Z) * RING_BUFFER :=
  if Ringbuf_Empty b then (None, b)
  else
    (Some (take (Z.to_nat (element_size b))
             (drop (slot_offset b (tail b)) (buffer b))),
     {| buffer := buffer b; element_size := element_size b;
        element_count := element_count b;
        head := head b;
        tail := to_unsigned (tail b + 1); depth := depth b |}).

(** *** Runs of [Ringbuf_Put] and [Ringbuf_Pop] calls *)

Inductive call := Put (data_element : list Z) | Pop.

Inductive outcome := PutDone (status : bool) | PopDone (out : option (list Z)).

Definition step (b : RING_BUFFER) (c : call) : outcome * RING_BUFFER :=
  match c with
  | Put e => let r := Ringbuf_Put b e in (PutDone r.1, r.2)
  | Pop => let r := Ringbuf_Pop b in (PopDone r.1, r.2)
  end.

(** The outcomes of the calls, in order, and the buffer after the last. *)
Fixpoint run (b : RING_BUFFER) (cs : list call) : list outcome * RING_BUFFER :=
  match cs with
  | [] => ([], b)
  | c :: cs' =>
      let r := step b c in
      let rest := run r.2 cs' in
      (r.1 :: rest.1, rest.2)
  end.

(** The largest [Ringbuf_Count] seen from [b] on, the start included. *)
Fixpoint max_count_seen (b : RING_BUFFER) (cs : list call) : Z :=
  match cs with
  | [] => Ringbuf_Count b
  | c :: cs' => Z.max (Ringbuf_Count b) (max_count_seen (step b c).2 cs')
  end.

(** The elements handed to [Put], and the elements [Pop] returned. *)
Fixpoint put_elements (cs : list call) : list (list Z) :=
  match cs with
  | [] => []
  | Put e :: cs' => e :: put_elements cs'
  | Pop :: cs' => put_elements cs'
  end.

Fixpoint popped_elements (os : list outcome) : list (list Z) :=
  match os with
  | [] => []
  | PopDone (Some e) :: os' => e :: popped_elements os'
  | _ :: os' => popped_elements os'
  end.

(** How many [Put] calls and how many [Pop] calls a run makes. *)
Fixpoint count_puts (cs : list call) : nat :=
  match cs with
  | [] => 0
  | Put _ :: cs' => S (count_puts cs')
  | Pop :: cs' => count_puts cs'
  end.

Fixpoint count_pops (cs : list call) : nat :=
  match cs with
  | [] => 0
  | Put _ :: cs' => count_pops cs'
  | Pop :: cs' => S (count_pops cs')
  end.

(** Every call succeeded: each [Put] returned [true], each [Pop] a chunk. *)
Definition all_succeeded (os : list outcome) : bool :=
  forallb (fun o => match o with
                    | PutDone ok => ok
                    | PopDone out => bool_decide (is_Some out)
                    end) os.

(** With [k] elements outstanding, the calls [cs] never pop from an empty
    buffer (at every point pops <= puts) and never have more than [cap]
    elements outstanding. *)
Fixpoint within_capacity (cap k : Z) (cs : list call) : bool :=
  match cs with
  | [] => true
  | Put _ :: cs' => (k + 1 <=? cap) && within_capacity cap (k + 1) cs'
  | Pop :: cs' => (1 <=? k) && within_capacity cap (k - 1) cs'
  end.

(** *** The buffer as a bounded queue *)

(** The chunk of [esize] bytes held by slot number [slot] of a block of
    memory. *)
Definition chunk_at (esize : Z) (buf : list Z) (slot : Z) : list Z :=
  take (Z.to_nat esize) (drop (Z.to_nat (slot * esize)) buf).

(** [represents cap esize b q]: the buffer [b], of [cap] slots of [esize]
    bytes, holds the queue [q], oldest element first. *)
Record represents (cap esize : Z) (b : RING_BUFFER) (q : list (list Z))
    : Prop := {
  rep_count : element_count b = cap;
  rep_size : element_size b = esize;
  rep_buf : cap * esize <= Z.of_nat (length (buffer b));
  rep_tail : 0 <= tail b < 2 ^ 32;
  rep_head : head b = to_unsigned (tail b + Z.of_nat (length q));
  rep_len : Z.of_nat (length q) <= cap;
  rep_elems : Forall (fun e => Z.of_nat (length e) = esize) q;
  rep_slots : forall (i : nat) e, q !! i = Some e ->
    chunk_at esize (buffer b) ((tail b + Z.of_nat i) mod cap) = e
}.
Arguments rep_count {cap esize b q}.
Arguments rep_size {cap esize b q}.
Arguments rep_buf {cap esize b q}.
Arguments rep_tail {cap esize b q}.
Arguments rep_head {cap esize b q}.
Arguments rep_len {cap esize b q}.
Arguments rep_elems {cap esize b q}.
Arguments rep_slots {cap esize b q}.

(** *** The power-of-two alignment macro of [ringbuf.h] *)

(** [B2(x)] ... [B32(x)]: each ORs its argument with itself shifted right,
    doubling the run of one bits below every one bit.  ([Z.shiftr] shifts a
    negative value as the compilers of the ports shift a negative [int]:
    arithmetically.) *)
Definition B2 (x : Z) : Z := Z.lor x (Z.shiftr x 1).
Definition B4 (x : Z) : Z := Z.lor (B2 x) (Z.shiftr (B2 x) 2).
Definition B8 (x : Z) : Z := Z.lor (B4 x) (Z.shiftr (B4 x) 4).
Definition B16 (x : Z) : Z := Z.lor (B8 x) (Z.shiftr (B8 x) 8).
Definition B32 (x : Z) : Z := Z.lor (B16 x) (Z.shiftr (B16 x) 16).

(** The macros take the type of their argument: [int] (that of a plain
    constant) or [unsigned int], both of 32 bits. *)
Inductive operand_type := operand_int | operand_unsigned.

(** The value of [v] as a result of arithmetic in the type: an [unsigned]
    result is taken modulo [2^32]; an [int] result outside the type is an
    overflow, which C leaves undefined ([None]). *)
Definition arithmetic (t : operand_type) (v : Z) : option Z :=
  match t with
  | operand_unsigned => Some (v mod 2 ^ 32)
  | operand_int =>
      if (- 2 ^ 31 <=? v) && (v <? 2 ^ 31) then Some v else None
  end.

(** [NEXT_POWER_OF_2(x)] for an argument [x] of the type [t]. *)
Definition NEXT_POWER_OF_2 (t : operand_type) (x : Z) : option Z :=
  match arithmetic t (x - 1) with
  | Some x1 => arithmetic t (B32 x1 + 1)
  | None => None
  end.

(** [f] sets bit [i] of its result exactly when its argument has a one bit
    among the [k] bits from [i] upwards. *)
Definition smears (k : Z) (f : Z -> Z) : Prop :=
  forall x i, 0 <= i ->
    Z.testbit (f x) i = true <->
    exists j, 0 <= j < k /\ Z.testbit x (i + j) = true.

End Ringbuf.

(** * The BACnet/IP driver (BSD and Mac OS X) *)
Module Bip.

(** [struct in_addr].  "We store address and port in network byte order":
    an address is modelled by the four bytes of [s_addr] as they lie in
    memory, a port held in network byte order by its two bytes.  Both are
    only ever copied ([memcpy]), compared and cleared, which is the same on
    the bytes as on the integers. *)
Record in_addr := mk_in_addr { s_addr : list Z }.

Definition in_addr_zero : in_addr := mk_in_addr [0; 0; 0; 0].

(** [a.s_addr == 0] *)
Definition s_addr_is_zero (a : in_addr) : bool :=
  forallb (Z.eqb 0) (s_addr a).

(** [a.s_addr == b.s_addr] *)
Definition s_addr_eqb (a b : in_addr) : bool :=
  bool_decide (s_addr a = s_addr b).

(** [htons(port)]: the two bytes of a host-order port, high byte first. *)
Definition htons (port : Z) : list Z :=
  [(port / 256) mod 256; port mod 256].

(** [ntohs(p)] of a port held in network byte order. *)
Definition ntohs (p : list Z) : Z :=
  byte_at p 0 * 256 + byte_at p 1.

(** [struct sockaddr_in] *)
Record sockaddr_in := mk_sockaddr_in {
  sin_port : list Z;
  sin_addr : in_addr
}.

(** [BACNET_ADDRESS] and [BACNET_IP_ADDRESS], as the driver uses them (their
    declarations are in [bacdef.h] and [bvlc.h]). *)
Record BACNET_ADDRESS := mk_BACNET_ADDRESS {
  mac_len : Z;
  mac : list Z;
  net : Z;
  len : Z;
  adr : list Z
}.

Record BACNET_IP_ADDRESS := mk_BACNET_IP_ADDRESS {
  address : list Z;
  port : Z
}.

(** The file-scope variables of the driver. *)
Record bip_state := mk_bip_state {
  BIP_Socket : Z;
  BIP_Broadcast_Socket : Z;
  BIP_Port : list Z;
  BIP_Address : in_addr;
  BIP_Broadcast_Addr : in_addr;
  BIP_Broadcast_Binding_Address_Override : bool;
  BIP_Broadcast_Binding_Address : in_addr;
  BIP_Debug : bool;
  BIP_Interface_Name : string
}.

(** The variables as the program starts. *)
Definition bip_state_initial : bip_state :=
  {| BIP_Socket := -1; BIP_Broadcast_Socket := -1;
     BIP_Port := [0; 0];
     BIP_Address := in_addr_zero; BIP_Broadcast_Addr := in_addr_zero;
     BIP_Broadcast_Binding_Address_Override := false;
     BIP_Broadcast_Binding_Address := in_addr_zero;
     BIP_Debug := false; BIP_Interface_Name := "" |}.

Definition set_BIP_Socket (v : Z) (s : bip_state) : bip_state :=
  {| BIP_Socket := v; BIP_Broadcast_Socket := BIP_Broadcast_Socket s;
     BIP_Port := BIP_Port s;
     BIP_Address := BIP_Address s; BIP_Broadcast_Addr := BIP_Broadcast_Addr s;
     BIP_Broadcast_Binding_Address_Override :=
       BIP_Broadcast_Binding_Address_Override s;
     BIP_Broadcast_Binding_Address := BIP_Broadcast_Binding_Address s;
     BIP_Debug := BIP_Debug s; BIP_Interface_Name := BIP_Interface_Name s |}.

Definition set_BIP_Broadcast_Socket (v : Z) (s : bip_state) : bip_state :=
  {| BIP_Socket := BIP_Socket s; BIP_Broadcast_Socket := v;
     BIP_Port := BIP_Port s;
     BIP_Address := BIP_Address s; BIP_Broadcast_Addr := BIP_Broadcast_Addr s;
     BIP_Broadcast_Binding_Address_Override :=
       BIP_Broadcast_Binding_Address_Override s;
     BIP_Broadcast_Binding_Address := BIP_Broadcast_Binding_Address s;
     BIP_Debug := BIP_Debug s; BIP_Interface_Name := BIP_Interface_Name s |}.

Definition set_BIP_Port (v : list Z) (s : bip_state) : bip_state :=
  {| BIP_Socket := BIP_Socket s;
     BIP_Broadcast_Socket := BIP_Broadcast_Socket s;
     BIP_Port := v;
     BIP_Address := BIP_Address s; BIP_Broadcast_Addr := BIP_Broadcast_Addr s;
     BIP_Broadcast_Binding_Address_Override :=
       BIP_Broadcast_Binding_Address_Override s;
     BIP_Broadcast_Binding_Address := BIP_Broadcast_Binding_Address s;
     BIP_Debug := BIP_Debug s; BIP_Interface_Name := BIP_Interface_Name s |}.

Definition set_BIP_Address (v : in_addr) (s : bip_state) : bip_state :=
  {| BIP_Socket := BIP_Socket s;
     BIP_Broadcast_Socket := BIP_Broadcast_Socket s;
     BIP_Port := BIP_Port s;
     BIP_Address := v; BIP_Broadcast_Addr := BIP_Broadcast_Addr s;
     BIP_Broadcast_Binding_Address_Override :=
       BIP_Broadcast_Binding_Address_Override s;
     BIP_Broadcast_Binding_Address := BIP_Broadcast_Binding_Address s;
     BIP_Debug := BIP_Debug s; BIP_Interface_Name := BIP_Interface_Name s |}.

Definition set_BIP_Broadcast_Addr (v : in_addr) (s : bip_state) : bip_state :=
  {| BIP_Socket := BIP_Socket s;
     BIP_Broadcast_Socket := BIP_Broadcast_Socket s;
     BIP_Port := BIP_Port s;
     BIP_Address := BIP_Address s; BIP_Broadcast_Addr := v;
     BIP_Broadcast_Binding_Address_Override :=
       BIP_Broadcast_Binding_Address_Override s;
     BIP_Broadcast_Binding_Address := BIP_Broadcast_Binding_Address s;
     BIP_Debug := BIP_Debug s; BIP_Interface_Name := BIP_Interface_Name s |}.

Definition set_BIP_Interface_Name (v : string) (s : bip_state) : bip_state :=
  {| BIP_Socket := BIP_Socket s;
     BIP_Broadcast_Socket := BIP_Broadcast_Socket s;
     BIP_Port := BIP_Port s;
     BIP_Address := BIP_Address s; BIP_Broadcast_Addr := BIP_Broadcast_Addr s;
     BIP_Broadcast_Binding_Address_Override :=
       BIP_Broadcast_Binding_Address_Override s;
     BIP_Broadcast_Binding_Address := BIP_Broadcast_Binding_Address s;
     BIP_Debug := BIP_Debug s; BIP_Interface_Name := v |}.

Definition bip_get_socket (s : bip_state) : Z := BIP_Socket s.

Definition bip_get_broadcast_socket (s : bip_state) : Z :=
  BIP_Broadcast_Socket s.

Definition bip_set_port (port : Z) (s : bip_state) : bip_state :=
  set_BIP_Port (htons port) s.

Definition bip_get_port (s : bip_state) : Z := ntohs (BIP_Port s).

Definition bip_valid (s : bip_state) : bool := negb (BIP_Socket s =? -1).

(** C's [uint16_t]: assignment to it wraps. *)
Definition to_uint16 (x : Z) : Z := x mod 65536.


(** *** What the operating system answers *)

(** One [select] call: its return value, and whether [BIP_Socket] is in the
    read set afterwards ([FD_ISSET]). *)
Record select_answer := mk_select_answer {
  select_ret : Z;
  isset_BIP_Socket : bool
}.

(** One [recvfrom] call: an error ([-1]), or a datagram and its sender.  At
    most the [len] bytes asked for are stored, and their number returned. *)
Inductive recvfrom_answer :=
  | recvfrom_error
  | recvfrom_datagram (payload : list Z) (from : sockaddr_in).

(** The calls [createSocket] makes: [socket], the two [setsockopt]s, [bind]. *)
Record socket_answers := mk_socket_answers {
  socket_ret : Z;
  setsockopt_reuseaddr_ret : Z;
  setsockopt_broadcast_ret : Z;
  bind_ret : sockaddr_in -> Z
}.

(** An entry of the list [getifaddrs] yields.  For each [struct sockaddr],
    [sa_addr] is the address field of its family ([sin_addr], [sin6_addr]). *)
Inductive sa_family_t := AF_INET | AF_INET6 | AF_other.

Record sockaddr := mk_sockaddr {
  sa_family : sa_family_t;
  sa_addr : list Z
}.

(** [ifa_addr], [ifa_broadaddr] and [ifa_netmask] are pointers: [None] is
    the null pointer, which [getifaddrs] may store in each of them. *)
Record ifaddrs := mk_ifaddrs {
  ifa_name : string;
  ifa_addr : option sockaddr;
  ifa_broadaddr : option sockaddr;
  ifa_netmask : option sockaddr
}.

(** One [getifaddrs] call.  It stores the list and answers 0, or answers
    [-1] and stores nothing: the local [ifaddrs_ptr] then keeps what it
    happened to hold, [uninitialised], which is a list it happens to point
    to ([[]] for the null pointer) or [None] for a value that points to no
    list. *)
Inductive getifaddrs_answer :=
  | getifaddrs_list (l : list ifaddrs)
  | getifaddrs_failed (uninitialised : option (list ifaddrs)).

(** A run of code that may go through a null or an invalid pointer: it
    returns a value, or faults (from there on C leaves the behaviour
    undefined). *)
Inductive execution (A : Type) :=
  | Returns (a : A)
  | Faults.
Arguments Returns {A}.
Arguments Faults {A}.

Definition and_then {A B : Type} (e : execution A) (f : A -> execution B)
    : execution B :=
  match e with
  | Returns a => f a
  | Faults => Faults
  end.

Inductive ioctl_request :=
  SIOCGIFADDR | SIOCGIFBRDADDR | SIOCGIFNETMASK | SIOC_other.

(** What [bip_init] meets: the answer of [getifaddrs] at each of the two
    look-ups of [bip_set_interface], the indeterminate contents of its two local
    [struct in_addr], and the answers to each [createSocket]. *)
Record init_answers := mk_init_answers {
  ifaddrs_for_address : getifaddrs_answer;
  ifaddrs_for_broadcast : getifaddrs_answer;
  local_address_garbage : in_addr;
  broadcast_address_garbage : in_addr;
  unicast_socket_answers : socket_answers;
  broadcast_socket_answers : socket_answers
}.

(** Which address the broadcast socket binds to is chosen when the driver is
    compiled ([BACNET_IP_BROADCAST_USE_INADDR_ANY],
    [BACNET_IP_BROADCAST_USE_INADDR_BROADCAST], or neither). *)
Inductive broadcast_bind := USE_INADDR_ANY | USE_INADDR_BROADCAST | USE_BROADCAST_ADDR.

(** What [bip_receive] hands back: the returned length, [*src], the buffer
    [npdu] and the BBMD's own state.  [handler_offset] records, for the
    statements about the call, what the BVLC handler returned when the
    datagram was passed to it ([None] when it was not). *)
Record received (bvlc_state : Type) := mk_received {
  npdu_len : Z;
  src_out : BACNET_ADDRESS;
  npdu_out : list Z;
  bvlc_out : bvlc_state;
  handler_offset : option Z
}.
Arguments mk_received {bvlc_state}.
Arguments npdu_len {bvlc_state}.
Arguments handler_offset {bvlc_state}.
Arguments src_out {bvlc_state}.
Arguments npdu_out {bvlc_state}.
Arguments bvlc_out {bvlc_state}.

(** What a BVLC handler hands back: the offset of the NPDU (or a value
    [<= 0]), [*src], the buffer and the BBMD's state. *)
Record handled (bvlc_state : Type) := mk_handled {
  offset : Z;
  handled_src : BACNET_ADDRESS;
  handled_npdu : list Z;
  handled_bvlc : bvlc_state
}.
Arguments mk_handled {bvlc_state}.
Arguments offset {bvlc_state}.
Arguments handled_src {bvlc_state}.
Arguments handled_npdu {bvlc_state}.
Arguments handled_bvlc {bvlc_state}.

(** What [bip_init] hands back: the returned status, the variables, the
    open descriptors and the BBMD's state. *)
Record initialised (bvlc_state : Type) := mk_initialised {
  init_status : bool;
  init_state : bip_state;
  init_fds : gset Z;
  init_bvlc : bvlc_state
}.
Arguments mk_initialised {bvlc_state}.
Arguments init_status {bvlc_state}.
Arguments init_state {bvlc_state}.
Arguments init_fds {bvlc_state}.
Arguments init_bvlc {bvlc_state}.

Section Driver.
(** Constants of headers that are not among the sources ([bacdef.h],
    [bvlc.h], [net/if.h]). *)
Variable MAX_MAC_LEN : nat.
Variable BACNET_BROADCAST_NETWORK : Z.
Variable BVLL_TYPE_BACNET_IP : Z.
Variable IF_NAMESIZE : nat.
Variable broadcast_bind_mode : broadcast_bind.

(** The BBMD ([h_bbmd.c]), which is not among the sources: its state and
    the three functions the driver calls. *)
Variable bvlc_state : Type.
Variable bvlc_handler :
  bvlc_state -> BACNET_IP_ADDRESS -> BACNET_ADDRESS -> list Z -> Z ->
  handled bvlc_state.
Variable bvlc_broadcast_handler :
  bvlc_state -> BACNET_IP_ADDRESS -> BACNET_ADDRESS -> list Z -> Z ->
  handled bvlc_state.
Variable bvlc_init : bvlc_state -> bvlc_state.

(** [bip_get_my_address]; [None] is the null pointer.  (Debug output to
    [stderr] is left out throughout.) *)
Definition bip_get_my_address (s : bip_state) (addr : option BACNET_ADDRESS)
    : option BACNET_ADDRESS :=
  match addr with
  | Some a =>
      let mac1 := store_bytes (mac a) 0 (take 4 (s_addr (BIP_Address s))) in
      let mac2 := store_bytes mac1 4 (take 2 (BIP_Port s)) in
      Some {| mac_len := 6;
              mac := mac2;
              net := 0;                               (* local only, no routing *)
              len := 0;                               (* no SLEN *)
              adr := zero_bytes (adr a) 0 MAX_MAC_LEN (* no SADR *) |}
  | None => None
  end.

(** [bip_get_broadcast_address] *)
Definition bip_get_broadcast_address (s : bip_state)
    (dest : option BACNET_ADDRESS) : option BACNET_ADDRESS :=
  match dest with
  | Some d =>
      let mac1 :=
        store_bytes (mac d) 0 (take 4 (s_addr (BIP_Broadcast_Addr s))) in
      let mac2 := store_bytes mac1 4 (take 2 (BIP_Port s)) in
      Some {| mac_len := 6;
              mac := mac2;
              net := BACNET_BROADCAST_NETWORK;
              len := 0;                               (* no SLEN *)
              adr := zero_bytes (adr d) 0 MAX_MAC_LEN (* no SADR *) |}
  | None => None
  end.

(** [bip_send_mpdu].  [sendto] is the system call: given the socket, the
    bytes, their number and the destination it answers the number of bytes
    sent, or [-1]. *)
Definition bip_send_mpdu (sendto : Z -> list Z -> Z -> sockaddr_in -> Z)
    (s : bip_state) (dest : BACNET_IP_ADDRESS) (mtu : list Z) (mtu_len : Z)
    : Z :=
  (* assumes that the driver has already been initialized *)
  if BIP_Socket s <? 0 then BIP_Socket s
  else
    let bip_dest :=
      {| sin_addr := mk_in_addr (take 4 (address dest));
         sin_port := htons (port dest) |} in
    sendto (BIP_Socket s) mtu mtu_len bip_dest.

(** The loop [for (i = 0; i < npdu_len; i++) npdu[i] = npdu[offset + i]]. *)
Definition shift_npdu (npdu : list Z) (off : Z) (n : Z) : list Z :=
  foldl (fun buf (i : nat) =>
           <[i := byte_at buf (Z.to_nat (off + Z.of_nat i))]> buf)
        npdu (seq 0 (Z.to_nat n)).

(** The [struct timeval] handed to [select]: seconds and microseconds. *)
Definition select_timeout (timeout : Z) : Z * Z :=
  if 1000 <=? timeout then
    (timeout / 1000, 1000 * (timeout - (timeout / 1000) * 1000))
  else (0, 1000 * timeout).

(** [bip_receive].  [os_select] answers the [select] call for a given
    timeout, [os_recvfrom] the [recvfrom] call on a given socket. *)
Definition bip_receive (s : bip_state) (bv : bvlc_state)
    (os_select : Z * Z -> select_answer)
    (os_recvfrom : Z -> recvfrom_answer)
    (src : BACNET_ADDRESS) (npdu : list Z) (max_npdu : Z) (timeout : Z)
    : received bvlc_state :=
  (* Make sure the socket is open *)
  if BIP_Socket s <? 0 then mk_received 0 src npdu bv None
  else
    let sel := os_select (select_timeout timeout) in
    (* see if there is a packet for us *)
    if 0 <? select_ret sel then
      let socket :=
        if isset_BIP_Socket sel then BIP_Socket s
        else BIP_Broadcast_Socket s in
      match os_recvfrom socket with
      | recvfrom_error =>
          (* See if there is a problem *)
          mk_received 0 src npdu bv None
      | recvfrom_datagram payload sin =>
          let stored := take (Z.to_nat max_npdu) payload in
          let received_bytes := Z.of_nat (length stored) in
          let npdu1 := store_bytes npdu 0 stored in
          (* no problem, just no bytes *)
          if received_bytes =? 0 then mk_received 0 src npdu1 bv None
          (* the signature of a BACnet/IPv packet *)
          else if negb (byte_at npdu1 0 =? BVLL_TYPE_BACNET_IP) then
            mk_received 0 src npdu1 bv None
          else
            (* Erase up to 16 bytes after the received bytes *)
            let max := max_npdu - received_bytes in
            let npdu2 :=
              if 0 <? max then
                zero_bytes npdu1 (Z.to_nat received_bytes)
                  (Z.to_nat (if 16 <? max then 16 else max))
              else npdu1 in
            let addr :=
              {| address := take 4 (s_addr (sin_addr sin));
                 port := ntohs (sin_port sin) |} in
            (* pass the packet into the BBMD handler *)
            let h :=
              if socket =? BIP_Socket s then
                bvlc_handler bv addr src npdu2 received_bytes
              else
                bvlc_broadcast_handler bv addr src npdu2 received_bytes in
            if 0 <? offset h then
              let npdu_len := to_uint16 (received_bytes - offset h) in
              if npdu_len <=? max_npdu then
                (* shift the buffer to return a valid NPDU *)
                mk_received npdu_len (handled_src h)
                  (shift_npdu (handled_npdu h) (offset h) npdu_len)
                  (handled_bvlc h) (Some (offset h))
              else
                mk_received 0 (handled_src h) (handled_npdu h)
                  (handled_bvlc h) (Some (offset h))
            else
              mk_received 0 (handled_src h) (handled_npdu h)
                (handled_bvlc h) (Some (offset h))
      end
    else mk_received 0 src npdu bv None.

(** [get_addr_ptr]: the address field of a [struct sockaddr], or [None]
    for the null pointer it returns for another family.  It reads
    [sockaddr_ptr->sa_family] without a check, so it faults on a null
    [sockaddr_ptr]. *)
Definition get_addr_ptr (sockaddr_ptr : option sockaddr)
    : execution (option (list Z)) :=
  match sockaddr_ptr with
  | None => Faults
  | Some sa =>
      match sa_family sa with
      | AF_INET => Returns (Some (sa_addr sa))
      | AF_INET6 => Returns (Some (sa_addr sa))
      | AF_other => Returns None
      end
  end.

(** The loop of [bip_get_local_address_ioctl] over the list [ifaddrs_ptr]
    points to: it copies into [*addr] the requested address of every
    [AF_INET] entry named [ifname].  It hands back [rv], which stays
    ['\0'], and [*addr]. *)
Fixpoint bip_get_local_address_walk (ifaddrs_ptr : list ifaddrs)
    (ifname : string) (addr : in_addr) (request : ioctl_request)
    : execution (Z * in_addr) :=
  match ifaddrs_ptr with
  | [] => Returns (0, addr)
  | ifa :: ifa_next =>
      (* ifaddrs_ptr->ifa_addr->sa_family *)
      match ifa_addr ifa with
      | None => Faults
      | Some sa =>
          if match sa_family sa with AF_INET => true | _ => false end
             && String.eqb (ifa_name ifa) ifname
          then
            match ifa_addr ifa with
            | None => Returns (0, addr)
            | Some _ =>
                and_then
                  match request with
                  | SIOCGIFADDR => get_addr_ptr (ifa_addr ifa)
                  | SIOCGIFBRDADDR => get_addr_ptr (ifa_broadaddr ifa)
                  | SIOCGIFNETMASK => get_addr_ptr (ifa_netmask ifa)
                  | SIOC_other => Returns None
                  end
                  (fun addr_ptr =>
                     let addr1 :=
                       match addr_ptr with
                       | Some bytes => mk_in_addr (take 4 bytes)
                       | None => addr
                       end in
                     bip_get_local_address_walk ifa_next ifname addr1
                       request)
            end
          else bip_get_local_address_walk ifa_next ifname addr request
      end
  end.

(** [bip_get_local_address_ioctl].  After a failed [getifaddrs] the loop
    walks what the uninitialised [ifaddrs_ptr] holds. *)
Definition bip_get_local_address_ioctl (getifaddrs : getifaddrs_answer)
    (ifname : string) (addr : in_addr) (request : ioctl_request)
    : execution (Z * in_addr) :=
  match getifaddrs with
  | getifaddrs_list l => bip_get_local_address_walk l ifname addr request
  | getifaddrs_failed (Some l) =>
      bip_get_local_address_walk l ifname addr request
  | getifaddrs_failed None => Faults
  end.

(** [bip_set_interface], as compiled without
    [BACNET_IP_BROADCAST_USE_CLASSADDR]. *)
Definition bip_set_interface (os : init_answers) (ifname : string)
    (s : bip_state) : execution bip_state :=
  (* setup local address *)
  and_then
    (bip_get_local_address_ioctl (ifaddrs_for_address os) ifname
       (local_address_garbage os) SIOCGIFADDR)
    (fun r1 =>
       let local_address := if r1.1 <? 0 then in_addr_zero else r1.2 in
       let s1 := set_BIP_Address local_address s in
       (* setup local broadcast address *)
       and_then
         (bip_get_local_address_ioctl (ifaddrs_for_broadcast os) ifname
            (broadcast_address_garbage os) SIOCGIFBRDADDR)
         (fun r2 =>
            Returns
              (if r2.1 <? 0 then
                 set_BIP_Broadcast_Addr (mk_in_addr [255; 255; 255; 255]) s1
               else set_BIP_Broadcast_Addr r2.2 s1))).

(** [ifname_default]: the name, and the variables after the call. *)
Definition ifname_default (s : bip_state) : string * bip_state :=
  if negb (String.eqb (BIP_Interface_Name s) "") then
    (BIP_Interface_Name s, s)
  else ("en0"%string, set_BIP_Interface_Name "en0" s).

(** [createSocket]: the descriptor (or a negative value), and the set of
    open descriptors after the call. *)
Definition createSocket (os : socket_answers) (fds : gset Z)
    (sin : sockaddr_in) : Z * gset Z :=
  let sock_fd := socket_ret os in
  if sock_fd <? 0 then (sock_fd, fds)
  else
    let fds1 := {[sock_fd]} ∪ fds in
    (* Allow us to use the same socket for sending and receiving *)
    if setsockopt_reuseaddr_ret os <? 0 then
      (setsockopt_reuseaddr_ret os, fds1 ∖ {[sock_fd]})
    (* allow us to send a broadcast *)
    else if setsockopt_broadcast_ret os <? 0 then
      (setsockopt_broadcast_ret os, fds1 ∖ {[sock_fd]})
    (* bind the socket to the local port number and IP address *)
    else if bind_ret os sin <? 0 then
      (bind_ret os sin, fds1 ∖ {[sock_fd]})
    else (sock_fd, fds1).

(** [bip_cleanup]: the variables and the open descriptors after it. *)
Definition bip_cleanup (w : bip_state * gset Z) : bip_state * gset Z :=
  let s := w.1 in
  let fds1 :=
    if negb (BIP_Socket s =? -1) then w.2 ∖ {[BIP_Socket s]} else w.2 in
  let s1 := set_BIP_Socket (-1) s in
  let fds2 :=
    if negb (BIP_Broadcast_Socket s1 =? -1)
    then fds1 ∖ {[BIP_Broadcast_Socket s1]} else fds1 in
  let s2 := set_BIP_Broadcast_Socket (-1) s1 in
  (* these were set non-zero during interface configuration *)
  let s3 := set_BIP_Address in_addr_zero s2 in
  let s4 := set_BIP_Broadcast_Addr in_addr_zero s3 in
  (s4, fds2).

(** The first step of [bip_init], which configures the interface: the
    variables after it.  [None] is a null [ifname]. *)
Definition bip_init_interface (os : init_answers) (ifname : option string)
    (s : bip_state) : execution bip_state :=
  match ifname with
  | Some name =>
      bip_set_interface os name
        (set_BIP_Interface_Name
           (String.substring 0 (IF_NAMESIZE - 1)%nat name) s)
  | None =>
      let d := ifname_default s in bip_set_interface os d.1 d.2
  end.

(** The address [bip_init] binds the broadcast socket to
    ([broadcast_sin_config]). *)
Definition broadcast_sin_config (s : bip_state) : sockaddr_in :=
  {| sin_port := BIP_Port s;
     sin_addr :=
       if BIP_Broadcast_Binding_Address_Override s then
         BIP_Broadcast_Binding_Address s
       else
         match broadcast_bind_mode with
         | USE_INADDR_ANY => in_addr_zero
         | USE_INADDR_BROADCAST => mk_in_addr [255; 255; 255; 255]
         | USE_BROADCAST_ADDR => BIP_Broadcast_Addr s
         end |}.

(** [bip_init]; [None] is a null [ifname].  It hands back the returned
    status, the variables, the open descriptors and the BBMD's state. *)
Definition bip_init (os : init_answers) (ifname : option string)
    (s : bip_state) (fds : gset Z) (bv : bvlc_state)
    : execution (initialised bvlc_state) :=
  and_then (bip_init_interface os ifname s) (fun s1 =>
  Returns
  (if s_addr_is_zero (BIP_Address s1) then mk_initialised false s1 fds bv
   else
    let sin := {| sin_port := BIP_Port s1; sin_addr := BIP_Address s1 |} in
    let c1 := createSocket (unicast_socket_answers os) fds sin in
    let s2 := set_BIP_Socket c1.1 s1 in
    if c1.1 <? 0 then mk_initialised false s2 c1.2 bv
    else
      let bsin := broadcast_sin_config s2 in
      if s_addr_eqb (sin_addr bsin) (BIP_Address s2) then
        (* the interface reports its unicast address as its broadcast
           address *)
        mk_initialised true (set_BIP_Broadcast_Socket (BIP_Socket s2) s2)
          c1.2 (bvlc_init bv)
      else
        let c2 := createSocket (broadcast_socket_answers os) c1.2 bsin in
        let s3 := set_BIP_Broadcast_Socket c2.1 s2 in
        if c2.1 <? 0 then
          let w := bip_cleanup (s3, c2.2) in mk_initialised false w.1 w.2 bv
        else mk_initialised true s3 c2.2 (bvlc_init bv))).

End Driver.

(** The socket [bip_receive] reads when [select] reports a packet. *)
Definition read_socket (s : bip_state) (sel : select_answer) : Z :=
  if isset_BIP_Socket sel then BIP_Socket s else BIP_Broadcast_Socket s.

(** The buffer as [bip_receive] passes it to the BVLC handler: the bytes of
    the datagram, at most [max_npdu] of them, stored at its front, and up
    to 16 bytes erased behind them. *)
Definition datagram_buffer (npdu : list Z) (max_npdu : Z) (payload : list Z)
    : list Z :=
  let stored := take (Z.to_nat max_npdu) payload in
  let received_bytes := Z.of_nat (length stored) in
  let npdu1 := store_bytes npdu 0 stored in
  let max := max_npdu - received_bytes in
  if 0 <? max then
    zero_bytes npdu1 (Z.to_nat received_bytes)
      (Z.to_nat (if 16 <? max then 16 else max))
  else npdu1.

(** The sender of a datagram as [bip_receive] passes it to the BVLC
    handler. *)
Definition sender_address (sin : sockaddr_in) : BACNET_IP_ADDRESS :=
  {| address := take 4 (s_addr (sin_addr sin));
     port := ntohs (sin_port sin) |}.

(** Creating, configuring or binding a socket fails: one of the system
    calls of [createSocket] answers a negative value. *)
Definition socket_setup_fails (os : socket_answers) (sin : sockaddr_in)
    : Prop :=
  socket_ret os < 0 \/ setsockopt_reuseaddr_ret os < 0 \/
  setsockopt_broadcast_ret os < 0 \/ bind_ret os sin < 0.

(** *** Concrete values, for checks *)

(** A BBMD without state whose handlers answer a fixed offset. *)
Definition handler_answering (off : Z)
    : unit -> BACNET_IP_ADDRESS -> BACNET_ADDRESS -> list Z -> Z ->
      handled unit :=
  fun _ _ src npdu _ => mk_handled off src npdu tt.

Definition sample_address : BACNET_ADDRESS :=
  mk_BACNET_ADDRESS 0 [0; 0; 0; 0; 0; 0; 0] 0 0 [0; 0; 0; 0; 0; 0; 0].

Definition sample_sender : sockaddr_in :=
  mk_sockaddr_in [186; 192] (mk_in_addr [192; 168; 1; 30]).

Definition sample_open : bip_state :=
  set_BIP_Broadcast_Socket 4 (set_BIP_Socket 3 bip_state_initial).

(** An interface [en0] with an address and a broadcast address. *)
Definition sample_en0 : ifaddrs :=
  mk_ifaddrs "en0"
    (Some (mk_sockaddr AF_INET [192; 168; 1; 20]))
    (Some (mk_sockaddr AF_INET [192; 168; 1; 255]))
    (Some (mk_sockaddr AF_INET [255; 255; 255; 0])).

Definition sample_sockets (fd bind_result : Z) : socket_answers :=
  mk_socket_answers fd 0 0 (fun _ => bind_result).

Definition sample_answers (ifs : list ifaddrs) (ucast bcast : socket_answers)
    : init_answers :=
  mk_init_answers (getifaddrs_list ifs) (getifaddrs_list ifs)
    in_addr_zero in_addr_zero ucast bcast.

(** The interface list holds [en0] only, and the two local variables of
    [bip_set_interface] happen to hold 10.11.12.13 and 10.11.12.255. *)
Definition sample_answers_with_garbage : init_answers :=
  mk_init_answers (getifaddrs_list [sample_en0]) (getifaddrs_list [sample_en0])
    (mk_in_addr [10; 11; 12; 13]) (mk_in_addr [10; 11; 12; 255])
    (sample_sockets 3 0) (sample_sockets 4 0).

(** *** The remaining functions of the driver *)

Definition bip_debug_enable (s : bip_state) : bip_state :=
  {| BIP_Socket := BIP_Socket s;
     BIP_Broadcast_Socket := BIP_Broadcast_Socket s;
     BIP_Port := BIP_Port s;
     BIP_Address := BIP_Address s; BIP_Broadcast_Addr := BIP_Broadcast_Addr s;
     BIP_Broadcast_Binding_Address_Override :=
       BIP_Broadcast_Binding_Address_Override s;
     BIP_Broadcast_Binding_Address := BIP_Broadcast_Binding_Address s;
     BIP_Debug := true; BIP_Interface_Name := BIP_Interface_Name s |}.

Definition bip_debug_disable (s : bip_state) : bip_state :=
  {| BIP_Socket := BIP_Socket s;
     BIP_Broadcast_Socket := BIP_Broadcast_Socket s;
     BIP_Port := BIP_Port s;
     BIP_Address := BIP_Address s; BIP_Broadcast_Addr := BIP_Broadcast_Addr s;
     BIP_Broadcast_Binding_Address_Override :=
       BIP_Broadcast_Binding_Address_Override s;
     BIP_Broadcast_Binding_Address := BIP_Broadcast_Binding_Address s;
     BIP_Debug := false; BIP_Interface_Name := BIP_Interface_Name s |}.

(** [bip_set_addr], [bip_set_broadcast_addr], [bip_set_subnet_prefix]: "not
    something we do within this driver". *)
Definition bip_set_addr (s : bip_state) (addr : BACNET_IP_ADDRESS)
    : bool * bip_state := (false, s).

Definition bip_set_broadcast_addr (s : bip_state) (addr : BACNET_IP_ADDRESS)
    : bool * bip_state := (false, s).

Definition bip_set_subnet_prefix (s : bip_state) (prefix : Z)
    : bool * bip_state := (false, s).

(** [bip_get_addr]: the returned status and [*addr]; [None] is the null
    pointer. *)
Definition bip_get_addr (s : bip_state) (addr : option BACNET_IP_ADDRESS)
    : bool * option BACNET_IP_ADDRESS :=
  (true,
   match addr with
   | Some a =>
       Some {| address :=
                 store_bytes (address a) 0 (take 4 (s_addr (BIP_Address s)));
               port := ntohs (BIP_Port s) |}
   | None => None
   end).

(** [bip_get_broadcast_addr] *)
Definition bip_get_broadcast_addr (s : bip_state)
    (addr : option BACNET_IP_ADDRESS) : bool * option BACNET_IP_ADDRESS :=
  (true,
   match addr with
   | Some a =>
       Some {| address :=
                 store_bytes (address a) 0
                   (take 4 (s_addr (BIP_Broadcast_Addr s)));
               port := ntohs (BIP_Port s) |}
   | None => None
   end).

(** The loop of [bip_get_subnet_prefix], on the two addresses read as
    [uint32_t]: [n] iterations are left, [prefix] and [mask] are the
    variables of the loop. *)
Fixpoint subnet_prefix_loop (n : nat) (prefix mask address broadcast : Z)
    : Z :=
  match n with
  | O => prefix
  | S n' =>
      if Z.lor address mask =? broadcast then prefix
      else
        subnet_prefix_loop n' (prefix + 1) ((mask * 2) mod 2 ^ 32)
          address broadcast
  end.

(** [bip_get_subnet_prefix].  [host_u32] is how the host reads the four
    bytes of an [s_addr] as a [uint32_t] (its byte order). *)
Definition bip_get_subnet_prefix (host_u32 : list Z -> Z) (s : bip_state)
    : Z :=
  let address := host_u32 (s_addr (BIP_Address s)) in
  let broadcast := host_u32 (s_addr (BIP_Broadcast_Addr s)) in
  (* calculate the subnet prefix from the broadcast address *)
  subnet_prefix_loop 32 1 4294967294 address broadcast.

(** The two byte orders a host can have. *)
Definition little_endian_u32 (bytes : list Z) : Z :=
  byte_at bytes 0 + byte_at bytes 1 * 2 ^ 8 + byte_at bytes 2 * 2 ^ 16
  + byte_at bytes 3 * 2 ^ 24.

Definition big_endian_u32 (bytes : list Z) : Z :=
  byte_at bytes 0 * 2 ^ 24 + byte_at bytes 1 * 2 ^ 16
  + byte_at bytes 2 * 2 ^ 8 + byte_at bytes 3.

(** [bip_set_broadcast_binding]; [inet_addr] is the library function, which
    yields the address in network byte order. *)
Definition bip_set_broadcast_binding (inet_addr : string -> in_addr)
    (ip4_broadcast : string) (s : bip_state) : Z * bip_state :=
  (0,
   {| BIP_Socket := BIP_Socket s;
      BIP_Broadcast_Socket := BIP_Broadcast_Socket s;
      BIP_Port := BIP_Port s;
      BIP_Address := BIP_Address s;
      BIP_Broadcast_Addr := BIP_Broadcast_Addr s;
      BIP_Broadcast_Binding_Address_Override := true;
      BIP_Broadcast_Binding_Address := inet_addr ip4_broadcast;
      BIP_Debug := BIP_Debug s;
      BIP_Interface_Name := BIP_Interface_Name s |}).

(** [bip_get_local_netmask]; [getenv_BACNET_IFACE] is what
    [getenv("BACNET_IFACE")] returns. *)
Definition bip_get_local_netmask (getenv_BACNET_IFACE : option string)
    (getifaddrs : getifaddrs_answer) (netmask : in_addr)
    : execution (Z * in_addr) :=
  let ifname := default "en0"%string getenv_BACNET_IFACE in
  bip_get_local_address_ioctl getifaddrs ifname netmask SIOCGIFNETMASK.

(** The list the loop of [bip_get_local_address_ioctl] walks, when
    [ifaddrs_ptr] points to one. *)
Definition walked_list (getifaddrs : getifaddrs_answer)
    : option (list ifaddrs) :=
  match getifaddrs with
  | getifaddrs_list l => Some l
  | getifaddrs_failed uninitialised => uninitialised
  end.

(** The address of an entry that a request asks for. *)
Definition requested (request : ioctl_request) (ifa : ifaddrs)
    : option sockaddr :=
  match request with
  | SIOCGIFADDR => ifa_addr ifa
  | SIOCGIFBRDADDR => ifa_broadaddr ifa
  | SIOCGIFNETMASK => ifa_netmask ifa
  | SIOC_other => None
  end.

(** An entry is for the look-up of [ifname]: its [ifa_addr] is of the
    family [AF_INET] and it bears the name. *)
Definition ifaddrs_matches (ifname : string) (ifa : ifaddrs) : bool :=
  match ifa_addr ifa with
  | Some sa =>
      match sa_family sa with AF_INET => true | _ => false end
      && String.eqb (ifa_name ifa) ifname
  | None => false
  end.

(** An entry at which the look-up goes through a null pointer: its
    [ifa_addr] is null, or it is for the look-up and the address asked for
    is null. *)
Definition ifaddrs_faults (ifname : string) (request : ioctl_request)
    (ifa : ifaddrs) : bool :=
  match ifa_addr ifa with
  | None => true
  | Some _ =>
      ifaddrs_matches ifname ifa &&
      match request with
      | SIOC_other => false
      | _ =>
          match requested request ifa with None => true | Some _ => false end
      end
  end.

(** An entry of the interface list that [bip_get_local_address_ioctl]
    copies from, for interface [ifname] and request [request]: the bytes
    of which it copies four. *)
Definition ifaddrs_answer (ifname : string) (request : ioctl_request)
    (ifa : ifaddrs) : option (list Z) :=
  if ifaddrs_matches ifname ifa then
    match requested request ifa with
    | Some sa =>
        match sa_family sa with
        | AF_INET => Some (sa_addr sa)
        | AF_INET6 => Some (sa_addr sa)
        | AF_other => None
        end
    | None => None
    end
  else None.

(** The mask of the loop of [bip_get_subnet_prefix] when [prefix] is [k]:
    [0xFFFFFFFE] shifted left [k - 1] times. *)
Definition prefix_mask (k : Z) : Z := 2 ^ 32 - 2 ^ k.

End Bip.

(** * The WriteProperty service handler ([h_wp.c]) *)
Module WriteProperty.

(** The enumerations of [bacenum.h], as far as the handler names them. *)
Inductive BACNET_REJECT_REASON := REJECT_REASON_MISSING_REQUIRED_PARAMETER.

Inductive BACNET_ABORT_REASON :=
  ABORT_REASON_OTHER | ABORT_REASON_SEGMENTATION_NOT_SUPPORTED.

Inductive BACNET_CONFIRMED_SERVICE := SERVICE_CONFIRMED_WRITE_PROPERTY.

(** [BACNET_CONFIRMED_SERVICE_DATA], as far as the handler reads it. *)
Record BACNET_CONFIRMED_SERVICE_DATA := mk_service_data {
  segmented_message : bool;
  invoke_id : Z;
  priority : Z
}.

(** [BACNET_NPDU_DATA] as [npdu_encode_npdu_data] fills it in. *)
Record BACNET_NPDU_DATA := mk_npdu_data {
  data_expecting_reply : bool;
  npdu_priority : Z
}.

(** [BACNET_WRITE_PROPERTY_DATA], as far as the handler reads it. *)
Record BACNET_WRITE_PROPERTY_DATA := mk_wp_data {
  object_type : Z;
  object_instance : Z;
  object_property : Z;
  array_index : Z;
  wp_priority : Z;
  application_data : list Z;
  error_class : Z;
  error_code : Z
}.

(** The APDU written after the NPDU header: which encoder was called
    ([reject_encode_apdu], [abort_encode_apdu], [encode_simple_ack],
    [bacerror_encode_apdu]) and with which arguments. *)
Inductive apdu :=
  | Reject (id : Z) (reason : BACNET_REJECT_REASON)
  | Abort (id : Z) (reason : BACNET_ABORT_REASON) (server : bool)
  | SimpleAck (id : Z) (service : BACNET_CONFIRMED_SERVICE)
  | Error (id : Z) (service : BACNET_CONFIRMED_SERVICE)
      (class : Z) (code : Z).

(** One call of [datalink_send_pdu]: the destination, the NPDU data, what
    [Handler_Transmit_Buffer] holds after the NPDU header, and [pdu_len]. *)
Record send_pdu_call := mk_send_pdu_call {
  send_dest : Bip.BACNET_ADDRESS;
  send_npdu_data : BACNET_NPDU_DATA;
  send_apdu : apdu;
  send_pdu_len : Z
}.

(** The locals of [handler_write_property] when it comes to send: the APDU
    encoded, the device, [wp_data], and, for the statements about the call,
    what the relinquish bypass and [Device_Write_Property] returned when
    they were called ([None] when they were not). *)
Record handler_locals (device : Type) := mk_handler_locals {
  encoded : apdu;
  device_now : device;
  wp_data_now : BACNET_WRITE_PROPERTY_DATA;
  bypass_status : option bool;
  device_write_status : option bool
}.
Arguments mk_handler_locals {device}.
Arguments encoded {device}.
Arguments device_now {device}.
Arguments wp_data_now {device}.
Arguments bypass_status {device}.
Arguments device_write_status {device}.

(** What a call of [handler_write_property] did: the [datalink_send_pdu]
    calls it made, in order, and its locals when it returned. *)
Record handler_outcome (device : Type) := mk_handler_outcome {
  sent : list send_pdu_call;
  locals : handler_locals device
}.
Arguments mk_handler_outcome {device}.
Arguments sent {device}.
Arguments locals {device}.

Section Handler.
(** [BACNET_PROTOCOL_REVISION], fixed when the stack is compiled. *)
Variable BACNET_PROTOCOL_REVISION : Z.

(** The device object ([device.c]) and its state. *)
Variable device : Type.
Variable Device_Write_Property :
  device -> BACNET_WRITE_PROPERTY_DATA ->
  bool * BACNET_WRITE_PROPERTY_DATA * device.

(** [wp.c]: each function returns its result and [*wp_data] after the call. *)
Variable wp_decode_service_request :
  list Z -> Z -> BACNET_WRITE_PROPERTY_DATA ->
  Z * BACNET_WRITE_PROPERTY_DATA.
Variable write_property_relinquish_bypass :
  device -> BACNET_WRITE_PROPERTY_DATA ->
  bool * BACNET_WRITE_PROPERTY_DATA.
Variable write_property_bacnet_array_valid :
  BACNET_WRITE_PROPERTY_DATA -> bool * BACNET_WRITE_PROPERTY_DATA.

(** The datalink and the encoders: this station's address, the length of
    the NPDU header [npdu_encode_pdu] writes, and the length each APDU
    encoder returns. *)
Variable datalink_get_my_address : Bip.BACNET_ADDRESS.
Variable npdu_encode_pdu :
  Bip.BACNET_ADDRESS -> Bip.BACNET_ADDRESS -> BACNET_NPDU_DATA -> Z.
Variable apdu_len : apdu -> Z.

Definition npdu_encode_npdu_data (data_expecting_reply : bool)
    (priority : Z) : BACNET_NPDU_DATA :=
  mk_npdu_data data_expecting_reply priority.

(** [handler_write_property_relinquish_bypass] *)
Definition handler_write_property_relinquish_bypass (dev : device)
    (wp_data : BACNET_WRITE_PROPERTY_DATA)
    : bool * BACNET_WRITE_PROPERTY_DATA :=
  if 21 <=? BACNET_PROTOCOL_REVISION then
    write_property_relinquish_bypass dev wp_data
  else (false, wp_data).

(** The end of [handler_write_property]: [encode_simple_ack] when [success]
    is set, [bacerror_encode_apdu] with the error class and code of
    [wp_data] when it is not. *)
Definition write_response (service_data : BACNET_CONFIRMED_SERVICE_DATA)
    (success : bool) (wp_data : BACNET_WRITE_PROPERTY_DATA) : apdu :=
  if success then
    SimpleAck (invoke_id service_data) SERVICE_CONFIRMED_WRITE_PROPERTY
  else
    Error (invoke_id service_data) SERVICE_CONFIRMED_WRITE_PROPERTY
      (error_class wp_data) (error_code wp_data).

(** [handler_write_property].  [wp_data] is the local structure as it is
    when the function is entered. *)
Definition handler_write_property
    (service_request : list Z) (service_len : Z)
    (src : Bip.BACNET_ADDRESS) (service_data : BACNET_CONFIRMED_SERVICE_DATA)
    (wp_data : BACNET_WRITE_PROPERTY_DATA) (dev : device)
    : handler_outcome device :=
  (* encode the NPDU portion of the packet *)
  let my_address := datalink_get_my_address in
  let npdu_data := npdu_encode_npdu_data false (priority service_data) in
  let pdu_len := npdu_encode_pdu src my_address npdu_data in
  let l : handler_locals device :=
    if service_len =? 0 then
      mk_handler_locals
        (Reject (invoke_id service_data)
           REJECT_REASON_MISSING_REQUIRED_PARAMETER)
        dev wp_data None None
    else if segmented_message service_data then
      mk_handler_locals
        (Abort (invoke_id service_data)
           ABORT_REASON_SEGMENTATION_NOT_SUPPORTED true)
        dev wp_data None None
    else
      (* decode the service request only *)
      let d := wp_decode_service_request service_request service_len
                 wp_data in
      (* bad decoding or something we didn't understand - send an abort *)
      if d.1 <=? 0 then
        mk_handler_locals
          (Abort (invoke_id service_data) ABORT_REASON_OTHER true)
          dev d.2 None None
      else
        let b := handler_write_property_relinquish_bypass dev d.2 in
        if b.1 then
          (* this object property is not commandable, and therefore,
             not able to be relinquished *)
          mk_handler_locals (write_response service_data true b.2)
            dev b.2 (Some true) None
        else
          let v := write_property_bacnet_array_valid b.2 in
          if v.1 then
            let w := Device_Write_Property dev v.2 in
            mk_handler_locals (write_response service_data w.1.1 w.1.2)
              w.2 w.1.2 (Some false) (Some w.1.1)
          else
            mk_handler_locals (write_response service_data false v.2)
              dev v.2 (Some false) None in
  (* Send PDU *)
  {| sent := [ {| send_dest := src; send_npdu_data := npdu_data;
                  send_apdu := encoded l;
                  send_pdu_len := pdu_len + apdu_len (encoded l) |} ];
     locals := l |}.

End Handler.

(** *** A concrete device, for checks *)

(** A device whose [Device_Write_Property] accepts every request; a decoder
    that reads the array index from the second byte of the request; an array
    check that refuses any index but "all" (255 in this encoding) with
    error class 2 (property) and code 50 (property is not an array). *)
Definition sample_wp_data : BACNET_WRITE_PROPERTY_DATA :=
  mk_wp_data 0 0 0 0 0 [] 0 0.

Definition sample_decode (request : list Z) (n : Z)
    (wp : BACNET_WRITE_PROPERTY_DATA) : Z * BACNET_WRITE_PROPERTY_DATA :=
  match request with
  | obj :: idx :: value =>
      (n, mk_wp_data obj 1 85 idx 0 value (error_class wp) (error_code wp))
  | _ => (-1, wp)
  end.

Definition sample_array_valid (wp : BACNET_WRITE_PROPERTY_DATA)
    : bool * BACNET_WRITE_PROPERTY_DATA :=
  if array_index wp =? 255 then (true, wp)
  else (false,
        mk_wp_data (object_type wp) (object_instance wp) (object_property wp)
          (array_index wp) (wp_priority wp) (application_data wp) 2 50).

Definition sample_device_write (dev : unit) (wp : BACNET_WRITE_PROPERTY_DATA)
    : bool * BACNET_WRITE_PROPERTY_DATA * unit :=
  (true, wp, dev).

Definition sample_bypass (dev : unit) (wp : BACNET_WRITE_PROPERTY_DATA)
    : bool * BACNET_WRITE_PROPERTY_DATA :=
  (false, wp).

Definition sample_station : Bip.BACNET_ADDRESS :=
  Bip.mk_BACNET_ADDRESS 6 [192; 168; 1; 20; 186; 192; 0] 0 0
    [0; 0; 0; 0; 0; 0; 0].

Definition sample_handler :=
  handler_write_property 24 unit sample_device_write sample_decode
    sample_bypass sample_array_valid sample_station
    (fun _ _ _ => 2) (fun _ => 3).

(** *** The validation helpers of [h_wp.c] *)

(** What a validation helper hands back: its result and the two variables
    [*pErrorClass] and [*pErrorCode] after the call. *)
Record validated := mk_validated {
  bResult : bool;
  error_class_out : Z;
  error_code_out : Z
}.

Section Validation.
(** [BACNET_CHARACTER_STRING] and its accessors ([bacstr.c]). *)
Variable BACNET_CHARACTER_STRING : Type.
Variable characterstring_encoding : BACNET_CHARACTER_STRING -> Z.
Variable characterstring_length : BACNET_CHARACTER_STRING -> Z.
Variable characterstring_printable : BACNET_CHARACTER_STRING -> bool.

(** The enumeration values of [bacenum.h] that the helpers name. *)
Variable BACNET_APPLICATION_TAG_CHARACTER_STRING : Z.
Variable CHARACTER_ANSI_X34 : Z.
Variable ERROR_CLASS_PROPERTY : Z.
Variable ERROR_CLASS_RESOURCES : Z.
Variable ERROR_CODE_VALUE_OUT_OF_RANGE : Z.
Variable ERROR_CODE_NO_SPACE_TO_WRITE_PROPERTY : Z.
Variable ERROR_CODE_CHARACTER_SET_NOT_SUPPORTED : Z.
Variable ERROR_CODE_INVALID_DATA_TYPE : Z.

(** [BACNET_APPLICATION_DATA_VALUE], as far as the helpers read it. *)
Record BACNET_APPLICATION_DATA_VALUE := mk_application_data_value {
  tag : Z;
  type_Character_String : BACNET_CHARACTER_STRING
}.

(** [WPValidateString] *)
Definition WPValidateString (pValue : BACNET_APPLICATION_DATA_VALUE)
    (iMaxLen : Z) (bEmptyAllowed : bool) (pErrorClass pErrorCode : Z)
    : validated :=
  let str := type_Character_String pValue in
  (* pre selecting the most common outcomes from the tests *)
  let pErrorClass := ERROR_CLASS_PROPERTY in
  if tag pValue =? BACNET_APPLICATION_TAG_CHARACTER_STRING then
    if characterstring_encoding str =? CHARACTER_ANSI_X34 then
      if negb bEmptyAllowed && (characterstring_length str =? 0) then
        mk_validated false pErrorClass ERROR_CODE_VALUE_OUT_OF_RANGE
      else if negb bEmptyAllowed && negb (characterstring_printable str) then
        (* assumption: non-empty also means must be "printable" *)
        mk_validated false pErrorClass ERROR_CODE_VALUE_OUT_OF_RANGE
      else if Bip.to_uint16 iMaxLen <? characterstring_length str then
        mk_validated false ERROR_CLASS_RESOURCES
          ERROR_CODE_NO_SPACE_TO_WRITE_PROPERTY
      else
        (* It's all good! *)
        mk_validated true pErrorClass pErrorCode
    else
      mk_validated false pErrorClass ERROR_CODE_CHARACTER_SET_NOT_SUPPORTED
  else
    mk_validated false pErrorClass ERROR_CODE_INVALID_DATA_TYPE.

(** [WPValidateArgType] *)
Definition WPValidateArgType (pValue : BACNET_APPLICATION_DATA_VALUE)
    (ucExpectedTag : Z) (pErrorClass pErrorCode : Z) : validated :=
  (* start out assuming success and only set up error response if
     validation fails *)
  if negb (tag pValue =? ucExpectedTag) then
    mk_validated false ERROR_CLASS_PROPERTY ERROR_CODE_INVALID_DATA_TYPE
  else mk_validated true pErrorClass pErrorCode.

End Validation.

(** The invoke id that an APDU carries. *)
Definition apdu_invoke_id (a : apdu) : Z :=
  match a with
  | Reject id _ => id
  | Abort id _ _ => id
  | SimpleAck id _ => id
  | Error id _ _ _ => id
  end.

(** Strings as lists of character codes, for checks: the accessors of
    [bacstr.c] on them, and the helpers with the values of [bacenum.h]. *)
Definition sample_printable (str : Z * list Z) : bool :=
  forallb (fun c => (32 <=? c) && (c <=? 126)) str.2.

Definition sample_validate_string :=
  WPValidateString (Z * list Z) fst (fun str => Z.of_nat (length str.2))
    sample_printable 7 0 2 3 37 20 41 9.

End WriteProperty.

(** * The unconfirmed COV notification handler ([h_ucov.c]) *)
Module Ucov.

(** [BACNET_COV_NOTIFICATION]: a node of the list of callbacks.  Nodes are
    named by their addresses; [None] is the null pointer.  A callback is
    named by the address of its function. *)
Record BACNET_COV_NOTIFICATION := mk_notification {
  next : option Z;
  callback : option Z
}.

(** The memory that holds the nodes: the static head
    [Unconfirmed_COV_Notification_Head] and those that callers supplied. *)
Abbreviation memory := (gmap Z BACNET_COV_NOTIFICATION).

(** [chain m a l]: following [next] from the node at [a] visits the nodes
    at the addresses [l], in this order, and then meets the null pointer. *)
Inductive chain (m : memory) : Z -> list Z -> Prop :=
  | chain_end a n :
      m !! a = Some n -> next n = None -> chain m a []
  | chain_step a n b l :
      m !! a = Some n -> next n = Some b -> chain m b l ->
      chain m a (b :: l).

(** The callbacks of the nodes at addresses [l], in order. *)
Fixpoint callbacks_of (m : memory) (l : list Z) : list Z :=
  match l with
  | [] => []
  | a :: l' =>
      match m !! a ≫= callback with
      | Some f => f :: callbacks_of m l'
      | None => callbacks_of m l'
      end
  end.

Section Handler.
(** The address of the static [Unconfirmed_COV_Notification_Head]. *)
Variable Unconfirmed_COV_Notification_Head : Z.

(** [BACNET_COV_DATA] and the decoder of [cov.c], which returns the length
    decoded and the data. *)
Variable BACNET_COV_DATA : Type.
Variable cov_notify_decode_service_request :
  list Z -> Z -> Z * BACNET_COV_DATA.

(** What calling the function at a given address does to the memory that
    holds the nodes. *)
Variable run_callback : Z -> BACNET_COV_DATA -> memory -> memory.

(** The loop of [handler_ucov_notification_add], entered with [head].
    [fuel] bounds the number of rounds; [None] is a run that did not end
    within it, or that followed an address that holds no node. *)
Fixpoint notification_add_loop (fuel : nat) (m : memory) (head : Z)
    (cb : option Z) : option memory :=
  match fuel with
  | O => None
  | S fuel' =>
      match m !! head with
      | None => None
      | Some n =>
          if decide (next n = cb) then
            (* already here! *)
            Some m
          else
            match next n with
            | None =>
                (* first available free node *)
                Some (<[head := {| next := cb; callback := callback n |}]> m)
            | Some head' => notification_add_loop fuel' m head' cb
            end
      end
  end.

(** [handler_ucov_notification_add] *)
Definition handler_ucov_notification_add (fuel : nat) (m : memory)
    (cb : option Z) : option memory :=
  notification_add_loop fuel m Unconfirmed_COV_Notification_Head cb.

(** The loop of [handler_ucov_notification_callback], entered with [head]:
    the calls made, in order, and the memory afterwards. *)
Fixpoint notification_callback_loop (fuel : nat) (m : memory) (head : Z)
    (cov_data : BACNET_COV_DATA)
    : option (list (Z * BACNET_COV_DATA) * memory) :=
  match fuel with
  | O => None
  | S fuel' =>
      match m !! head with
      | None => None
      | Some n =>
          let called :=
            match callback n with
            | Some f => ([(f, cov_data)], run_callback f cov_data m)
            | None => ([], m)
            end in
          (* head = head->next *)
          match called.2 !! head with
          | None => None
          | Some n' =>
              match next n' with
              | None => Some called
              | Some head' =>
                  match notification_callback_loop fuel' called.2 head'
                          cov_data with
                  | Some rest => Some (called.1 ++ rest.1, rest.2)
                  | None => None
                  end
              end
          end
      end
  end.

(** [handler_ucov_notification_callback] *)
Definition handler_ucov_notification_callback (fuel : nat) (m : memory)
    (cov_data : BACNET_COV_DATA)
    : option (list (Z * BACNET_COV_DATA) * memory) :=
  notification_callback_loop fuel m Unconfirmed_COV_Notification_Head
    cov_data.

(** [handler_ucov_notification] (its debug output left out). *)
Definition handler_ucov_notification (fuel : nat) (m : memory)
    (service_request : list Z) (service_len : Z)
    : option (list (Z * BACNET_COV_DATA) * memory) :=
  (* decode the service request only *)
  let d := cov_notify_decode_service_request service_request service_len in
  if 0 <? d.1 then handler_ucov_notification_callback fuel m d.2
  else Some ([], m).

(** The callbacks leave the memory that holds the nodes as it is. *)
Definition callbacks_keep_memory : Prop :=
  forall f cov_data m, run_callback f cov_data m = m.

End Handler.

(** *** Concrete lists, for checks *)

(** The static head at address 100 and a node at address 200 with the
    callback 7: as a caller supplies the node, and once it is registered. *)
Definition sample_supplied : memory :=
  <[100 := mk_notification None None]>
    (<[200 := mk_notification None (Some 7)]> ∅).

Definition sample_registered : memory :=
  <[100 := mk_notification (Some 200) None]>
    (<[200 := mk_notification None (Some 7)]> ∅).

End Ucov.

(** * The millisecond timer of the STM32F4 port *)
Module Mstimer.

Section Tick.
(** The generic timers ([mstimer.c]) and what [mstimer_callback_handler]
    does to them. *)
Variable timers : Type.
Variable mstimer_callback_handler : timers -> timers.

(** [Millisecond_Counter], an [unsigned long] (32 bits on this target),
    and the generic timers. *)
Record mstimer_state := mk_mstimer_state {
  Millisecond_Counter : Z;
  callback_timers : timers
}.

(** [SysTick_Handler]: the interrupt from the timer. *)
Definition SysTick_Handler (s : mstimer_state) : mstimer_state :=
  {| (* increment the tick count *)
     Millisecond_Counter := (Millisecond_Counter s + 1) mod 2 ^ 32;
     (* run any callbacks *)
     callback_timers := mstimer_callback_handler (callback_timers s) |}.

(** [mstimer_now] *)
Definition mstimer_now (s : mstimer_state) : Z := Millisecond_Counter s.

(** [n] interrupts in a row. *)
Fixpoint ticks (n : nat) (s : mstimer_state) : mstimer_state :=
  match n with
  | O => s
  | S n' => ticks n' (SysTick_Handler s)
  end.

End Tick.

End Mstimer.
(** * Properties

    ** Byte arrays *)

Lemma store_bytes_length dst off src :
  length (store_bytes dst off src) = length dst.
Proof.
  revert dst off; induction src as [|x xs IH]; intros dst off; simpl; [done|].
  by rewrite IH, length_insert.
Qed.

Lemma store_bytes_lookup_lt dst off src (i : nat) :
  (i < off)%nat -> store_bytes dst off src !! i = dst !! i.
Proof.
  revert dst off; induction src as [|x xs IH]; intros dst off Hi; simpl; [done|].
  rewrite IH by lia. apply list_lookup_insert_ne; lia.
Qed.

Lemma store_bytes_lookup_ge dst off src (i : nat) :
  (off + length src <= i)%nat -> store_bytes dst off src !! i = dst !! i.
Proof.
  revert dst off; induction src as [|x xs IH]; intros dst off Hi; simpl in *; [done|].
  rewrite IH by lia. apply list_lookup_insert_ne; lia.
Qed.

Lemma store_bytes_lookup_in dst off src (i : nat) :
  (off + length src <= length dst)%nat ->
  (i < length src)%nat ->
  store_bytes dst off src !! (off + i)%nat = src !! i.
Proof.
  revert dst off i; induction src as [|x xs IH]; intros dst off i Hlen Hi;
    simpl in *; [lia|].
  destruct i as [|i].
  - rewrite Nat.add_0_r, store_bytes_lookup_lt by lia.
    apply list_lookup_insert_eq; lia.
  - replace (off + S i)%nat with (S off + i)%nat by lia.
    apply IH; [rewrite length_insert|]; lia.
Qed.

Lemma store_bytes_lookup_out dst off src (i : nat) :
  (i < off \/ off + length src <= i)%nat ->
  store_bytes dst off src !! i = dst !! i.
Proof.
  intros [H|H]; [by apply store_bytes_lookup_lt | by apply store_bytes_lookup_ge].
Qed.


(** ** The ring buffer *)
Module RingbufFacts.
Import Ringbuf.

Lemma is_power_of_two_exp x :
  is_power_of_two x = true -> exists k, 0 <= k /\ x = 2 ^ k.
Proof.
  unfold is_power_of_two. intros H.
  apply andb_true_iff in H as [_ H]. apply Z.eqb_eq in H.
  exists (Z.log2 x). split; [apply Z.log2_nonneg | exact H].
Qed.

Lemma is_power_of_two_pos x : is_power_of_two x = true -> 0 < x.
Proof.
  unfold is_power_of_two. intros H.
  apply andb_true_iff in H as [H _]. by apply Z.ltb_lt in H.
Qed.

Lemma pow2_is_power_of_two k : 0 <= k -> is_power_of_two (2 ^ k) = true.
Proof.
  intros Hk. unfold is_power_of_two. apply andb_true_iff. split.
  - apply Z.ltb_lt. by apply Z.pow_pos_nonneg.
  - apply Z.eqb_eq. by rewrite Z.log2_pow2.
Qed.

Lemma power_of_two_divides_word x :
  is_power_of_two x = true -> x < 2 ^ 32 -> (x | 2 ^ 32).
Proof.
  intros H Hlt. destruct (is_power_of_two_exp x H) as (k & Hk & ->).
  assert (k < 32) by (apply (Z.pow_lt_mono_r_iff 2); lia).
  exists (2 ^ (32 - k)). rewrite <- Z.pow_add_r by lia. f_equal; lia.
Qed.

Lemma land_mask x c :
  is_power_of_two c = true -> Z.land x (c - 1) = x mod c.
Proof.
  intros H. destruct (is_power_of_two_exp c H) as (k & Hk & ->).
  rewrite <- Z.land_ones by done. f_equal. rewrite Z.ones_equiv. lia.
Qed.

Lemma to_unsigned_mod x c :
  is_power_of_two c = true -> c < 2 ^ 32 -> to_unsigned x mod c = x mod c.
Proof.
  intros H Hlt. unfold to_unsigned.
  apply Z.mod_mod_divide. by apply power_of_two_divides_word.
Qed.

Lemma to_unsigned_range x : 0 <= to_unsigned x < 2 ^ 32.
Proof. unfold to_unsigned. apply Z.mod_pos_bound. lia. Qed.

(** Two slots of one window of fewer than [c] consecutive indices differ. *)
Lemma slots_differ c t (i j : Z) :
  0 < c -> 0 <= i < j -> j - i < c -> (t + i) mod c <> (t + j) mod c.
Proof.
  intros Hc Hij Hlt Heq.
  assert (Hd : ((t + j) - (t + i)) mod c = 0).
  { rewrite Zminus_mod, Heq, Z.sub_diag. by apply Z.mod_0_l; lia. }
  replace (t + j - (t + i)) with (j - i) in Hd by lia.
  rewrite Z.mod_small in Hd by lia. lia.
Qed.


(** *** The buffer as a bounded queue *)

Section Refinement.
Variables cap esize : Z.
Hypothesis Hcap : is_power_of_two cap = true.
Hypothesis Hcap32 : cap < 2 ^ 32.
Hypothesis Hesize : 0 < esize.

Local Abbreviation chunk_at := (Ringbuf.chunk_at esize).
Local Abbreviation represents := (Ringbuf.represents cap esize).

Lemma cap_pos : 0 < cap.
Proof. by apply is_power_of_two_pos. Qed.

Lemma chunk_at_lookup buf slot (i : nat) :
  chunk_at buf slot !! i =
  if decide (i < Z.to_nat esize)%nat
  then buf !! (Z.to_nat (slot * esize) + i)%nat else None.
Proof.
  unfold chunk_at. case_decide.
  - by rewrite lookup_take_lt, lookup_drop.
  - apply lookup_take_ge. lia.
Qed.

Lemma chunk_at_store_same buf slot e :
  0 <= slot < cap ->
  Z.of_nat (length e) = esize ->
  cap * esize <= Z.of_nat (length buf) ->
  chunk_at (store_bytes buf (Z.to_nat (slot * esize)) e) slot = e.
Proof.
  intros Hs He Hbuf. apply list_eq. intros i.
  rewrite chunk_at_lookup. case_decide as Hi.
  - apply store_bytes_lookup_in; [|lia].
    assert ((slot + 1) * esize <= cap * esize) by nia.
    assert (0 <= slot * esize) by nia. lia.
  - symmetry. apply lookup_ge_None. lia.
Qed.

Lemma chunk_at_store_other buf slot slot' e :
  0 <= slot < cap -> 0 <= slot' < cap -> slot <> slot' ->
  Z.of_nat (length e) = esize ->
  chunk_at (store_bytes buf (Z.to_nat (slot * esize)) e) slot' =
  chunk_at buf slot'.
Proof.
  intros Hs Hs' Hne He. apply list_eq. intros i.
  rewrite !chunk_at_lookup. case_decide as Hi; [|done].
  apply store_bytes_lookup_out.
  assert (0 <= slot * esize) by nia.
  assert (0 <= slot' * esize) by nia.
  destruct (Z.lt_ge_cases slot' slot).
  - left. assert ((slot' + 1) * esize <= slot * esize) by nia. lia.
  - right. assert ((slot + 1) * esize <= slot' * esize) by nia. lia.
Qed.

Lemma slot_offset_eq b idx :
  element_count b = cap -> element_size b = esize ->
  slot_offset b idx = Z.to_nat (idx mod cap * esize).
Proof.
  intros Hc He. unfold slot_offset. by rewrite Hc, He, land_mask.
Qed.

Lemma represents_count b q :
  represents b q -> Ringbuf_Count b = Z.of_nat (length q).
Proof.
  intros R. unfold Ringbuf_Count. rewrite (rep_head R).
  unfold to_unsigned. rewrite Zminus_mod_idemp_l.
  replace (tail b + Z.of_nat (length q) - tail b)
    with (Z.of_nat (length q)) by lia.
  apply Z.mod_small. pose proof (rep_len R). lia.
Qed.

(** [Ringbuf_Put] on a buffer that is not full appends to the queue. *)
Lemma put_appends b q e :
  represents b q ->
  Z.of_nat (length q) < cap ->
  Z.of_nat (length e) = esize ->
  (Ringbuf_Put b e).1 = true /\
  represents (Ringbuf_Put b e).2 (q ++ [e]) /\
  depth (Ringbuf_Put b e).2 =
    Z.max (depth b) (Z.of_nat (length q) + 1).
Proof.
  intros R Hlt He. pose proof cap_pos as Hpos.
  pose proof (represents_count b q R) as Hcnt.
  destruct R as [Rc Rs Rb Rt Rh Rl Re Rsl].
  destruct b as [buf es ec hd tl dp].
  cbn [buffer element_size element_count head tail depth] in *. subst es ec.
  unfold Ringbuf_Put, Ringbuf_Full. rewrite Hcnt.
  cbn [buffer element_size element_count head tail depth].
  destruct (Z.eqb_spec (Z.of_nat (length q)) cap) as [|_]; [lia|].
  cbn [fst snd].
  rewrite take_ge by lia.
  unfold slot_offset.
  cbn [buffer element_size element_count head tail depth].
  rewrite land_mask by done.
  assert (Hslot : hd mod cap = (tl + Z.of_nat (length q)) mod cap).
  { rewrite Rh. by apply to_unsigned_mod. }
  rewrite Hslot.
  unfold Ringbuf_Depth_Update, Ringbuf_Count.
  cbn [buffer element_size element_count head tail depth].
  assert (Hcnt' : to_unsigned (to_unsigned (hd + 1) - tl) =
                  Z.of_nat (length q) + 1).
  { rewrite Rh. unfold to_unsigned.
    rewrite Zplus_mod_idemp_l, Zminus_mod_idemp_l.
    replace (tl + Z.of_nat (length q) + 1 - tl)
      with (Z.of_nat (length q) + 1) by lia.
    apply Z.mod_small. lia. }
  rewrite Hcnt'. split; [done|]. split; [|done].
  split; cbn [buffer element_size element_count head tail depth]; try done.
  - by rewrite store_bytes_length.
  - rewrite Rh, length_app. cbn [length]. unfold to_unsigned.
    rewrite Zplus_mod_idemp_l. f_equal. lia.
  - rewrite length_app. cbn [length]. lia.
  - apply Forall_app. split; [done|]. by apply Forall_singleton.
  - intros i x Hx.
    pose proof (Z.mod_pos_bound (tl + Z.of_nat (length q)) cap Hpos).
    pose proof (Z.mod_pos_bound (tl + Z.of_nat i) cap Hpos).
    destruct (decide (i < length q)%nat) as [Hi|Hi].
    + rewrite lookup_app_l in Hx by done.
      rewrite chunk_at_store_other; [by apply Rsl|done|done| |done].
      intros Heq. symmetry in Heq. revert Heq.
      apply slots_differ; lia.
    + rewrite lookup_app_r in Hx by lia.
      assert (i = length q) as ->.
      { apply lookup_lt_Some in Hx. cbn [length] in Hx. lia. }
      rewrite Nat.sub_diag in Hx. injection Hx as <-.
      by apply chunk_at_store_same.
Qed.

(** [Ringbuf_Put] on a full buffer fails and changes nothing. *)
Lemma put_full b q e :
  represents b q -> Z.of_nat (length q) = cap ->
  Ringbuf_Put b e = (false, b).
Proof.
  intros R Hfull. unfold Ringbuf_Put, Ringbuf_Full.
  rewrite (represents_count b q R), (rep_count R), Hfull.
  by rewrite Z.eqb_refl.
Qed.

(** [Ringbuf_Pop] on a buffer that is not empty removes the oldest element
    and hands it out. *)
Lemma pop_removes b x q :
  represents b (x :: q) ->
  (Ringbuf_Pop b).1 = Some x /\
  represents (Ringbuf_Pop b).2 q /\
  depth (Ringbuf_Pop b).2 = depth b.
Proof.
  intros R. pose proof cap_pos as Hpos.
  pose proof (represents_count b _ R) as Hcnt.
  destruct R as [Rc Rs Rb Rt Rh Rl Re Rsl].
  cbn [length] in *.
  unfold Ringbuf_Pop, Ringbuf_Empty. rewrite Hcnt.
  destruct (Z.eqb_spec (Z.of_nat (S (length q))) 0) as [|_]; [lia|].
  cbn [fst snd depth]. split; [|split; [|done]].
  - f_equal. rewrite (slot_offset_eq b (tail b) Rc Rs), Rs.
    specialize (Rsl 0%nat x eq_refl). cbn in Rsl.
    by rewrite Z.add_0_r in Rsl.
  - split; cbn [buffer element_size element_count head tail depth]; try done.
    + apply to_unsigned_range.
    + rewrite Rh. unfold to_unsigned. rewrite Zplus_mod_idemp_l.
      f_equal. lia.
    + lia.
    + by inversion Re.
    + intros i e Hi. specialize (Rsl (S i) e Hi).
      rewrite <- Rsl. f_equal.
      rewrite Zplus_mod, to_unsigned_mod, <- Zplus_mod by done.
      f_equal. lia.
Qed.

(** [Ringbuf_Pop] on an empty buffer fails and changes nothing. *)
Lemma pop_empty b :
  represents b [] -> Ringbuf_Pop b = (None, b).
Proof.
  intros R. unfold Ringbuf_Pop, Ringbuf_Empty.
  by rewrite (represents_count b _ R).
Qed.

Lemma put_elements_length cs : length (put_elements cs) = count_puts cs.
Proof.
  induction cs as [|[e|] cs IH]; cbn; [done| |done].
  by rewrite IH.
Qed.

Lemma max_count_seen_ge b cs : Ringbuf_Count b <= max_count_seen b cs.
Proof. destruct cs; cbn; lia. Qed.

(** A run that stays within the capacity behaves as the queue does. *)
Lemma run_queue cs : forall b q,
  represents b q ->
  Forall (fun e => Z.of_nat (length e) = esize) (put_elements cs) ->
  within_capacity cap (Z.of_nat (length q)) cs = true ->
  Ringbuf_Count b <= depth b ->
  all_succeeded (run b cs).1 = true /\
  represents (run b cs).2 (drop (count_pops cs) (q ++ put_elements cs)) /\
  popped_elements (run b cs).1 =
    take (count_pops cs) (q ++ put_elements cs) /\
  depth (run b cs).2 = Z.max (depth b) (max_count_seen b cs) /\
  (count_pops cs <= length q + count_puts cs)%nat.
Proof.
  induction cs as [|[e|] cs IH]; intros b q R Hel Hw Hd.
  - cbn [run fst snd all_succeeded forallb popped_elements put_elements
         count_pops count_puts max_count_seen drop take].
    rewrite app_nil_r. split_and!; try done; lia.
  - cbn [within_capacity] in Hw. apply andb_true_iff in Hw as [Hk Hw].
    apply Z.leb_le in Hk.
    cbn [put_elements] in Hel. apply Forall_cons in Hel as [He Hel].
    destruct (put_appends b q e R) as (Hok & R' & Hdep); [lia|done|].
    pose proof (represents_count _ _ R') as Hcnt'.
    pose proof (represents_count _ _ R) as Hcnt.
    rewrite length_app in Hcnt'. cbn [length] in Hcnt'.
    destruct (IH (Ringbuf_Put b e).2 (q ++ [e]) R' Hel) as (A1 & A2 & A3 & A4 & A5).
    { rewrite length_app. cbn [length].
      replace (Z.of_nat (length q + 1)) with (Z.of_nat (length q) + 1) by lia.
      done. }
    { lia. }
    pose proof (max_count_seen_ge (Ringbuf_Put b e).2 cs).
    cbn [run step fst snd all_succeeded forallb popped_elements
         put_elements count_pops count_puts max_count_seen].
    rewrite <- app_assoc in A2, A3. cbn [app] in A2, A3.
    rewrite length_app in A5. cbn [length] in A5.
    rewrite Hok. split_and!; try done; lia.
  - cbn [within_capacity] in Hw. apply andb_true_iff in Hw as [Hk Hw].
    apply Z.leb_le in Hk.
    destruct q as [|x q]; [cbn in Hk; lia|].
    destruct (pop_removes b x q R) as (Hout & R' & Hdep).
    pose proof (represents_count _ _ R') as Hcnt'.
    pose proof (represents_count _ _ R) as Hcnt.
    cbn [length] in Hcnt.
    destruct (IH (Ringbuf_Pop b).2 q R' Hel) as (A1 & A2 & A3 & A4 & A5).
    { replace (Z.of_nat (length q)) with (Z.of_nat (length (x :: q)) - 1)
        by (cbn [length]; lia). done. }
    { lia. }
    pose proof (max_count_seen_ge (Ringbuf_Pop b).2 cs).
    cbn [run step fst snd all_succeeded forallb popped_elements
         put_elements count_pops count_puts max_count_seen].
    rewrite Hout. cbn [app drop take length].
    split_and!; try done.
    + by rewrite A3.
    + lia.
    + lia.
Qed.

End Refinement.


(** *** Runs, whatever the buffer *)

Lemma run_app b cs1 cs2 :
  run b (cs1 ++ cs2) =
  ((run b cs1).1 ++ (run (run b cs1).2 cs2).1, (run (run b cs1).2 cs2).2).
Proof.
  revert b; induction cs1 as [|c cs1 IH]; intros b; cbn [app run fst snd].
  - by destruct (run b cs2).
  - by rewrite IH.
Qed.

Lemma depth_step_mono b c : depth b <= depth (step b c).2.
Proof.
  destruct c as [e|]; cbn [step snd].
  - unfold Ringbuf_Put. destruct (Ringbuf_Full b); cbn [snd]; [lia|].
    unfold Ringbuf_Depth_Update. cbn [depth]. lia.
  - unfold Ringbuf_Pop. destruct (Ringbuf_Empty b); cbn [snd depth]; lia.
Qed.

Lemma depth_run_mono cs : forall b, depth b <= depth (run b cs).2.
Proof.
  induction cs as [|c cs IH]; intros b; cbn [run snd]; [lia|].
  pose proof (depth_step_mono b c). pose proof (IH (step b c).2). lia.
Qed.

Lemma init_represents b0 buf esize cap :
  (Ringbuf_Init b0 buf esize cap).1 = true ->
  cap < 2 ^ 32 -> 0 <= esize ->
  cap * esize <= Z.of_nat (length buf) ->
  is_power_of_two cap = true /\ 0 < esize /\
  represents cap esize (Ringbuf_Init b0 buf esize cap).2 [] /\
  depth (Ringbuf_Init b0 buf esize cap).2 = 0.
Proof.
  unfold Ringbuf_Init. intros Hok Hcap Hes Hbuf.
  destruct (is_power_of_two cap) eqn:Hp; cbn [andb] in *; [|done].
  destruct (Z.eqb_spec esize 0) as [|Hne]; cbn [negb fst snd] in *; [done|].
  split_and!; [done|lia| |done].
  split; cbn [buffer element_size element_count head tail depth length];
    try done.
  apply is_power_of_two_pos in Hp. lia.
Qed.

(** *** Checks on concrete buffers *)

Example run_four_slots :
  let b := (Ringbuf_Init (mkRING_BUFFER [] 0 0 0 0 0)
              (replicate 8 0) 2 4).2 in
  let r := run b [Put [1; 2]; Put [3; 4]; Pop; Put [5; 6]; Pop; Pop; Pop] in
  r.1 = [PutDone true; PutDone true; PopDone (Some [1; 2]); PutDone true;
         PopDone (Some [3; 4]); PopDone (Some [5; 6]); PopDone None]
  /\ Ringbuf_Count r.2 = 0 /\ Ringbuf_Depth r.2 = 2.
Proof. vm_compute. done. Qed.

(** [head] and [tail] wrap at the width of [unsigned]; the order is kept. *)
Example run_across_the_wrap :
  let b := mkRING_BUFFER (replicate 2 0) 1 2 (2 ^ 32 - 1) (2 ^ 32 - 1) 0 in
  let r := run b [Put [7]; Put [8]; Put [9]; Pop; Put [9]; Pop; Pop] in
  r.1 = [PutDone true; PutDone true; PutDone false; PopDone (Some [7]);
         PutDone true; PopDone (Some [8]); PopDone (Some [9])]
  /\ head r.2 = 2 /\ tail r.2 = 2.
Proof. vm_compute. done. Qed.

(** C1.  Ring buffer FIFO contract.  For every capacity [cap] that
    [Ringbuf_Init] accepts (a power of two) and every sequence of
    [Ringbuf_Put] and [Ringbuf_Pop] calls that never has more than [cap]
    elements outstanding (nor pops more than was put): every call succeeds
    and the pops return the elements in the order they were put; after N
    puts and M pops [Ringbuf_Count] is N - M; [Ringbuf_Full] holds exactly
    when the count is [cap]; [Ringbuf_Depth] never decreases along the run
    and equals the largest count seen since the buffer was initialised. *)
Theorem Ringbuf_fifo_contract
    (b0 : RING_BUFFER) (buf : list Z) (esize cap : Z) (cs : list call) :
  (Ringbuf_Init b0 buf esize cap).1 = true ->
  cap < 2 ^ 32 -> 0 <= esize ->
  cap * esize <= Z.of_nat (length buf) ->
  Forall (fun e => Z.of_nat (length e) = esize) (put_elements cs) ->
  within_capacity cap 0 cs = true ->
  let b := (Ringbuf_Init b0 buf esize cap).2 in
  let r := run b cs in
  all_succeeded r.1 = true /\
  popped_elements r.1 = take (count_pops cs) (put_elements cs) /\
  (count_pops cs <= count_puts cs)%nat /\
  Ringbuf_Count r.2 = Z.of_nat (count_puts cs) - Z.of_nat (count_pops cs) /\
  (Ringbuf_Full r.2 = true <-> Ringbuf_Count r.2 = cap) /\
  Ringbuf_Depth r.2 = max_count_seen b cs /\
  (forall cs1 cs2, cs = cs1 ++ cs2 ->
     Ringbuf_Depth (run b cs1).2 <= Ringbuf_Depth r.2).
Proof.
  intros Hok Hcap Hes Hbuf Hel Hw b r. subst r.
  destruct (init_represents b0 buf esize cap Hok Hcap Hes Hbuf)
    as (Hp & Hes' & R & Hd0).
  fold b in R, Hd0.
  pose proof (represents_count _ _ Hcap _ _ R) as Hc0. cbn [length] in Hc0.
  destruct (run_queue cap esize Hp Hcap Hes' cs b [] R Hel Hw)
    as (A1 & A2 & A3 & A4 & A5); [lia|].
  cbn [app length] in *.
  pose proof (represents_count _ _ Hcap _ _ A2) as Hc.
  rewrite length_drop, put_elements_length in Hc.
  pose proof (max_count_seen_ge b cs).
  split_and!; try done.
  - lia.
  - unfold Ringbuf_Full. rewrite (rep_count A2). apply Z.eqb_eq.
  - unfold Ringbuf_Depth. lia.
  - intros cs1 cs2 ->. unfold Ringbuf_Depth.
    rewrite run_app. cbn [snd]. apply depth_run_mono.
Qed.

Lemma Ringbuf_fifo_contract_witness :
  let b := (Ringbuf_Init (mkRING_BUFFER [] 0 0 0 0 0)
              (replicate 8 0) 2 4).2 in
  let cs := [Put [1; 2]; Put [3; 4]; Pop; Put [5; 6]; Pop] in
  let r := run b cs in
  all_succeeded r.1 = true /\
  popped_elements r.1 = take (count_pops cs) (put_elements cs) /\
  (count_pops cs <= count_puts cs)%nat /\
  Ringbuf_Count r.2 = Z.of_nat (count_puts cs) - Z.of_nat (count_pops cs) /\
  (Ringbuf_Full r.2 = true <-> Ringbuf_Count r.2 = 4) /\
  Ringbuf_Depth r.2 = max_count_seen b cs /\
  (forall cs1 cs2, cs = cs1 ++ cs2 ->
     Ringbuf_Depth (run b cs1).2 <= Ringbuf_Depth r.2).
Proof.
  apply (Ringbuf_fifo_contract (mkRING_BUFFER [] 0 0 0 0 0)
           (replicate 8 0) 2 4
           [Put [1; 2]; Put [3; 4]; Pop; Put [5; 6]; Pop]).
  - reflexivity.
  - reflexivity.
  - discriminate.
  - vm_compute. discriminate.
  - repeat constructor.
  - reflexivity.
Defined.


Lemma is_power_of_two_iff x :
  is_power_of_two x = true <-> exists k, 0 <= k /\ x = 2 ^ k.
Proof.
  split; [apply is_power_of_two_exp|].
  intros (k & Hk & ->). by apply pow2_is_power_of_two.
Qed.

(** C2.  [Ringbuf_Init] returns [false], leaving the structure as it was,
    whenever [element_count] is zero or not a power of two, or
    [element_size] is zero; it rejects the counts 0, 3, 5 and 100 and (for a
    non-zero element size) accepts 1, 2, 4, 64 and 1024.  Otherwise it
    returns [true], the structure holds the caller's buffer itself, the
    given size and count, and [head], [tail] and [depth] are zero. *)
Theorem Ringbuf_Init_contract
    (b : RING_BUFFER) (buf : list Z) (esize ecount : Z) :
  ((ecount = 0 \/ (forall k, 0 <= k -> ecount <> 2 ^ k) \/ esize = 0) ->
     Ringbuf_Init b buf esize ecount = (false, b)) /\
  (((exists k, 0 <= k /\ ecount = 2 ^ k) /\ esize <> 0) ->
     Ringbuf_Init b buf esize ecount =
       (true, {| buffer := buf; element_size := esize;
                 element_count := ecount;
                 head := 0; tail := 0; depth := 0 |})) /\
  (forall c, c ∈ [0; 3; 5; 100] -> (Ringbuf_Init b buf esize c).1 = false) /\
  (esize <> 0 ->
   forall c, c ∈ [1; 2; 4; 64; 1024] -> (Ringbuf_Init b buf esize c).1 = true).
Proof.
  split_and!.
  - intros H. unfold Ringbuf_Init.
    destruct (is_power_of_two ecount) eqn:Hp; cbn [andb]; [|done].
    apply is_power_of_two_iff in Hp as (k & Hk & ->).
    destruct H as [H|[H|H]].
    + pose proof (Z.pow_pos_nonneg 2 k). lia.
    + by destruct (H k Hk).
    + subst esize. done.
  - intros [Hp Hes]. unfold Ringbuf_Init.
    apply is_power_of_two_iff in Hp. rewrite Hp. cbn [andb].
    by destruct (Z.eqb_spec esize 0).
  - intros c Hc. unfold Ringbuf_Init.
    repeat (apply elem_of_cons in Hc as [->|Hc]; [done|]).
    by apply elem_of_nil in Hc.
  - intros Hes c Hc. unfold Ringbuf_Init.
    destruct (Z.eqb_spec esize 0) as [|_]; [done|].
    repeat (apply elem_of_cons in Hc as [->|Hc]; [done|]).
    by apply elem_of_nil in Hc.
Qed.

(** *** The power-of-two alignment macro *)

Lemma smears_id : smears 1 (fun x => x).
Proof.
  intros x i Hi. split.
  - intros H. exists 0. split; [lia|]. by rewrite Z.add_0_r.
  - intros (j & Hj & H). by replace (i + j) with i in H by lia.
Qed.

Lemma smears_double k f :
  0 < k -> smears k f ->
  smears (2 * k) (fun x => Z.lor (f x) (Z.shiftr (f x) k)).
Proof.
  intros Hk Hf x i Hi.
  rewrite Z.lor_spec, Z.shiftr_spec, orb_true_iff by lia.
  rewrite (Hf x i), (Hf x (i + k)) by lia. split.
  - intros [(j & Hj & H)|(j & Hj & H)].
    + exists j. split; [lia|done].
    + exists (k + j). split; [lia|]. by rewrite Z.add_assoc.
  - intros (j & Hj & H). destruct (Z.lt_ge_cases j k).
    + left. exists j. split; [lia|done].
    + right. exists (j - k). split; [lia|].
      by replace (i + k + (j - k)) with (i + j) by lia.
Qed.

Lemma smears_B32 : smears 32 B32.
Proof.
  unfold B32, B16, B8, B4, B2.
  apply (smears_double 16); [lia|]. apply (smears_double 8); [lia|].
  apply (smears_double 4); [lia|]. apply (smears_double 2); [lia|].
  apply (smears_double 1); [lia|]. apply smears_id.
Qed.

(** On a positive value below [2^32], [B32] sets every bit up to the
    highest one. *)
Lemma B32_ones v :
  0 < v < 2 ^ 32 -> B32 v = Z.ones (Z.log2 v + 1).
Proof.
  intros Hv.
  assert (Hn : 0 <= Z.log2 v < 32).
  { split; [apply Z.log2_nonneg|]. apply Z.log2_lt_pow2; lia. }
  apply Z.bits_inj'. intros i Hi.
  destruct (Z.lt_ge_cases i (Z.log2 v + 1)) as [Hlow|Hhigh].
  - rewrite Z.ones_spec_low by lia.
    apply (smears_B32 v i Hi). exists (Z.log2 v - i). split; [lia|].
    replace (i + (Z.log2 v - i)) with (Z.log2 v) by lia.
    apply Z.bit_log2. lia.
  - rewrite Z.ones_spec_high by lia.
    destruct (Z.testbit (B32 v) i) eqn:Hb; [|done].
    apply (smears_B32 v i Hi) in Hb as (j & Hj & Hb).
    rewrite Z.bits_above_log2 in Hb by lia. done.
Qed.

Lemma B32_next_power x :
  1 <= x <= 2 ^ 32 -> B32 (x - 1) + 1 = 2 ^ Z.log2_up x.
Proof.
  intros Hx.
  destruct (decide (x = 1)) as [->|Hne]; [reflexivity|].
  rewrite B32_ones by lia.
  rewrite Z.ones_equiv, Z.log2_up_eqn by lia.
  replace (Z.pred x) with (x - 1) by lia.
  replace (Z.log2 (x - 1) + 1) with (Z.succ (Z.log2 (x - 1))) by lia. lia.
Qed.

Lemma log2_up_between x k :
  0 <= k -> 2 ^ k < x <= 2 ^ (k + 1) -> Z.log2_up x = k + 1.
Proof.
  intros Hk Hx. assert (0 < 2 ^ k) by (apply Z.pow_pos_nonneg; lia).
  apply Z.log2_up_unique; [lia|].
  by replace (Z.pred (k + 1)) with k by lia.
Qed.

(** X1.  [NEXT_POWER_OF_2(x)] in 32-bit arithmetic.  For an [int] argument
    from 1 to [2^30], and for an [unsigned] argument from 1 to [2^31], it
    is the least power of two that is at least [x]: a power of two, in
    [x, 2x), that no smaller power of two reaching [x] undercuts, and [x]
    itself when [x] is a power of two.  Above that range the addition
    leaves the type: with an [int] argument (up to [2^31 - 1]) it
    overflows, with an [unsigned] argument (up to [2^32 - 1]) the macro
    yields 0. *)
Theorem NEXT_POWER_OF_2_least (t : operand_type) (x : Z) :
  let limit :=
    match t with operand_int => 2 ^ 30 | operand_unsigned => 2 ^ 31 end in
  (1 <= x <= limit ->
   exists r,
     NEXT_POWER_OF_2 t x = Some r /\
     (exists k, 0 <= k <= 31 /\ r = 2 ^ k) /\
     x <= r < 2 * x /\
     (forall j, 0 <= j -> x <= 2 ^ j -> r <= 2 ^ j) /\
     (forall j, 0 <= j -> x = 2 ^ j -> r = x)) /\
  (limit < x < 2 * limit ->
   NEXT_POWER_OF_2 t x =
   match t with operand_int => None | operand_unsigned => Some 0 end).
Proof.
  intros limit. split.
  - intros Hx. exists (2 ^ Z.log2_up x).
    assert (Hlim : limit <= 2 ^ 31) by (subst limit; destruct t; lia).
    pose proof (Z.log2_up_nonneg x) as Hl.
    assert (Hmin : forall j, 0 <= j -> x <= 2 ^ j ->
                     2 ^ Z.log2_up x <= 2 ^ j).
    { intros j Hj Hxj. apply Z.pow_le_mono_r; [lia|].
      apply Z.log2_up_le_pow2; lia. }
    assert (Hge : x <= 2 ^ Z.log2_up x).
    { destruct (decide (x = 1)) as [->|]; [done|].
      apply Z.log2_up_spec. lia. }
    assert (Hle : 2 ^ Z.log2_up x <= limit).
    { subst limit. destruct t; [apply (Hmin 30)|apply (Hmin 31)]; lia. }
    split_and!; try done.
    + unfold NEXT_POWER_OF_2, arithmetic. subst limit. destruct t.
      * destruct (Z.leb_spec (- 2 ^ 31) (x - 1)); [|lia].
        destruct (Z.ltb_spec (x - 1) (2 ^ 31)); [|lia]. cbn [andb].
        rewrite B32_next_power by lia.
        destruct (Z.leb_spec (- 2 ^ 31) (2 ^ Z.log2_up x)); [|lia].
        destruct (Z.ltb_spec (2 ^ Z.log2_up x) (2 ^ 31)); [|lia]. done.
      * rewrite (Z.mod_small (x - 1)) by lia.
        rewrite B32_next_power by lia. by rewrite Z.mod_small by lia.
    + exists (Z.log2_up x). split; [|done]. split; [done|].
      apply Z.log2_up_le_pow2; lia.
    + destruct (decide (x = 1)) as [->|]; [done|].
      pose proof (Z.log2_up_spec x ltac:(lia)) as [Hlt _].
      assert (0 < Z.log2_up x) by (apply Z.log2_up_pos; lia).
      replace (Z.log2_up x) with (Z.succ (Z.pred (Z.log2_up x))) by lia.
      rewrite Z.pow_succ_r by lia. lia.
    + intros j Hj Hxj. specialize (Hmin j Hj). lia.
  - intros Hx. unfold NEXT_POWER_OF_2, arithmetic. subst limit. destruct t.
    + destruct (Z.leb_spec (- 2 ^ 31) (x - 1)); [|lia].
      destruct (Z.ltb_spec (x - 1) (2 ^ 31)); [|lia]. cbn [andb].
      rewrite B32_next_power, (log2_up_between x 30) by lia.
      reflexivity.
    + rewrite (Z.mod_small (x - 1)) by lia.
      rewrite B32_next_power, (log2_up_between x 31) by lia.
      reflexivity.
Qed.

Example NEXT_POWER_OF_2_values :
  map (NEXT_POWER_OF_2 operand_int) [1; 2; 3; 5; 64; 100; 1000; 2 ^ 30]
  = map Some [1; 2; 4; 8; 64; 128; 1024; 2 ^ 30] /\
  NEXT_POWER_OF_2 operand_int (2 ^ 30 + 1) = None /\
  NEXT_POWER_OF_2 operand_unsigned (2 ^ 30 + 1) = Some (2 ^ 31) /\
  NEXT_POWER_OF_2 operand_unsigned (2 ^ 31 + 1) = Some 0 /\
  NEXT_POWER_OF_2 operand_int 0 = Some 0 /\
  NEXT_POWER_OF_2 operand_unsigned 0 = Some 0.
Proof. split_and!; reflexivity. Qed.

End RingbufFacts.

(** ** The BACnet/IP driver *)
Module BipFacts.
Import Bip.

(** The six bytes the driver stores at the start of an address' [mac]. *)
Lemma mac_after_stores m (a p : list Z) :
  length a = 4%nat -> length p = 2%nat -> (6 <= length m)%nat ->
  take 6 (store_bytes (store_bytes m 0 (take 4 a)) 4 (take 2 p)) = a ++ p.
Proof.
  intros Ha Hp Hm. rewrite (take_ge a), (take_ge p) by lia.
  apply list_eq. intros i.
  destruct (decide (i < 4)%nat) as [Hi|Hi].
  - rewrite lookup_take_lt, store_bytes_lookup_lt, lookup_app_l by lia.
    apply (store_bytes_lookup_in m 0 a i); lia.
  - destruct (decide (i < 6)%nat) as [Hi6|Hi6].
    + rewrite lookup_take_lt, lookup_app_r by lia. rewrite Ha.
      replace i with (4 + (i - 4))%nat at 1 by lia.
      apply store_bytes_lookup_in; [rewrite store_bytes_length|]; lia.
    + rewrite lookup_take_ge by lia. symmetry. apply lookup_ge_None.
      rewrite length_app. lia.
Qed.

Lemma zero_bytes_all l :
  zero_bytes l 0 (length l) = replicate (length l) 0.
Proof.
  unfold zero_bytes. apply list_eq. intros i.
  destruct (decide (i < length l)%nat) as [Hi|Hi].
  - apply (store_bytes_lookup_in l 0 (replicate (length l) 0) i);
      rewrite length_replicate; lia.
  - rewrite store_bytes_lookup_ge by (rewrite length_replicate; lia).
    transitivity (@None Z).
    + apply lookup_ge_None. lia.
    + symmetry. apply lookup_ge_None. rewrite length_replicate. lia.
Qed.

(** C8.  Address normalization.  For every non-null [addr] (whose [mac] and
    [adr] arrays have [MAX_MAC_LEN] bytes, at least the six of a BACnet/IP
    MAC), [bip_get_my_address] yields [mac_len = 6], a MAC that is the four
    bytes of the IPv4 address followed by the two bytes of the UDP port,
    [net = 0], [len = 0] and every byte of [adr] equal to 0. *)
Theorem bip_get_my_address_normal_form
    (MAX_MAC_LEN : nat) (s : bip_state) (a : BACNET_ADDRESS) :
  (6 <= MAX_MAC_LEN)%nat ->
  length (mac a) = MAX_MAC_LEN ->
  length (adr a) = MAX_MAC_LEN ->
  length (s_addr (BIP_Address s)) = 4%nat ->
  length (BIP_Port s) = 2%nat ->
  exists a',
    bip_get_my_address MAX_MAC_LEN s (Some a) = Some a' /\
    mac_len a' = 6 /\
    take 6 (mac a') = s_addr (BIP_Address s) ++ BIP_Port s /\
    net a' = 0 /\
    len a' = 0 /\
    length (adr a') = MAX_MAC_LEN /\
    Forall (fun byte => byte = 0) (adr a').
Proof.
  intros Hmax Hmac Hadr Hip Hport.
  eexists. split; [reflexivity|]. cbn [mac_len mac net len adr].
  split_and!; try done.
  - apply mac_after_stores; lia.
  - unfold zero_bytes. by rewrite store_bytes_length.
  - rewrite <- Hadr, zero_bytes_all. by apply Forall_replicate.
Qed.

Lemma bip_get_my_address_normal_form_witness :
  exists a',
    bip_get_my_address 7 (set_BIP_Address (mk_in_addr [192; 168; 1; 20])
                            (bip_set_port 47808 bip_state_initial))
      (Some (mk_BACNET_ADDRESS 1 [9; 9; 9; 9; 9; 9; 9] 5 3
               [1; 2; 3; 4; 5; 6; 7])) = Some a' /\
    mac_len a' = 6 /\
    take 6 (mac a') = [192; 168; 1; 20] ++ [186; 192] /\
    net a' = 0 /\
    len a' = 0 /\
    length (adr a') = 7%nat /\
    Forall (fun byte => byte = 0) (adr a').
Proof.
  apply (bip_get_my_address_normal_form 7
           (set_BIP_Address (mk_in_addr [192; 168; 1; 20])
              (bip_set_port 47808 bip_state_initial))
           (mk_BACNET_ADDRESS 1 [9; 9; 9; 9; 9; 9; 9] 5 3
              [1; 2; 3; 4; 5; 6; 7])); cbn; first [lia | reflexivity].
Defined.


(** C4, as stated, fails: the address [bip_get_broadcast_address] fills in
    carries the broadcast sentinel in [net] and a MAC length of 6, not 0. *)
Lemma bip_get_broadcast_address_mac_len_counterexample :
  exists d',
    bip_get_broadcast_address 7 65535
      (set_BIP_Broadcast_Addr (mk_in_addr [192; 168; 1; 255])
         (bip_set_port 47808 bip_state_initial))
      (Some (mk_BACNET_ADDRESS 0 [0; 0; 0; 0; 0; 0; 0] 0 0
               [0; 0; 0; 0; 0; 0; 0])) = Some d' /\
    net d' = 65535 /\
    mac_len d' = 6 /\
    mac_len d' <> 0.
Proof. eexists. split; [reflexivity|]. cbn. split_and!; done. Qed.

(** C4, amended.  The address that [bip_get_broadcast_address] fills in
    (for a non-null [dest] whose arrays have [MAX_MAC_LEN] bytes, at least
    six) has [net] equal to [BACNET_BROADCAST_NETWORK] and no address on
    that network: [len] is zero and every byte of [adr] is zero.  Its
    [mac_len] is 6, the MAC being the four bytes of the local IPv4
    broadcast address followed by the two bytes of the UDP port. *)
Theorem bip_get_broadcast_address_form
    (MAX_MAC_LEN : nat) (BACNET_BROADCAST_NETWORK : Z)
    (s : bip_state) (d : BACNET_ADDRESS) :
  (6 <= MAX_MAC_LEN)%nat ->
  length (mac d) = MAX_MAC_LEN ->
  length (adr d) = MAX_MAC_LEN ->
  length (s_addr (BIP_Broadcast_Addr s)) = 4%nat ->
  length (BIP_Port s) = 2%nat ->
  exists d',
    bip_get_broadcast_address MAX_MAC_LEN BACNET_BROADCAST_NETWORK s (Some d)
      = Some d' /\
    net d' = BACNET_BROADCAST_NETWORK /\
    len d' = 0 /\
    length (adr d') = MAX_MAC_LEN /\
    Forall (fun byte => byte = 0) (adr d') /\
    mac_len d' = 6 /\
    take 6 (mac d') = s_addr (BIP_Broadcast_Addr s) ++ BIP_Port s.
Proof.
  intros Hmax Hmac Hadr Hip Hport.
  eexists. split; [reflexivity|]. cbn [mac_len mac net len adr].
  split_and!; try done.
  - unfold zero_bytes. by rewrite store_bytes_length.
  - rewrite <- Hadr, zero_bytes_all. by apply Forall_replicate.
  - apply mac_after_stores; lia.
Qed.

Lemma bip_get_broadcast_address_form_witness :
  exists d',
    bip_get_broadcast_address 7 65535
      (set_BIP_Broadcast_Addr (mk_in_addr [192; 168; 1; 255])
         (bip_set_port 47808 bip_state_initial))
      (Some (mk_BACNET_ADDRESS 1 [9; 9; 9; 9; 9; 9; 9] 5 3
               [1; 2; 3; 4; 5; 6; 7])) = Some d' /\
    net d' = 65535 /\
    len d' = 0 /\
    length (adr d') = 7%nat /\
    Forall (fun byte => byte = 0) (adr d') /\
    mac_len d' = 6 /\
    take 6 (mac d') = [192; 168; 1; 255] ++ [186; 192].
Proof.
  apply (bip_get_broadcast_address_form 7 65535
           (set_BIP_Broadcast_Addr (mk_in_addr [192; 168; 1; 255])
              (bip_set_port 47808 bip_state_initial))
           (mk_BACNET_ADDRESS 1 [9; 9; 9; 9; 9; 9; 9] 5 3
              [1; 2; 3; 4; 5; 6; 7])); cbn; first [lia | reflexivity].
Defined.

(** C5.  [bip_cleanup] is idempotent: a second call in succession leaves
    the variables and the open descriptors exactly as the first did.  After
    any call, whatever the state before, both sockets are [-1], neither
    earlier descriptor is open any more, and the stored IP address and
    broadcast address are zero. *)
Theorem bip_cleanup_idempotent (w : bip_state * gset Z) :
  bip_cleanup (bip_cleanup w) = bip_cleanup w /\
  BIP_Socket (bip_cleanup w).1 = -1 /\
  BIP_Broadcast_Socket (bip_cleanup w).1 = -1 /\
  (BIP_Socket w.1 <> -1 -> BIP_Socket w.1 ∉ (bip_cleanup w).2) /\
  (BIP_Broadcast_Socket w.1 <> -1 ->
     BIP_Broadcast_Socket w.1 ∉ (bip_cleanup w).2) /\
  (bip_cleanup w).2 ⊆ w.2 /\
  BIP_Address (bip_cleanup w).1 = in_addr_zero /\
  BIP_Broadcast_Addr (bip_cleanup w).1 = in_addr_zero /\
  s_addr_is_zero (BIP_Address (bip_cleanup w).1) = true /\
  s_addr_is_zero (BIP_Broadcast_Addr (bip_cleanup w).1) = true.
Proof.
  destruct w as [s fds]. unfold bip_cleanup.
  cbn [fst snd set_BIP_Socket set_BIP_Broadcast_Socket set_BIP_Address
       set_BIP_Broadcast_Addr BIP_Socket BIP_Broadcast_Socket BIP_Address
       BIP_Broadcast_Addr BIP_Port BIP_Broadcast_Binding_Address_Override
       BIP_Broadcast_Binding_Address BIP_Debug BIP_Interface_Name].
  split_and!; try done.
  - intros Hs. destruct (Z.eqb_spec (BIP_Socket s) (-1)); [done|].
    cbn [negb]. destruct (negb (BIP_Broadcast_Socket s =? -1));
      rewrite ?elem_of_difference, elem_of_singleton; tauto.
  - intros Hs. destruct (Z.eqb_spec (BIP_Broadcast_Socket s) (-1)); [done|].
    cbn [negb]. rewrite elem_of_difference, elem_of_singleton. tauto.
  - intros x. destruct (negb (BIP_Socket s =? -1)),
      (negb (BIP_Broadcast_Socket s =? -1));
      rewrite ?elem_of_difference; tauto.
Qed.

(** The two descriptors of an initialised driver are closed by one call, and
    a second call closes nothing more. *)
Example bip_cleanup_twice :
  let w := (set_BIP_Broadcast_Socket 4 (set_BIP_Socket 3 bip_state_initial),
            ({[3; 4; 7]} : gset Z)) in
  (bip_cleanup w).2 = {[7]} /\ (bip_cleanup (bip_cleanup w)).2 = {[7]}.
Proof. vm_compute. done. Qed.

(** C6.  [bip_send_mpdu] always returns to its caller.  When the driver is
    not initialised ([BIP_Socket < 0]) it returns that negative value and
    sends nothing; otherwise it returns what [sendto] returned: [-1] on a
    socket error, the number of bytes sent on success. *)
Theorem bip_send_mpdu_reports_failure
    (sendto : Z -> list Z -> Z -> sockaddr_in -> Z)
    (s : bip_state) (dest : BACNET_IP_ADDRESS) (mtu : list Z) (mtu_len : Z) :
  let bip_dest := {| sin_port := htons (port dest);
                     sin_addr := mk_in_addr (take 4 (address dest)) |} in
  let r := bip_send_mpdu sendto s dest mtu mtu_len in
  (BIP_Socket s < 0 -> r = BIP_Socket s /\ r < 0) /\
  (0 <= BIP_Socket s -> r = sendto (BIP_Socket s) mtu mtu_len bip_dest) /\
  (0 <= BIP_Socket s ->
     sendto (BIP_Socket s) mtu mtu_len bip_dest = -1 -> r = -1) /\
  (forall sent, 0 <= BIP_Socket s -> 0 <= sent ->
     sendto (BIP_Socket s) mtu mtu_len bip_dest = sent -> r = sent).
Proof.
  intros bip_dest r. subst r bip_dest. unfold bip_send_mpdu.
  destruct (Z.ltb_spec (BIP_Socket s) 0); split_and!; try done; lia.
Qed.


Lemma createSocket_fails os fds sin :
  socket_setup_fails os sin -> (createSocket os fds sin).1 < 0.
Proof.
  unfold socket_setup_fails, createSocket. intros H.
  repeat (case_match; cbn [fst]; try lia).
Qed.

Lemma createSocket_succeeds os fds sin :
  ~ socket_setup_fails os sin ->
  (createSocket os fds sin).1 = socket_ret os /\ 0 <= socket_ret os.
Proof.
  unfold socket_setup_fails, createSocket. intros H.
  repeat (case_match; cbn [fst]; try lia).
Qed.

Lemma createSocket_sign os fds sin :
  (createSocket os fds sin).1 < 0 <-> socket_setup_fails os sin.
Proof.
  split; [|apply createSocket_fails].
  intros Hneg.
  destruct (decide (socket_ret os < 0)) as [|H1]; [by left|].
  destruct (decide (setsockopt_reuseaddr_ret os < 0)) as [|H2];
    [by right; left|].
  destruct (decide (setsockopt_broadcast_ret os < 0)) as [|H3];
    [by right; right; left|].
  destruct (decide (bind_ret os sin < 0)) as [|H4];
    [by right; right; right|].
  assert (Hn : ~ socket_setup_fails os sin).
  { unfold socket_setup_fails. tauto. }
  destruct (createSocket_succeeds os fds sin Hn). lia.
Qed.

(** *** Looking up the interface *)

Lemma existsb_Forall_false {A} (f : A -> bool) (l : list A) :
  Forall (fun x => f x = false) l -> existsb f l = false.
Proof.
  induction 1 as [|x l Hx _ IH]; [done|]. cbn [existsb]. by rewrite Hx, IH.
Qed.

Lemma existsb_elem_of {A} (f : A -> bool) (l : list A) (x : A) :
  x ∈ l -> f x = true -> existsb f l = true.
Proof.
  intros Hin Hx. induction Hin as [x l|x y l _ IH]; cbn [existsb].
  - by rewrite Hx.
  - rewrite IH by done. by destruct (f y).
Qed.

Lemma bip_get_local_address_walk_cons ifa l ifname addr request :
  bip_get_local_address_walk (ifa :: l) ifname addr request =
  if ifaddrs_faults ifname request ifa then Faults
  else
    bip_get_local_address_walk l ifname
      (match ifaddrs_answer ifname request ifa with
       | Some bytes => mk_in_addr (take 4 bytes)
       | None => addr
       end) request.
Proof.
  cbn [bip_get_local_address_walk].
  unfold ifaddrs_faults, ifaddrs_answer, ifaddrs_matches, requested,
    get_addr_ptr.
  destruct (ifa_addr ifa) as [sa|]; [|done].
  destruct (sa_family sa) eqn:Hf; cbn [andb]; try done.
  destruct (String.eqb (ifa_name ifa) ifname); [|done].
  destruct request; cbn [and_then].
  - by rewrite Hf.
  - destruct (ifa_broadaddr ifa) as [sb|]; [|done].
    by destruct (sa_family sb).
  - destruct (ifa_netmask ifa) as [sm|]; [|done].
    by destruct (sa_family sm).
  - done.
Qed.

Lemma bip_get_local_address_walk_faults l ifname addr request :
  existsb (ifaddrs_faults ifname request) l = true ->
  bip_get_local_address_walk l ifname addr request = Faults.
Proof.
  revert addr. induction l as [|ifa l IH]; intros addr H; [done|].
  rewrite bip_get_local_address_walk_cons. cbn [existsb] in H.
  destruct (ifaddrs_faults ifname request ifa); [done|]. by apply IH.
Qed.

Lemma bip_get_local_address_walk_returns l ifname addr request :
  existsb (ifaddrs_faults ifname request) l = false ->
  exists addr',
    bip_get_local_address_walk l ifname addr request = Returns (0, addr').
Proof.
  revert addr. induction l as [|ifa l IH]; intros addr H; [by exists addr|].
  rewrite bip_get_local_address_walk_cons. cbn [existsb] in H.
  destruct (ifaddrs_faults ifname request ifa); [done|]. by apply IH.
Qed.

Lemma bip_get_local_address_walk_none l ifname addr request :
  existsb (ifaddrs_faults ifname request) l = false ->
  Forall (fun ifa => ifaddrs_answer ifname request ifa = None) l ->
  bip_get_local_address_walk l ifname addr request = Returns (0, addr).
Proof.
  intros H Hnone. induction Hnone as [|ifa l Hifa _ IH]; [done|].
  rewrite bip_get_local_address_walk_cons, Hifa. cbn [existsb] in H.
  destruct (ifaddrs_faults ifname request ifa); [done|]. by apply IH.
Qed.

Lemma bip_get_local_address_walk_last l1 ifa l2 bytes ifname addr request :
  existsb (ifaddrs_faults ifname request) (l1 ++ ifa :: l2) = false ->
  ifaddrs_answer ifname request ifa = Some bytes ->
  Forall (fun ifa' => ifaddrs_answer ifname request ifa' = None) l2 ->
  bip_get_local_address_walk (l1 ++ ifa :: l2) ifname addr request
  = Returns (0, mk_in_addr (take 4 bytes)).
Proof.
  intros H Hifa Hrest. revert addr H.
  induction l1 as [|ifa1 l1 IH]; intros addr H; cbn [app] in *;
    rewrite bip_get_local_address_walk_cons; cbn [existsb] in H.
  - destruct (ifaddrs_faults ifname request ifa); [done|]. rewrite Hifa.
    by apply bip_get_local_address_walk_none.
  - destruct (ifaddrs_faults ifname request ifa1); [done|]. by apply IH.
Qed.

Lemma bip_get_local_address_ioctl_walks getifaddrs l ifname addr request :
  walked_list getifaddrs = Some l ->
  bip_get_local_address_ioctl getifaddrs ifname addr request
  = bip_get_local_address_walk l ifname addr request.
Proof. destruct getifaddrs as [l'|[l'|]]; by intros [= ->]. Qed.

(** The look-up never reports an error. *)
Lemma bip_get_local_address_ioctl_rv getifaddrs ifname addr request r :
  bip_get_local_address_ioctl getifaddrs ifname addr request = Returns r ->
  r.1 = 0.
Proof.
  destruct (walked_list getifaddrs) as [l|] eqn:Hl.
  - rewrite (bip_get_local_address_ioctl_walks _ l) by done.
    destruct (existsb (ifaddrs_faults ifname request) l) eqn:Hf.
    + by rewrite bip_get_local_address_walk_faults.
    + destruct (bip_get_local_address_walk_returns l ifname addr request Hf)
        as (addr' & ->). by intros [= <-].
  - by destruct getifaddrs as [l'|[l'|]].
Qed.

(** [bip_set_interface], when it returns, has stored the two addresses that
    the look-ups handed back and nothing else. *)
Lemma bip_set_interface_returns os ifname s s' :
  bip_set_interface os ifname s = Returns s' ->
  exists a b,
    bip_get_local_address_ioctl (ifaddrs_for_address os) ifname
      (local_address_garbage os) SIOCGIFADDR = Returns (0, a) /\
    bip_get_local_address_ioctl (ifaddrs_for_broadcast os) ifname
      (broadcast_address_garbage os) SIOCGIFBRDADDR = Returns (0, b) /\
    s' = set_BIP_Broadcast_Addr b (set_BIP_Address a s).
Proof.
  unfold bip_set_interface.
  destruct (bip_get_local_address_ioctl (ifaddrs_for_address os) _ _ _)
    as [[rv1 a]|] eqn:H1; [|done].
  pose proof (bip_get_local_address_ioctl_rv _ _ _ _ _ H1) as Hrv1.
  cbn [and_then fst snd] in *. subst rv1.
  destruct (bip_get_local_address_ioctl (ifaddrs_for_broadcast os) _ _ _)
    as [[rv2 b]|] eqn:H2; [|done].
  pose proof (bip_get_local_address_ioctl_rv _ _ _ _ _ H2) as Hrv2.
  cbn [and_then fst snd] in *. subst rv2.
  change (0 <? 0) with false. cbv iota. intros [= <-]. by exists a, b.
Qed.

Lemma bip_set_interface_keeps_socket os ifname s s' :
  bip_set_interface os ifname s = Returns s' ->
  BIP_Socket s' = BIP_Socket s.
Proof.
  intros H. apply bip_set_interface_returns in H as (a & b & _ & _ & ->).
  by destruct s.
Qed.

Lemma bip_set_interface_keeps_name os ifname s s' :
  bip_set_interface os ifname s = Returns s' ->
  BIP_Interface_Name s' = BIP_Interface_Name s.
Proof.
  intros H. apply bip_set_interface_returns in H as (a & b & _ & _ & ->).
  by destruct s.
Qed.

Lemma bip_init_interface_keeps_socket IF_NAMESIZE os ifname s s1 :
  bip_init_interface IF_NAMESIZE os ifname s = Returns s1 ->
  BIP_Socket s1 = BIP_Socket s.
Proof.
  unfold bip_init_interface, ifname_default. intros H.
  destruct ifname as [name|].
  - by rewrite (bip_set_interface_keeps_socket _ _ _ _ H).
  - destruct (negb _); cbn [fst snd] in H;
      by rewrite (bip_set_interface_keeps_socket _ _ _ _ H).
Qed.

Lemma broadcast_sin_config_set_socket mode v s :
  broadcast_sin_config mode (set_BIP_Socket v s) = broadcast_sin_config mode s.
Proof. reflexivity. Qed.


(** X25.  Once the look-up of the interface has returned, [bip_init]
    returns, and it returns [false] whenever the address stored in
    [BIP_Address] is zero, whenever creating, configuring or binding the
    unicast socket fails, and whenever that of the broadcast socket (made
    when its address differs from the unicast one) fails; these are the
    only causes.  When it returns [true] both sockets are set up
    (non-negative descriptors); when it returns [false] a driver that was
    not initialised ([BIP_Socket < 0]) still is not. *)
Theorem bip_init_status
    (IF_NAMESIZE : nat) (mode : broadcast_bind)
    (bvlc_state : Type) (bvlc_init : bvlc_state -> bvlc_state)
    (os : init_answers) (ifname : option string)
    (s : bip_state) (fds : gset Z) (bv : bvlc_state) (s1 : bip_state) :
  bip_init_interface IF_NAMESIZE os ifname s = Returns s1 ->
  let sin := {| sin_port := BIP_Port s1; sin_addr := BIP_Address s1 |} in
  let bsin := broadcast_sin_config mode s1 in
  let shared := s_addr_eqb (sin_addr bsin) (BIP_Address s1) in
  let fails1 := socket_setup_fails (unicast_socket_answers os) sin in
  let fails2 := socket_setup_fails (broadcast_socket_answers os) bsin in
  exists r,
    bip_init IF_NAMESIZE mode bvlc_state bvlc_init os ifname s fds bv
    = Returns r /\
    (s_addr_is_zero (BIP_Address s1) = true -> init_status r = false) /\
    (fails1 -> init_status r = false) /\
    (shared = false -> fails2 -> init_status r = false) /\
    (init_status r = true <->
       s_addr_is_zero (BIP_Address s1) = false /\ ~ fails1 /\
       (shared = true \/ ~ fails2)) /\
    (init_status r = true ->
       0 <= BIP_Socket (init_state r) /\
       0 <= BIP_Broadcast_Socket (init_state r)) /\
    (init_status r = false -> BIP_Socket s < 0 ->
       BIP_Socket (init_state r) < 0).
Proof.
  intros Hs1 sin bsin shared fails1 fails2.
  pose proof (bip_init_interface_keeps_socket _ _ _ _ _ Hs1) as Hk.
  pose proof (createSocket_sign (unicast_socket_answers os) fds sin) as H1.
  fold fails1 in H1.
  unfold bip_init. rewrite Hs1. cbn [and_then].
  eexists. split; [reflexivity|]. fold sin.
  destruct (s_addr_is_zero (BIP_Address s1)) eqn:Hz.
  { cbn [init_status init_state]. split_and!; try done.
    - split; [done|]. by intros [? _].
    - lia. }
  set (c1 := createSocket (unicast_socket_answers os) fds sin) in *.
  destruct (Z.ltb_spec c1.1 0) as [Hc1|Hc1].
  { cbn [init_status init_state set_BIP_Socket BIP_Socket].
    split_and!; try done.
    split; [done|]. intros (_ & Hn & _). tauto. }
  assert (Hn1 : ~ fails1) by (intros Hf; apply H1 in Hf; lia).
  rewrite broadcast_sin_config_set_socket. fold bsin.
  change (BIP_Address (set_BIP_Socket c1.1 s1)) with (BIP_Address s1).
  fold shared.
  destruct shared eqn:Hsh.
  { cbn [init_status init_state set_BIP_Socket set_BIP_Broadcast_Socket
         BIP_Socket BIP_Broadcast_Socket].
    split_and!; try done. split; [|done]. intros _. tauto. }
  set (c2 := createSocket (broadcast_socket_answers os) c1.2 bsin) in *.
  pose proof (createSocket_sign (broadcast_socket_answers os) c1.2 bsin) as H2.
  fold fails2 c2 in H2.
  destruct (Z.ltb_spec c2.1 0) as [Hc2|Hc2].
  { assert (Hf2 : fails2) by (by apply H2).
    cbn [init_status init_state].
    split_and!; try done.
    split; [done|]. intros (_ & _ & [|Hn]); [done|tauto]. }
  assert (Hn2 : ~ fails2) by (intros Hf; apply H2 in Hf; lia).
  cbn [init_status init_state set_BIP_Socket set_BIP_Broadcast_Socket
       BIP_Socket BIP_Broadcast_Socket].
  split_and!; try done. split; [|done]. intros _. tauto.
Qed.

Lemma bip_init_status_witness :
  let os := sample_answers [sample_en0] (sample_sockets 3 0)
              (sample_sockets 4 0) in
  exists s1,
    bip_init_interface 16 os None bip_state_initial = Returns s1 /\
    let sin := {| sin_port := BIP_Port s1; sin_addr := BIP_Address s1 |} in
    let bsin := broadcast_sin_config USE_BROADCAST_ADDR s1 in
    let shared := s_addr_eqb (sin_addr bsin) (BIP_Address s1) in
    let fails1 := socket_setup_fails (unicast_socket_answers os) sin in
    let fails2 := socket_setup_fails (broadcast_socket_answers os) bsin in
    exists r,
      bip_init 16 USE_BROADCAST_ADDR unit id os None bip_state_initial ∅ tt
      = Returns r /\
      (s_addr_is_zero (BIP_Address s1) = true -> init_status r = false) /\
      (fails1 -> init_status r = false) /\
      (shared = false -> fails2 -> init_status r = false) /\
      (init_status r = true <->
         s_addr_is_zero (BIP_Address s1) = false /\ ~ fails1 /\
         (shared = true \/ ~ fails2)) /\
      (init_status r = true ->
         0 <= BIP_Socket (init_state r) /\
         0 <= BIP_Broadcast_Socket (init_state r)) /\
      (init_status r = false -> BIP_Socket bip_state_initial < 0 ->
         BIP_Socket (init_state r) < 0).
Proof.
  eexists. split; [reflexivity|].
  eapply (bip_init_status 16 USE_BROADCAST_ADDR unit id
            (sample_answers [sample_en0] (sample_sockets 3 0)
               (sample_sockets 4 0))
            None bip_state_initial ∅ tt).
  reflexivity.
Defined.


(** *** [bip_receive] *)

Section Receive.
Variable BVLL_TYPE_BACNET_IP : Z.
Variable bvlc_state : Type.
Variables bvlc_handler bvlc_broadcast_handler :
  bvlc_state -> BACNET_IP_ADDRESS -> BACNET_ADDRESS -> list Z -> Z ->
  handled bvlc_state.

Local Abbreviation receive :=
  (bip_receive BVLL_TYPE_BACNET_IP bvlc_state bvlc_handler
     bvlc_broadcast_handler).

Lemma byte_at_store_first npdu first rest :
  (0 < length npdu)%nat ->
  byte_at (store_bytes npdu 0 (first :: rest)) 0 = first.
Proof.
  intros Hlen. unfold byte_at. cbn [store_bytes].
  rewrite store_bytes_lookup_lt by lia.
  by rewrite list_lookup_insert_eq.
Qed.

Lemma to_uint16_range x : 0 <= to_uint16 x < 65536.
Proof. unfold to_uint16. apply Z.mod_pos_bound. lia. Qed.

(** A datagram that does not start with the signature never reaches a
    BVLC handler. *)
Lemma receive_bad_signature s bv os_select os_recvfrom src npdu max_npdu
    timeout first rest from :
  os_recvfrom (read_socket s (os_select (select_timeout timeout))) =
    recvfrom_datagram (first :: rest) from ->
  first <> BVLL_TYPE_BACNET_IP ->
  (Z.to_nat max_npdu <= length npdu)%nat ->
  let r := receive s bv os_select os_recvfrom src npdu max_npdu timeout in
  npdu_len r = 0 /\ handler_offset r = None /\
  src_out r = src /\ bvlc_out r = bv.
Proof.
  intros Hrecv Hfirst Hbuf r. subst r. unfold bip_receive.
  destruct (BIP_Socket s <? 0); [done|].
  destruct (0 <? select_ret (os_select (select_timeout timeout))); [|done].
  unfold read_socket in Hrecv. rewrite Hrecv.
  destruct (Z.to_nat max_npdu) as [|n] eqn:Hn; [done|].
  cbn [take length].
  destruct (Z.eqb_spec (Z.of_nat (S (length (take n rest)))) 0); [done|].
  rewrite byte_at_store_first by lia.
  destruct (Z.eqb_spec first BVLL_TYPE_BACNET_IP); done.
Qed.

(** A datagram that a BVLC handler rejects yields no NPDU. *)
Lemma receive_rejected s bv os_select os_recvfrom src npdu max_npdu
    timeout o :
  let r := receive s bv os_select os_recvfrom src npdu max_npdu timeout in
  handler_offset r = Some o -> o <= 0 -> npdu_len r = 0.
Proof.
  intros r. subst r. unfold bip_receive.
  repeat (case_match; cbn [handler_offset npdu_len]; try done).
  all: intros [= <-] Ho; lia.
Qed.

(** C3.  Malformed frames are silently dropped.  For every received UDP
    datagram whose first byte is not [BVLL_TYPE_BACNET_IP], [bip_receive]
    returns 0 without passing it to a BVLC handler ([*src] and the BBMD
    are untouched); and for every datagram that the BVLC handler rejects
    (it returns an offset [<= 0]) [bip_receive] returns 0 as well.  A
    length of 0 is what tells the caller that there is no NPDU. *)
Theorem bip_receive_drops_malformed
    (s : bip_state) (bv : bvlc_state)
    (os_select : Z * Z -> select_answer) (os_recvfrom : Z -> recvfrom_answer)
    (src : BACNET_ADDRESS) (npdu : list Z) (max_npdu timeout : Z) :
  let r := receive s bv os_select os_recvfrom src npdu max_npdu timeout in
  (forall first rest from,
     os_recvfrom (read_socket s (os_select (select_timeout timeout))) =
       recvfrom_datagram (first :: rest) from ->
     first <> BVLL_TYPE_BACNET_IP ->
     (Z.to_nat max_npdu <= length npdu)%nat ->
     npdu_len r = 0 /\ handler_offset r = None /\
     src_out r = src /\ bvlc_out r = bv) /\
  (forall o, handler_offset r = Some o -> o <= 0 -> npdu_len r = 0) /\
  (handler_offset r = None -> npdu_len r = 0).
Proof.
  intros r. split_and!.
  - intros first rest from Hrecv Hfirst Hbuf.
    by apply (receive_bad_signature s bv os_select os_recvfrom src npdu
                max_npdu timeout first rest from).
  - apply receive_rejected.
  - subst r. unfold bip_receive.
    repeat (case_match; cbn [handler_offset npdu_len]; try done).
Qed.

(** C9.  [bip_receive] never reports more bytes than fit in the caller's
    buffer: the returned length is at most [max_npdu].  When the length of
    the NPDU left after the BVLC header (as the function computes it, in a
    [uint16_t]) exceeds [max_npdu], the frame is dropped and 0 returned;
    0 is also returned when the socket is not open, when [select] reports
    nothing (time-out), and when [recvfrom] fails. *)
Theorem bip_receive_fits_buffer
    (s : bip_state) (bv : bvlc_state)
    (os_select : Z * Z -> select_answer) (os_recvfrom : Z -> recvfrom_answer)
    (src : BACNET_ADDRESS) (npdu : list Z) (max_npdu timeout : Z) :
  0 <= max_npdu ->
  let r := receive s bv os_select os_recvfrom src npdu max_npdu timeout in
  let sel := os_select (select_timeout timeout) in
  0 <= npdu_len r <= max_npdu /\
  (forall payload from o,
     os_recvfrom (read_socket s sel) = recvfrom_datagram payload from ->
     handler_offset r = Some o ->
     max_npdu <
       to_uint16 (Z.of_nat (length (take (Z.to_nat max_npdu) payload)) - o) ->
     npdu_len r = 0) /\
  (BIP_Socket s < 0 -> npdu_len r = 0) /\
  (select_ret sel <= 0 -> npdu_len r = 0) /\
  (os_recvfrom (read_socket s sel) = recvfrom_error -> npdu_len r = 0).
Proof.
  intros Hmax r sel. subst r sel. unfold bip_receive, read_socket.
  destruct (Z.ltb_spec (BIP_Socket s) 0) as [Hs|Hs].
  { cbn [npdu_len handler_offset]. split_and!; try done; lia. }
  destruct (Z.ltb_spec 0 (select_ret (os_select (select_timeout timeout))))
    as [Hsel|Hsel].
  2:{ cbn [npdu_len handler_offset]. split_and!; try done; lia. }
  destruct (os_recvfrom _) as [|payload from] eqn:Hrecv.
  { cbn [npdu_len handler_offset]. split_and!; try done; lia. }
  set (received_bytes :=
         Z.of_nat (length (take (Z.to_nat max_npdu) payload))).
  destruct (received_bytes =? 0).
  { cbn [npdu_len handler_offset]. split_and!; try done; lia. }
  destruct (negb _).
  { cbn [npdu_len handler_offset]. split_and!; try done; lia. }
  match goal with
  | |- context [offset ?x] => set (h := x)
  end.
  destruct (Z.ltb_spec 0 (offset h)) as [Ho|Ho].
  2:{ cbn [npdu_len handler_offset]. split_and!; try done; lia. }
  pose proof (to_uint16_range (received_bytes - offset h)).
  destruct (Z.leb_spec (to_uint16 (received_bytes - offset h)) max_npdu)
    as [Hfit|Hfit].
  - cbn [npdu_len handler_offset]. split_and!; try done; try lia.
    intros payload' from' o [= <- <-] [= <-]. fold received_bytes. lia.
  - cbn [npdu_len handler_offset]. split_and!; try done; lia.
Qed.

End Receive.

(** *** Checks on concrete calls *)

(** A well-formed original-unicast frame: the four-byte BVLC header is
    stripped and the two bytes of NPDU are moved to the front. *)
Example bip_receive_delivers :
  let r := bip_receive 129 unit (handler_answering 4) (handler_answering 4)
             sample_open tt (fun _ => mk_select_answer 1 true)
             (fun _ => recvfrom_datagram [129; 10; 0; 6; 1; 2] sample_sender)
             sample_address (replicate 16 7) 16 100 in
  npdu_len r = 2 /\ take 2 (npdu_out r) = [1; 2] /\
  handler_offset r = Some 4.
Proof. vm_compute. done. Qed.

Lemma bip_receive_drops_malformed_witness :
  npdu_len (bip_receive 129 unit (handler_answering 4) (handler_answering 4)
              sample_open tt (fun _ => mk_select_answer 1 true)
              (fun _ => recvfrom_datagram [0; 10; 0; 6; 1; 2] sample_sender)
              sample_address (replicate 16 7) 16 100) = 0 /\
  npdu_len (bip_receive 129 unit (handler_answering 0) (handler_answering 0)
              sample_open tt (fun _ => mk_select_answer 1 true)
              (fun _ => recvfrom_datagram [129; 10; 0; 9; 1; 2] sample_sender)
              sample_address (replicate 16 7) 16 100) = 0.
Proof.
  split.
  - apply (proj1 (bip_receive_drops_malformed 129 unit
                    (handler_answering 4) (handler_answering 4)
                    sample_open tt (fun _ => mk_select_answer 1 true)
                    (fun _ => recvfrom_datagram [0; 10; 0; 6; 1; 2]
                                sample_sender)
                    sample_address (replicate 16 7) 16 100)
             0 [10; 0; 6; 1; 2] sample_sender).
    + reflexivity.
    + discriminate.
    + vm_compute. lia.
  - apply (proj1 (proj2 (bip_receive_drops_malformed 129 unit
                    (handler_answering 0) (handler_answering 0)
                    sample_open tt (fun _ => mk_select_answer 1 true)
                    (fun _ => recvfrom_datagram [129; 10; 0; 9; 1; 2]
                                sample_sender)
                    sample_address (replicate 16 7) 16 100)) 0).
    + reflexivity.
    + lia.
Defined.

Lemma bip_receive_fits_buffer_witness :
  let r := bip_receive 129 unit (handler_answering 10) (handler_answering 10)
             sample_open tt (fun _ => mk_select_answer 1 true)
             (fun _ => recvfrom_datagram [129; 10; 0; 6; 1; 2] sample_sender)
             sample_address (replicate 16 7) 16 100 in
  0 <= npdu_len r <= 16 /\
  handler_offset r = Some 10 /\
  to_uint16 (6 - 10) = 65532 /\
  npdu_len r = 0.
Proof.
  destruct (bip_receive_fits_buffer 129 unit
              (handler_answering 10) (handler_answering 10)
              sample_open tt (fun _ => mk_select_answer 1 true)
              (fun _ => recvfrom_datagram [129; 10; 0; 6; 1; 2] sample_sender)
              sample_address (replicate 16 7) 16 100) as (Hfit & Hdrop & _).
  - lia.
  - split; [exact Hfit|]. split; [reflexivity|]. split; [reflexivity|].
    apply (Hdrop [129; 10; 0; 6; 1; 2] sample_sender 10).
    + reflexivity.
    + reflexivity.
    + vm_compute. reflexivity.
Defined.

(** [bip_send_mpdu] before initialisation, on a socket error, and on
    success. *)
Example bip_send_mpdu_cases :
  let dest := mk_BACNET_IP_ADDRESS [192; 168; 1; 30] 47808 in
  bip_send_mpdu (fun _ _ n _ => n) bip_state_initial dest [129; 10; 0; 4] 4
    = -1 /\
  bip_send_mpdu (fun _ _ _ _ => -1) sample_open dest [129; 10; 0; 4] 4 = -1 /\
  bip_send_mpdu (fun _ _ n _ => n) sample_open dest [129; 10; 0; 4] 4 = 4.
Proof. split_and!; reflexivity. Qed.

Example bip_init_succeeds :
  exists r,
    bip_init 16 USE_BROADCAST_ADDR unit id
      (sample_answers [sample_en0] (sample_sockets 3 0) (sample_sockets 4 0))
      None bip_state_initial ∅ tt = Returns r /\
    init_status r = true /\
    BIP_Socket (init_state r) = 3 /\ BIP_Broadcast_Socket (init_state r) = 4 /\
    BIP_Address (init_state r) = mk_in_addr [192; 168; 1; 20] /\
    init_fds r = {[3; 4]}.
Proof. eexists. split; [vm_compute; reflexivity|]. by vm_compute. Qed.

Example bip_init_without_address :
  exists r,
    bip_init 16 USE_BROADCAST_ADDR unit id
      (sample_answers [] (sample_sockets 3 0) (sample_sockets 4 0))
      (Some "eth7"%string) bip_state_initial ∅ tt = Returns r /\
    init_status r = false /\ BIP_Socket (init_state r) = -1 /\
    init_fds r = ∅.
Proof. eexists. split; [vm_compute; reflexivity|]. by vm_compute. Qed.

Example bip_init_broadcast_bind_fails :
  exists r,
    bip_init 16 USE_BROADCAST_ADDR unit id
      (sample_answers [sample_en0] (sample_sockets 3 0)
         (sample_sockets 4 (-1)))
      None bip_state_initial ∅ tt = Returns r /\
    init_status r = false /\
    BIP_Socket (init_state r) = -1 /\
    BIP_Broadcast_Socket (init_state r) = -1 /\
    init_fds r = ∅.
Proof. eexists. split; [vm_compute; reflexivity|]. by vm_compute. Qed.

(** *** Ports, time-outs and the shift of the NPDU *)

(** X2.  The UDP port round-trips: for every port below 65536,
    [bip_get_port] after [bip_set_port] gives the port back; it is stored
    as its two bytes, high byte first. *)
Theorem bip_port_round_trip (port : Z) (s : bip_state) :
  0 <= port < 65536 ->
  bip_get_port (bip_set_port port s) = port /\
  BIP_Port (bip_set_port port s) = [port / 256; port mod 256].
Proof.
  intros Hp. unfold bip_get_port, bip_set_port, ntohs, htons, byte_at.
  cbn. assert (Hhi : (port / 256) mod 256 = port / 256).
  { apply Z.mod_small. split; [apply Z.div_pos; lia|].
    apply Z.div_lt_upper_bound; lia. }
  rewrite Hhi. split; [|done].
  unfold id. pose proof (Z.div_mod port 256). lia.
Qed.

Lemma bip_port_round_trip_witness :
  bip_get_port (bip_set_port 47808 bip_state_initial) = 47808 /\
  BIP_Port (bip_set_port 47808 bip_state_initial)
  = [47808 / 256; 47808 mod 256].
Proof. apply (bip_port_round_trip 47808 bip_state_initial). lia. Defined.

(** X3.  The [struct timeval] that [bip_receive] hands to [select] is the
    time-out in milliseconds, exactly, with a microsecond part below one
    second. *)
Theorem select_timeout_exact (timeout : Z) :
  0 <= timeout ->
  let tv := select_timeout timeout in
  0 <= tv.1 /\ 0 <= tv.2 < 1000000 /\
  tv.1 * 1000000 + tv.2 = timeout * 1000.
Proof.
  intros Ht tv. subst tv. unfold select_timeout.
  destruct (Z.leb_spec 1000 timeout); cbn [fst snd]; [|lia].
  pose proof (Z.div_mod timeout 1000).
  pose proof (Z.mod_pos_bound timeout 1000).
  assert (0 <= timeout / 1000) by (apply Z.div_pos; lia).
  lia.
Qed.

Lemma select_timeout_exact_witness :
  let tv := select_timeout 2500 in
  0 <= tv.1 /\ 0 <= tv.2 < 1000000 /\ tv.1 * 1000000 + tv.2 = 2500 * 1000.
Proof. apply (select_timeout_exact 2500). lia. Defined.

(** The state of the buffer after [k] rounds of the shifting loop. *)
Lemma shift_npdu_rounds npdu off (k : nat) :
  0 < off ->
  let r := foldl (fun buf (i : nat) =>
                    <[i := byte_at buf (Z.to_nat (off + Z.of_nat i))]> buf)
                 npdu (seq 0 k) in
  length r = length npdu /\
  forall i : nat,
    r !! i = if decide (i < k /\ i < length npdu)%nat
             then Some (byte_at npdu (Z.to_nat (off + Z.of_nat i)))
             else npdu !! i.
Proof.
  intros Hoff. induction k as [|k IH]; intros r; subst r.
  - cbn. split; [done|]. intros i. case_decide; [lia|done].
  - rewrite seq_S, foldl_app. cbn [foldl Nat.add].
    destruct IH as [IHlen IHget]. set (r := foldl _ npdu (seq 0 k)) in *.
    split; [by rewrite length_insert|].
    intros i. destruct (decide (i = k)) as [->|Hne].
    + case_decide as Hk.
      * rewrite list_lookup_insert_eq by lia. f_equal.
        unfold byte_at. rewrite IHget. case_decide; [lia|done].
      * rewrite list_insert_ge by lia. rewrite IHget.
        case_decide; [lia|done].
    + rewrite list_lookup_insert_ne by done. rewrite IHget.
      repeat case_decide; try done; lia.
Qed.

(** X4.  The loop that strips the BVLC header moves the [n] bytes that
    start at [off] to the front of the buffer, keeping their order; the
    buffer keeps its length and the bytes from [n] on keep their value. *)
Theorem shift_npdu_moves (npdu : list Z) (off n : Z) :
  0 < off -> 0 <= n ->
  off + n <= Z.of_nat (length npdu) ->
  take (Z.to_nat n) (shift_npdu npdu off n)
    = take (Z.to_nat n) (drop (Z.to_nat off) npdu) /\
  drop (Z.to_nat n) (shift_npdu npdu off n) = drop (Z.to_nat n) npdu /\
  length (shift_npdu npdu off n) = length npdu.
Proof.
  intros Hoff Hn Hlen. unfold shift_npdu.
  destruct (shift_npdu_rounds npdu off (Z.to_nat n) Hoff) as [Hl Hget].
  set (r := foldl _ npdu (seq 0 (Z.to_nat n))) in *.
  split_and!; [| |done].
  - apply list_eq. intros i.
    destruct (decide (i < Z.to_nat n)%nat) as [Hi|Hi].
    + rewrite !lookup_take_lt, lookup_drop, Hget by done.
      case_decide; [|lia].
      unfold byte_at.
      replace (Z.to_nat (off + Z.of_nat i)) with (Z.to_nat off + i)%nat
        by lia.
      destruct (lookup_lt_is_Some_2 npdu (Z.to_nat off + i)) as [x Hx];
        [lia|]. by rewrite Hx.
    + by rewrite !lookup_take_ge by lia.
  - apply list_eq. intros i. rewrite !lookup_drop, Hget.
    case_decide; [lia|done].
Qed.

Lemma shift_npdu_moves_witness :
  take 2 (shift_npdu [129; 10; 0; 6; 1; 2; 0; 0] 4 2)
    = take 2 (drop 4 [129; 10; 0; 6; 1; 2; 0; 0]) /\
  drop 2 (shift_npdu [129; 10; 0; 6; 1; 2; 0; 0] 4 2)
    = drop 2 [129; 10; 0; 6; 1; 2; 0; 0] /\
  length (shift_npdu [129; 10; 0; 6; 1; 2; 0; 0] 4 2) = 8%nat.
Proof.
  apply (shift_npdu_moves [129; 10; 0; 6; 1; 2; 0; 0] 4 2); cbn; lia.
Defined.

(** *** What [bip_receive] delivers *)

Lemma take_store_bytes_front dst src :
  (length src <= length dst)%nat ->
  take (length src) (store_bytes dst 0 src) = src.
Proof.
  intros Hlen. apply list_eq. intros i.
  destruct (decide (i < length src)%nat) as [Hi|Hi].
  - rewrite lookup_take_lt by done.
    apply (store_bytes_lookup_in dst 0 src i); lia.
  - rewrite lookup_take_ge by lia. symmetry. apply lookup_ge_None. lia.
Qed.

Lemma take_store_bytes_behind dst off src (k : nat) :
  (k <= off)%nat -> take k (store_bytes dst off src) = take k dst.
Proof.
  intros Hk. apply list_eq. intros i.
  destruct (decide (i < k)%nat) as [Hi|Hi].
  - rewrite !lookup_take_lt by done. apply store_bytes_lookup_lt. lia.
  - by rewrite !lookup_take_ge by lia.
Qed.

Section Delivery.
Variable BVLL_TYPE_BACNET_IP : Z.
Variable bvlc_state : Type.
Variables bvlc_handler bvlc_broadcast_handler :
  bvlc_state -> BACNET_IP_ADDRESS -> BACNET_ADDRESS -> list Z -> Z ->
  handled bvlc_state.

(** X5.  [bip_receive] delivers.  The socket is open, [select] reports a
    packet, [recvfrom] yields a datagram that starts with the BACnet/IP
    signature, and the BVLC handler of the socket read, given the sender,
    the buffer holding the datagram and its length, answers an offset
    inside the datagram and leaves the buffer alone.  Then [bip_receive]
    returns the number of bytes that follow the offset, the buffer starts
    with exactly those bytes of the datagram, in order, and [*src] and the
    BBMD are as the handler left them. *)
Theorem bip_receive_delivers_npdu
    (s : bip_state) (bv : bvlc_state)
    (os_select : Z * Z -> select_answer) (os_recvfrom : Z -> recvfrom_answer)
    (src : BACNET_ADDRESS) (npdu : list Z) (max_npdu timeout : Z)
    (payload : list Z) (from : sockaddr_in) :
  0 <= BIP_Socket s ->
  0 < select_ret (os_select (select_timeout timeout)) ->
  os_recvfrom (read_socket s (os_select (select_timeout timeout))) =
    recvfrom_datagram payload from ->
  max_npdu < 65536 ->
  (Z.to_nat max_npdu <= length npdu)%nat ->
  let stored := take (Z.to_nat max_npdu) payload in
  stored !! 0%nat = Some BVLL_TYPE_BACNET_IP ->
  let h :=
    (if read_socket s (os_select (select_timeout timeout)) =? BIP_Socket s
     then bvlc_handler else bvlc_broadcast_handler)
      bv (sender_address from) src (datagram_buffer npdu max_npdu payload)
      (Z.of_nat (length stored)) in
  0 < offset h <= Z.of_nat (length stored) ->
  handled_npdu h = datagram_buffer npdu max_npdu payload ->
  let r := bip_receive BVLL_TYPE_BACNET_IP bvlc_state bvlc_handler
             bvlc_broadcast_handler s bv os_select os_recvfrom src npdu
             max_npdu timeout in
  handler_offset r = Some (offset h) /\
  npdu_len r = Z.of_nat (length stored) - offset h /\
  take (Z.to_nat (npdu_len r)) (npdu_out r)
  = drop (Z.to_nat (offset h)) stored /\
  src_out r = handled_src h /\ bvlc_out r = handled_bvlc h.
Proof.
  intros Hopen Hsel Hrecv Hmax Hbuf stored Hsig h Ho Hkeep r.
  assert (Hstored : (length stored <= Z.to_nat max_npdu)%nat).
  { unfold stored. rewrite length_take. lia. }
  assert (Hst : exists rest, stored = BVLL_TYPE_BACNET_IP :: rest).
  { destruct stored as [|first rest]; [done|].
    injection Hsig as ->. by exists rest. }
  destruct Hst as [rest Hst].
  assert (Hpos : (0 < length stored)%nat) by (rewrite Hst; cbn; lia).
  set (npdu2 := datagram_buffer npdu max_npdu payload) in *.
  assert (Hlen2 : length npdu2 = length npdu).
  { unfold npdu2, datagram_buffer, zero_bytes. fold stored.
    destruct (0 <? max_npdu - Z.of_nat (length stored));
      by rewrite !store_bytes_length. }
  assert (Hfront : take (length stored) npdu2 = stored).
  { unfold npdu2, datagram_buffer, zero_bytes. fold stored.
    destruct (0 <? max_npdu - Z.of_nat (length stored)).
    - rewrite take_store_bytes_behind by lia.
      apply take_store_bytes_front. lia.
    - apply take_store_bytes_front. lia. }
  assert (Hn : to_uint16 (Z.of_nat (length stored) - offset h)
               = Z.of_nat (length stored) - offset h).
  { unfold to_uint16. apply Z.mod_small. lia. }
  assert (Hr : r = mk_received (Z.of_nat (length stored) - offset h)
                     (handled_src h)
                     (shift_npdu npdu2 (offset h)
                        (Z.of_nat (length stored) - offset h))
                     (handled_bvlc h) (Some (offset h))).
  { subst r. unfold bip_receive. unfold read_socket in Hrecv, h.
    destruct (Z.ltb_spec (BIP_Socket s) 0) as [|_]; [lia|].
    destruct (Z.ltb_spec 0 (select_ret (os_select (select_timeout timeout))))
      as [_|]; [|lia].
    rewrite Hrecv. fold stored.
    destruct (Z.eqb_spec (Z.of_nat (length stored)) 0) as [|_]; [lia|].
    rewrite Hst at 1. rewrite byte_at_store_first by lia.
    rewrite Z.eqb_refl. cbn [negb].
    change (if 0 <? max_npdu - Z.of_nat (length stored) then _ else _)
      with npdu2.
    match goal with
    | |- context [offset ?x] =>
        replace x with h
          by (unfold h, sender_address; by destruct (_ =? BIP_Socket s))
    end.
    destruct (Z.ltb_spec 0 (offset h)) as [_|]; [|lia].
    rewrite Hn.
    destruct (Z.leb_spec (Z.of_nat (length stored) - offset h) max_npdu)
      as [_|]; [|lia].
    by rewrite Hkeep. }
  rewrite Hr. cbn [handler_offset npdu_len npdu_out src_out bvlc_out].
  split_and!; try done.
  destruct (shift_npdu_moves npdu2 (offset h)
              (Z.of_nat (length stored) - offset h))
    as (Hmove & _); [lia|lia|lia|].
  rewrite Hmove, take_drop_commute.
  replace (Z.to_nat (offset h)
           + Z.to_nat (Z.of_nat (length stored) - offset h))%nat
    with (length stored) by lia.
  by rewrite Hfront.
Qed.

End Delivery.

Lemma bip_receive_delivers_npdu_witness :
  let r := bip_receive 129 unit (handler_answering 4) (handler_answering 4)
             sample_open tt (fun _ => mk_select_answer 1 true)
             (fun _ => recvfrom_datagram [129; 10; 0; 7; 1; 2; 3]
                         sample_sender)
             sample_address (replicate 16 7) 16 100 in
  handler_offset r = Some 4 /\
  npdu_len r = 7 - 4 /\
  take (Z.to_nat (npdu_len r)) (npdu_out r) = [1; 2; 3] /\
  src_out r = sample_address /\ bvlc_out r = tt.
Proof.
  apply (bip_receive_delivers_npdu 129 unit
           (handler_answering 4) (handler_answering 4)
           sample_open tt (fun _ => mk_select_answer 1 true)
           (fun _ => recvfrom_datagram [129; 10; 0; 7; 1; 2; 3] sample_sender)
           sample_address (replicate 16 7) 16 100
           [129; 10; 0; 7; 1; 2; 3] sample_sender).
  - vm_compute. discriminate.
  - reflexivity.
  - reflexivity.
  - lia.
  - vm_compute. lia.
  - reflexivity.
  - vm_compute. split; [reflexivity|discriminate].
  - reflexivity.
Defined.

(** *** Descriptors *)

(** X6.  [createSocket], given a descriptor by [socket] that was not open
    before: when it fails (negative result) no descriptor is left open
    that was not open before; when it succeeds it returns that descriptor,
    now open besides the earlier ones. *)
Theorem createSocket_descriptors
    (os : socket_answers) (fds : gset Z) (sin : sockaddr_in) :
  socket_ret os ∉ fds ->
  let r := createSocket os fds sin in
  (r.1 < 0 -> r.2 = fds) /\
  (0 <= r.1 -> r.1 = socket_ret os /\ r.2 = {[socket_ret os]} ∪ fds).
Proof.
  intros Hfresh r. subst r. unfold createSocket.
  assert (Hclose : ({[socket_ret os]} ∪ fds) ∖ {[socket_ret os]} = fds).
  { apply set_eq. intros x.
    rewrite elem_of_difference, elem_of_union, elem_of_singleton.
    split; [tauto|]. intros Hx. split; [tauto|]. by intros ->. }
  repeat (case_match; cbn [fst snd]); rewrite ?Hclose;
    repeat match goal with H : (_ <? _) = _ |- _ =>
      first [apply Z.ltb_lt in H | apply Z.ltb_ge in H] end;
    split; intros; try done; lia.
Qed.

Lemma createSocket_descriptors_witness :
  let r := createSocket (sample_sockets 5 (-1)) {[3; 4]}
             (mk_sockaddr_in [186; 192] (mk_in_addr [192; 168; 1; 20])) in
  (r.1 < 0 -> r.2 = {[3; 4]}) /\
  (0 <= r.1 -> r.1 = 5 /\ r.2 = {[5]} ∪ {[3; 4]}).
Proof.
  apply (createSocket_descriptors (sample_sockets 5 (-1)) {[3; 4]}
           (mk_sockaddr_in [186; 192] (mk_in_addr [192; 168; 1; 20]))).
  unfold sample_sockets. cbn [socket_ret].
  rewrite elem_of_union, !elem_of_singleton. lia.
Defined.

Lemma close_opened (fd : Z) (fds : gset Z) :
  fd ∉ fds -> ({[fd]} ∪ fds) ∖ {[fd]} = fds.
Proof.
  intros Hfresh. apply set_eq. intros x.
  rewrite elem_of_difference, elem_of_union, elem_of_singleton.
  split; [tauto|]. intros Hx. split; [tauto|]. by intros ->.
Qed.

Lemma close_not_open (fd : Z) (fds : gset Z) : fd ∉ fds -> fds ∖ {[fd]} = fds.
Proof.
  intros Hfresh. apply set_eq. intros x.
  rewrite elem_of_difference, elem_of_singleton.
  split; [tauto|]. intros Hx. split; [done|]. by intros ->.
Qed.

(** The open descriptors after [bip_init], when [socket] hands out
    descriptors that are not open yet. *)
Lemma bip_init_fds
    (IF_NAMESIZE : nat) (mode : broadcast_bind)
    (bvlc_state : Type) (bvlc_init : bvlc_state -> bvlc_state)
    (os : init_answers) (ifname : option string)
    (s : bip_state) (fds : gset Z) (bv : bvlc_state)
    (r : initialised bvlc_state) :
  (forall fd, fd ∈ fds -> 0 <= fd) ->
  socket_ret (unicast_socket_answers os) ∉ fds ->
  socket_ret (broadcast_socket_answers os) ∉ fds ->
  socket_ret (broadcast_socket_answers os)
    <> socket_ret (unicast_socket_answers os) ->
  bip_init IF_NAMESIZE mode bvlc_state bvlc_init os ifname s fds bv
  = Returns r ->
  if init_status r then
    0 <= BIP_Socket (init_state r) /\
    0 <= BIP_Broadcast_Socket (init_state r) /\
    (BIP_Socket (init_state r) ∉ fds) /\
    (BIP_Broadcast_Socket (init_state r) ∉ fds) /\
    init_fds r = {[BIP_Broadcast_Socket (init_state r)]}
                 ∪ ({[BIP_Socket (init_state r)]} ∪ fds)
  else init_fds r = fds.
Proof.
  intros Hnn Hf1 Hf2 Hne. unfold bip_init.
  destruct (bip_init_interface IF_NAMESIZE os ifname s) as [s1|]; [|done].
  cbn [and_then]. intros [= <-].
  destruct (s_addr_is_zero (BIP_Address s1)); [done|].
  set (sin := {| sin_port := BIP_Port s1; sin_addr := BIP_Address s1 |}).
  destruct (createSocket_descriptors (unicast_socket_answers os) fds sin Hf1)
    as [Hc1f Hc1s].
  set (c1 := createSocket (unicast_socket_answers os) fds sin) in *.
  destruct (Z.ltb_spec c1.1 0) as [Hc1|Hc1].
  { cbn [init_status init_fds]. by apply Hc1f. }
  destruct (Hc1s Hc1) as [Hfd1 Hfds1].
  destruct (s_addr_eqb _ _).
  { cbn [init_status init_state init_fds set_BIP_Socket
         set_BIP_Broadcast_Socket BIP_Socket BIP_Broadcast_Socket].
    rewrite Hfds1, Hfd1. split_and!; try done; try lia.
    apply set_eq. intros x. rewrite !elem_of_union. tauto. }
  set (bsin := broadcast_sin_config mode (set_BIP_Socket c1.1 s1)).
  assert (Hf2' : socket_ret (broadcast_socket_answers os) ∉ c1.2).
  { rewrite Hfds1, elem_of_union, elem_of_singleton. tauto. }
  destruct (createSocket_descriptors (broadcast_socket_answers os) c1.2 bsin
              Hf2') as [Hc2f Hc2s].
  set (c2 := createSocket (broadcast_socket_answers os) c1.2 bsin) in *.
  destruct (Z.ltb_spec c2.1 0) as [Hc2|Hc2].
  - cbn [init_status init_fds]. rewrite (Hc2f Hc2), Hfds1.
    unfold bip_cleanup.
    cbn [fst snd set_BIP_Socket set_BIP_Broadcast_Socket BIP_Socket
         BIP_Broadcast_Socket].
    destruct (Z.eqb_spec c1.1 (-1)); [lia|]. cbn [negb].
    rewrite <- Hfd1, close_opened by (by rewrite Hfd1).
    destruct (negb _); [|done].
    apply close_not_open. intros Hin. apply Hnn in Hin. lia.
  - destruct (Hc2s Hc2) as [Hfd2 Hfds2].
    cbn [init_status init_state init_fds set_BIP_Socket
         set_BIP_Broadcast_Socket BIP_Socket BIP_Broadcast_Socket].
    rewrite Hfds2, Hfds1, Hfd2, Hfd1. split_and!; try done; lia.
Qed.

(** X7.  A failed [bip_init] leaks no descriptor: when it returns [false],
    exactly the descriptors that were open before the call are open after
    it, whichever step failed. *)
Theorem bip_init_failure_leaks_nothing
    (IF_NAMESIZE : nat) (mode : broadcast_bind)
    (bvlc_state : Type) (bvlc_init : bvlc_state -> bvlc_state)
    (os : init_answers) (ifname : option string)
    (s : bip_state) (fds : gset Z) (bv : bvlc_state)
    (r : initialised bvlc_state) :
  (forall fd, fd ∈ fds -> 0 <= fd) ->
  socket_ret (unicast_socket_answers os) ∉ fds ->
  socket_ret (broadcast_socket_answers os) ∉ fds ->
  socket_ret (broadcast_socket_answers os)
    <> socket_ret (unicast_socket_answers os) ->
  bip_init IF_NAMESIZE mode bvlc_state bvlc_init os ifname s fds bv
  = Returns r ->
  init_status r = false -> init_fds r = fds.
Proof.
  intros Hnn Hf1 Hf2 Hne Hr Hfail.
  pose proof (bip_init_fds IF_NAMESIZE mode bvlc_state bvlc_init os ifname
                s fds bv r Hnn Hf1 Hf2 Hne Hr) as H.
  by rewrite Hfail in H.
Qed.

(** X9.  [bip_cleanup] undoes a successful [bip_init]: after the two, the
    descriptors open are exactly those open before [bip_init], the two
    sockets are [-1] and the addresses are zero. *)
Theorem bip_init_then_cleanup
    (IF_NAMESIZE : nat) (mode : broadcast_bind)
    (bvlc_state : Type) (bvlc_init : bvlc_state -> bvlc_state)
    (os : init_answers) (ifname : option string)
    (s : bip_state) (fds : gset Z) (bv : bvlc_state)
    (r : initialised bvlc_state) :
  (forall fd, fd ∈ fds -> 0 <= fd) ->
  socket_ret (unicast_socket_answers os) ∉ fds ->
  socket_ret (broadcast_socket_answers os) ∉ fds ->
  socket_ret (broadcast_socket_answers os)
    <> socket_ret (unicast_socket_answers os) ->
  bip_init IF_NAMESIZE mode bvlc_state bvlc_init os ifname s fds bv
  = Returns r ->
  init_status r = true ->
  let w := bip_cleanup (init_state r, init_fds r) in
  w.2 = fds /\
  BIP_Socket w.1 = -1 /\ BIP_Broadcast_Socket w.1 = -1 /\
  BIP_Address w.1 = in_addr_zero /\ BIP_Broadcast_Addr w.1 = in_addr_zero.
Proof.
  intros Hnn Hf1 Hf2 Hne Hr Hok w.
  pose proof (bip_init_fds IF_NAMESIZE mode bvlc_state bvlc_init os ifname
                s fds bv r Hnn Hf1 Hf2 Hne Hr) as H.
  rewrite Hok in H.
  destruct H as (H1 & H2 & Hn1 & Hn2 & Hfds).
  subst w. unfold bip_cleanup.
  cbn [fst snd set_BIP_Socket set_BIP_Broadcast_Socket set_BIP_Address
       set_BIP_Broadcast_Addr BIP_Socket BIP_Broadcast_Socket BIP_Address
       BIP_Broadcast_Addr].
  split_and!; try done.
  destruct (Z.eqb_spec (BIP_Socket (init_state r)) (-1)); [lia|].
  destruct (Z.eqb_spec (BIP_Broadcast_Socket (init_state r)) (-1)); [lia|].
  cbn [negb]. rewrite Hfds. apply set_eq. intros x.
  rewrite !elem_of_difference, !elem_of_union, !elem_of_singleton.
  split; [tauto|]. intros Hx.
  split; [split; [tauto|]|]; by intros ->.
Qed.

(** Closes a side condition about the descriptors 0, 1 and 2. *)
Ltac std_fds :=
  unfold sample_answers, sample_sockets;
  cbn [unicast_socket_answers broadcast_socket_answers socket_ret];
  rewrite ?elem_of_union, ?elem_of_singleton; try lia;
  intros fd; rewrite ?elem_of_union, ?elem_of_singleton; lia.

Lemma bip_init_failure_leaks_nothing_witness :
  exists r,
    bip_init 16 USE_BROADCAST_ADDR unit id
      (sample_answers [sample_en0] (sample_sockets 3 0)
         (sample_sockets 4 (-1)))
      None bip_state_initial {[0; 1; 2]} tt = Returns r /\
    init_status r = false /\ init_fds r = {[0; 1; 2]}.
Proof.
  eexists. split; [reflexivity|]. split; [reflexivity|].
  eapply (bip_init_failure_leaks_nothing 16 USE_BROADCAST_ADDR unit id
            (sample_answers [sample_en0] (sample_sockets 3 0)
               (sample_sockets 4 (-1)))
            None bip_state_initial {[0; 1; 2]} tt).
  - std_fds.
  - std_fds.
  - std_fds.
  - std_fds.
  - reflexivity.
  - reflexivity.
Defined.

Lemma bip_init_then_cleanup_witness :
  exists r,
    bip_init 16 USE_BROADCAST_ADDR unit id
      (sample_answers [sample_en0] (sample_sockets 3 0) (sample_sockets 4 0))
      None bip_state_initial {[0; 1; 2]} tt = Returns r /\
    init_status r = true /\
    let w := bip_cleanup (init_state r, init_fds r) in
    w.2 = {[0; 1; 2]} /\
    BIP_Socket w.1 = -1 /\ BIP_Broadcast_Socket w.1 = -1 /\
    BIP_Address w.1 = in_addr_zero /\ BIP_Broadcast_Addr w.1 = in_addr_zero.
Proof.
  eexists. split; [reflexivity|]. split; [reflexivity|].
  eapply (bip_init_then_cleanup 16 USE_BROADCAST_ADDR unit id
            (sample_answers [sample_en0] (sample_sockets 3 0)
               (sample_sockets 4 0))
            None bip_state_initial {[0; 1; 2]} tt).
  - std_fds.
  - std_fds.
  - std_fds.
  - std_fds.
  - reflexivity.
  - reflexivity.
Defined.

(** X8.  After [bip_cleanup] the driver refuses to work: [bip_valid] is
    false, [bip_send_mpdu] returns [-1] whatever [sendto] would answer, and
    [bip_receive] returns 0 and leaves the buffer, [*src] and the BBMD as
    they are, whatever the sockets would deliver. *)
Theorem bip_cleanup_disables (w : bip_state * gset Z) :
  let s := (bip_cleanup w).1 in
  bip_valid s = false /\
  (forall sendto dest mtu mtu_len,
     bip_send_mpdu sendto s dest mtu mtu_len = -1) /\
  (forall BVLL_TYPE_BACNET_IP bvlc_state bvlc_handler bvlc_broadcast_handler
          (bv : bvlc_state) os_select os_recvfrom src npdu max_npdu timeout,
     bip_receive BVLL_TYPE_BACNET_IP bvlc_state bvlc_handler
       bvlc_broadcast_handler s bv os_select os_recvfrom src npdu max_npdu
       timeout
     = mk_received 0 src npdu bv None).
Proof.
  intros s. subst s. unfold bip_cleanup. split_and!; reflexivity.
Qed.

(** *** What the look-up hands back *)

(** X10.  [bip_get_local_address_ioctl] walks the list that [ifaddrs_ptr]
    points to (after a failed [getifaddrs]: whatever the uninitialised
    pointer holds) and faults when there is none.  It faults at the first
    entry whose [ifa_addr] is null, whatever the name of that entry, and at
    an [AF_INET] entry of the name asked for whose requested address is
    null.  Otherwise it returns 0, never an error, and [*addr] is the
    address of the last entry that answers the request; when no entry
    answers it, [*addr] is left as it was. *)
Theorem bip_get_local_address_ioctl_result
    (getifaddrs : getifaddrs_answer) (ifname : string) (addr : in_addr)
    (request : ioctl_request) :
  let r := bip_get_local_address_ioctl getifaddrs ifname addr request in
  match walked_list getifaddrs with
  | None => r = Faults
  | Some l =>
      if existsb (ifaddrs_faults ifname request) l then r = Faults
      else
        exists addr',
          r = Returns (0, addr') /\
          (Forall (fun ifa => ifaddrs_answer ifname request ifa = None) l ->
             addr' = addr) /\
          (forall l1 ifa l2 bytes,
             l = l1 ++ ifa :: l2 ->
             ifaddrs_answer ifname request ifa = Some bytes ->
             Forall (fun ifa' => ifaddrs_answer ifname request ifa' = None)
               l2 ->
             addr' = mk_in_addr (take 4 bytes))
  end.
Proof.
  intros r. subst r.
  destruct (walked_list getifaddrs) as [l|] eqn:Hl;
    [|by destruct getifaddrs as [l'|[l'|]]].
  rewrite (bip_get_local_address_ioctl_walks _ l) by done.
  destruct (existsb (ifaddrs_faults ifname request) l) eqn:Hf;
    [by apply bip_get_local_address_walk_faults|].
  destruct (bip_get_local_address_walk_returns l ifname addr request Hf)
    as (addr' & Hr).
  exists addr'. split; [done|]. split.
  - intros Hnone.
    rewrite bip_get_local_address_walk_none in Hr by done. congruence.
  - intros l1 ifa l2 bytes -> Hifa Hrest.
    rewrite (bip_get_local_address_walk_last l1 ifa l2 bytes) in Hr by done.
    congruence.
Qed.

(** An interface without an address, which [getifaddrs] lists with a null
    [ifa_addr], ahead of [en0]: the look-up of [en0] faults. *)
Example bip_get_local_address_ioctl_null_ifa_addr :
  bip_get_local_address_ioctl
    (getifaddrs_list [mk_ifaddrs "tun0" None None None; sample_en0])
    "en0" in_addr_zero SIOCGIFADDR = Faults /\
  bip_get_local_address_ioctl (getifaddrs_list [sample_en0])
    "en0" in_addr_zero SIOCGIFADDR
  = Returns (0, mk_in_addr [192; 168; 1; 20]).
Proof. by split. Qed.

(** X23.  An interface that the lists do not have.  When both look-ups walk
    a list in which no entry makes them fault and no entry answers for the
    name, [bip_get_local_address_ioctl] reports no error, so
    [bip_set_interface] never takes its fall-backs (a zero address, the
    all-ones broadcast address) and stores in [BIP_Address] and
    [BIP_Broadcast_Addr] what its two local variables happened to hold. *)
Theorem bip_set_interface_absent
    (os : init_answers) (ifname : string) (s : bip_state)
    (l1 l2 : list ifaddrs) :
  walked_list (ifaddrs_for_address os) = Some l1 ->
  walked_list (ifaddrs_for_broadcast os) = Some l2 ->
  Forall (fun ifa => ifaddrs_faults ifname SIOCGIFADDR ifa = false /\
                     ifaddrs_answer ifname SIOCGIFADDR ifa = None) l1 ->
  Forall (fun ifa => ifaddrs_faults ifname SIOCGIFBRDADDR ifa = false /\
                     ifaddrs_answer ifname SIOCGIFBRDADDR ifa = None) l2 ->
  exists s',
    bip_set_interface os ifname s = Returns s' /\
    BIP_Address s' = local_address_garbage os /\
    BIP_Broadcast_Addr s' = broadcast_address_garbage os.
Proof.
  intros Hl1 Hl2 Ha Hb. unfold bip_set_interface.
  apply Forall_and in Ha as [Haf Han]. apply Forall_and in Hb as [Hbf Hbn].
  rewrite (bip_get_local_address_ioctl_walks _ l1),
    (bip_get_local_address_ioctl_walks _ l2) by done.
  rewrite !bip_get_local_address_walk_none; try done.
  - cbn [and_then fst snd]. change (0 <? 0) with false. cbv iota.
    eexists. split; [reflexivity|]. by destruct s.
  - by apply existsb_Forall_false.
  - by apply existsb_Forall_false.
Qed.

Lemma bip_set_interface_absent_witness :
  exists s',
    bip_set_interface sample_answers_with_garbage "eth7" bip_state_initial
    = Returns s' /\
    BIP_Address s' = local_address_garbage sample_answers_with_garbage /\
    BIP_Broadcast_Addr s'
    = broadcast_address_garbage sample_answers_with_garbage.
Proof.
  apply (bip_set_interface_absent sample_answers_with_garbage "eth7"
           bip_state_initial [sample_en0] [sample_en0]);
    [reflexivity|reflexivity|..]; by repeat constructor.
Defined.

(** X26.  One null [ifa_addr] stops [bip_init]: when the list of the first
    look-up holds an entry whose [ifa_addr] is null, [bip_init] goes
    through that null pointer, whatever interface it was asked for and
    whatever that entry is named. *)
Theorem bip_init_faults_on_null_ifa_addr
    (IF_NAMESIZE : nat) (mode : broadcast_bind)
    (bvlc_state : Type) (bvlc_init : bvlc_state -> bvlc_state)
    (os : init_answers) (ifname : option string)
    (s : bip_state) (fds : gset Z) (bv : bvlc_state)
    (l : list ifaddrs) (ifa : ifaddrs) :
  walked_list (ifaddrs_for_address os) = Some l ->
  ifa ∈ l -> ifa_addr ifa = None ->
  bip_init IF_NAMESIZE mode bvlc_state bvlc_init os ifname s fds bv = Faults.
Proof.
  intros Hl Hin Hnull.
  assert (Hf : forall name request,
             existsb (ifaddrs_faults name request) l = true).
  { intros name request. apply (existsb_elem_of _ l ifa); [done|].
    unfold ifaddrs_faults. by rewrite Hnull. }
  assert (Hset : forall name s0, bip_set_interface os name s0 = Faults).
  { intros name s0. unfold bip_set_interface.
    rewrite (bip_get_local_address_ioctl_walks _ l) by done.
    by rewrite bip_get_local_address_walk_faults. }
  unfold bip_init, bip_init_interface.
  destruct ifname as [name|]; by rewrite Hset.
Qed.

Lemma bip_init_faults_on_null_ifa_addr_witness :
  bip_init 16 USE_BROADCAST_ADDR unit id
    (sample_answers [sample_en0; mk_ifaddrs "tun0" None None None]
       (sample_sockets 3 0) (sample_sockets 4 0))
    (Some "en0"%string) bip_state_initial ∅ tt = Faults.
Proof.
  apply (bip_init_faults_on_null_ifa_addr 16 USE_BROADCAST_ADDR unit id
           (sample_answers [sample_en0; mk_ifaddrs "tun0" None None None]
              (sample_sockets 3 0) (sample_sockets 4 0))
           (Some "en0"%string) bip_state_initial ∅ tt
           [sample_en0; mk_ifaddrs "tun0" None None None]
           (mk_ifaddrs "tun0" None None None)).
  - reflexivity.
  - rewrite !elem_of_cons. by right; left.
  - reflexivity.
Defined.

Lemma substring_0_length (m : nat) (name : string) :
  (String.length (String.substring 0 m name) <= m)%nat.
Proof.
  revert name. induction m as [|m IH]; intros [|c name]; cbn; try lia.
  specialize (IH name). lia.
Qed.

(** X24.  [bip_init] with a name looks that name up but keeps it cut to
    [IF_NAMESIZE - 1] characters; a later [bip_init] without a name looks up
    the name that was kept, and ["en0"] (which it then keeps) when nothing
    was kept. *)
Theorem bip_init_interface_name
    (IF_NAMESIZE : nat) (os os' : init_answers) (name : string)
    (s s1 : bip_state) :
  bip_init_interface IF_NAMESIZE os (Some name) s = Returns s1 ->
  let kept := String.substring 0 (IF_NAMESIZE - 1) name in
  BIP_Interface_Name s1 = kept /\
  (String.length kept <= IF_NAMESIZE - 1)%nat /\
  bip_init_interface IF_NAMESIZE os' None s1
  = (if String.eqb kept "" then
       bip_set_interface os' "en0" (set_BIP_Interface_Name "en0" s1)
     else bip_set_interface os' kept s1).
Proof.
  intros Hs1 kept.
  assert (Hk : BIP_Interface_Name s1 = kept).
  { unfold bip_init_interface in Hs1.
    by rewrite (bip_set_interface_keeps_name _ _ _ _ Hs1). }
  split_and!; [done|apply substring_0_length|].
  unfold bip_init_interface. unfold ifname_default. rewrite Hk.
  by destruct (String.eqb kept "").
Qed.

Lemma bip_init_interface_name_witness :
  let os := sample_answers [sample_en0] (sample_sockets 3 0)
              (sample_sockets 4 0) in
  exists s1,
    bip_init_interface 4 os (Some "eth10"%string) bip_state_initial
    = Returns s1 /\
    BIP_Interface_Name s1 = "eth"%string /\
    (String.length "eth" <= 4 - 1)%nat /\
    bip_init_interface 4 os None s1 = bip_set_interface os "eth" s1.
Proof.
  eexists. split; [reflexivity|].
  eapply (bip_init_interface_name 4
            (sample_answers [sample_en0] (sample_sockets 3 0)
               (sample_sockets 4 0))
            (sample_answers [sample_en0] (sample_sockets 3 0)
               (sample_sockets 4 0))
            "eth10" bip_state_initial).
  reflexivity.
Defined.

(** *** The subnet prefix *)

Lemma prefix_mask_next k :
  1 <= k < 32 -> (prefix_mask k * 2) mod 2 ^ 32 = prefix_mask (k + 1).
Proof.
  intros Hk. unfold prefix_mask.
  assert (H2 : 2 ^ (k + 1) = 2 * 2 ^ k) by (rewrite Z.pow_add_r; lia).
  assert (Hle : 2 ^ (k + 1) <= 2 ^ 32) by (apply Z.pow_le_mono_r; lia).
  assert (Hpos : 0 < 2 ^ (k + 1)) by (apply Z.pow_pos_nonneg; lia).
  replace ((2 ^ 32 - 2 ^ k) * 2)
    with ((2 ^ 32 - 2 ^ (k + 1)) + 1 * 2 ^ 32) by lia.
  rewrite Z.mod_add by lia. apply Z.mod_small. lia.
Qed.

Lemma subnet_prefix_loop_spec (n : nat) address broadcast :
  forall k, 1 <= k -> k + Z.of_nat n = 33 ->
  let p := subnet_prefix_loop n k (prefix_mask k) address broadcast in
  k <= p <= 33 /\
  (p <= 32 -> Z.lor address (prefix_mask p) = broadcast) /\
  (forall q, k <= q < p -> Z.lor address (prefix_mask q) <> broadcast).
Proof.
  induction n as [|n IH]; intros k Hk Hsum p; subst p.
  - cbn [subnet_prefix_loop]. split_and!; intros; lia.
  - cbn [subnet_prefix_loop].
    destruct (Z.eqb_spec (Z.lor address (prefix_mask k)) broadcast)
      as [Heq|Hne].
    + split_and!; [lia|lia|done|intros; lia].
    + destruct (decide (k = 32)) as [->|Hk32].
      * assert (n = 0%nat) as -> by lia. cbn [subnet_prefix_loop].
        split_and!; [lia|lia|intros; lia|].
        intros q Hq. by replace q with 32 by lia.
      * rewrite prefix_mask_next by lia.
        destruct (IH (k + 1) ltac:(lia) ltac:(lia)) as (Hr & Hm & Hl).
        split_and!; [lia|lia|done|].
        intros q Hq. destruct (decide (q = k)) as [->|]; [done|].
        apply Hl. lia.
Qed.

(** X11.  [bip_get_subnet_prefix] returns the least [p] from 1 to 32 for
    which the address ORed with the mask of [p] low zero bits equals the
    broadcast address (both read as [uint32_t]); when no such [p] exists
    it returns 33. *)
Theorem bip_get_subnet_prefix_least
    (host_u32 : list Z -> Z) (s : bip_state) :
  let address := host_u32 (s_addr (BIP_Address s)) in
  let broadcast := host_u32 (s_addr (BIP_Broadcast_Addr s)) in
  let p := bip_get_subnet_prefix host_u32 s in
  1 <= p <= 33 /\
  (p <= 32 -> Z.lor address (2 ^ 32 - 2 ^ p) = broadcast) /\
  (forall q, 1 <= q < p -> Z.lor address (2 ^ 32 - 2 ^ q) <> broadcast).
Proof.
  intros address broadcast p. subst p. unfold bip_get_subnet_prefix.
  fold address broadcast.
  apply (subnet_prefix_loop_spec 32 address broadcast 1); lia.
Qed.

(** The network 192.168.1.0/24, as a little-endian and as a big-endian host
    read the two addresses. *)
Example bip_get_subnet_prefix_by_byte_order :
  let s := set_BIP_Broadcast_Addr (mk_in_addr [192; 168; 1; 255])
             (set_BIP_Address (mk_in_addr [192; 168; 1; 20])
                bip_state_initial) in
  bip_get_subnet_prefix little_endian_u32 s = 24 /\
  bip_get_subnet_prefix big_endian_u32 s = 33.
Proof. split; vm_compute; reflexivity. Qed.

(** *** The B/IP address and the BACnet MAC *)

Lemma htons_ntohs hi lo :
  0 <= hi < 256 -> 0 <= lo < 256 -> htons (ntohs [hi; lo]) = [hi; lo].
Proof.
  intros Hhi Hlo. unfold htons, ntohs, byte_at. cbn. unfold id.
  assert (Hd : (hi * 256 + lo) / 256 = hi).
  { rewrite Z.div_add_l, Z.div_small by lia. lia. }
  assert (Hm : (hi * 256 + lo) mod 256 = lo).
  { rewrite Z.add_comm, Z.mod_add, Z.mod_small by lia. done. }
  rewrite Hd, Hm, Z.mod_small by lia. done.
Qed.

(** X12.  The 6-byte MAC that [bip_get_my_address] reports is the B/IP
    address that [bip_get_addr] reports: its four address bytes followed by
    its port, most significant byte first.  The same holds for
    [bip_get_broadcast_address] and [bip_get_broadcast_addr]. *)
Theorem bip_mac_is_address_and_port
    (MAX_MAC_LEN : nat) (BACNET_BROADCAST_NETWORK : Z)
    (s : bip_state) (a : BACNET_ADDRESS) (ip : BACNET_IP_ADDRESS)
    (hi lo : Z) :
  (6 <= MAX_MAC_LEN)%nat ->
  length (mac a) = MAX_MAC_LEN ->
  length (address ip) = 4%nat ->
  length (s_addr (BIP_Address s)) = 4%nat ->
  length (s_addr (BIP_Broadcast_Addr s)) = 4%nat ->
  BIP_Port s = [hi; lo] -> 0 <= hi < 256 -> 0 <= lo < 256 ->
  (exists a' ip',
     bip_get_my_address MAX_MAC_LEN s (Some a) = Some a' /\
     bip_get_addr s (Some ip) = (true, Some ip') /\
     address ip' = s_addr (BIP_Address s) /\
     take 6 (mac a') = address ip' ++ htons (port ip')) /\
  (exists d' ip',
     bip_get_broadcast_address MAX_MAC_LEN BACNET_BROADCAST_NETWORK s (Some a)
       = Some d' /\
     bip_get_broadcast_addr s (Some ip) = (true, Some ip') /\
     address ip' = s_addr (BIP_Broadcast_Addr s) /\
     take 6 (mac d') = address ip' ++ htons (port ip')).
Proof.
  intros Hmax Hmac Hip Ha Hb Hport Hhi Hlo.
  assert (Hfill : forall bytes, length bytes = 4%nat ->
            store_bytes (address ip) 0 (take 4 bytes) = bytes).
  { intros bytes Hbytes. rewrite take_ge by lia.
    rewrite <- (take_store_bytes_front (address ip) bytes) at 2 by lia.
    symmetry. apply take_ge. rewrite store_bytes_length. lia. }
  split; eexists _, _; (split; [reflexivity|]); (split; [reflexivity|]);
    cbn [address port mac]; rewrite Hfill by done; (split; [done|]);
    rewrite Hport, htons_ntohs by done; rewrite <- Hport;
    apply mac_after_stores; try done; rewrite ?Hport; cbn; lia.
Qed.

Lemma bip_mac_is_address_and_port_witness :
  let s := set_BIP_Broadcast_Addr (mk_in_addr [192; 168; 1; 255])
             (set_BIP_Address (mk_in_addr [192; 168; 1; 20])
                (bip_set_port 47808 bip_state_initial)) in
  let ip := mk_BACNET_IP_ADDRESS [0; 0; 0; 0] 0 in
  (exists a' ip',
     bip_get_my_address 7 s (Some sample_address) = Some a' /\
     bip_get_addr s (Some ip) = (true, Some ip') /\
     address ip' = [192; 168; 1; 20] /\
     take 6 (mac a') = address ip' ++ htons (port ip')) /\
  (exists d' ip',
     bip_get_broadcast_address 7 65535 s (Some sample_address) = Some d' /\
     bip_get_broadcast_addr s (Some ip) = (true, Some ip') /\
     address ip' = [192; 168; 1; 255] /\
     take 6 (mac d') = address ip' ++ htons (port ip')).
Proof.
  apply (bip_mac_is_address_and_port 7 65535
           (set_BIP_Broadcast_Addr (mk_in_addr [192; 168; 1; 255])
              (set_BIP_Address (mk_in_addr [192; 168; 1; 20])
                 (bip_set_port 47808 bip_state_initial)))
           sample_address (mk_BACNET_IP_ADDRESS [0; 0; 0; 0] 0) 186 192);
    first [reflexivity | lia | cbn; lia].
Defined.

End BipFacts.

(** ** The WriteProperty handler *)
Module WritePropertyFacts.
Import WriteProperty.

Section Response.
Variable BACNET_PROTOCOL_REVISION : Z.
Variable device : Type.
Variable Device_Write_Property :
  device -> BACNET_WRITE_PROPERTY_DATA ->
  bool * BACNET_WRITE_PROPERTY_DATA * device.
Variable wp_decode_service_request :
  list Z -> Z -> BACNET_WRITE_PROPERTY_DATA ->
  Z * BACNET_WRITE_PROPERTY_DATA.
Variable write_property_relinquish_bypass :
  device -> BACNET_WRITE_PROPERTY_DATA ->
  bool * BACNET_WRITE_PROPERTY_DATA.
Variable write_property_bacnet_array_valid :
  BACNET_WRITE_PROPERTY_DATA -> bool * BACNET_WRITE_PROPERTY_DATA.
Variable datalink_get_my_address : Bip.BACNET_ADDRESS.
Variable npdu_encode_pdu :
  Bip.BACNET_ADDRESS -> Bip.BACNET_ADDRESS -> BACNET_NPDU_DATA -> Z.
Variable apdu_len : apdu -> Z.

Local Abbreviation handler :=
  (handler_write_property BACNET_PROTOCOL_REVISION device
     Device_Write_Property wp_decode_service_request
     write_property_relinquish_bypass write_property_bacnet_array_valid
     datalink_get_my_address npdu_encode_pdu apdu_len).

Local Abbreviation bypass :=
  (handler_write_property_relinquish_bypass BACNET_PROTOCOL_REVISION device
     write_property_relinquish_bypass).

(** Closes one case of the handler's response: by computation, by a
    contradiction among the conditions of the case, or from what the calls
    answered. *)
Ltac wp_case :=
  first
    [ done
    | intros; lia
    | intros _ _ _ Hn; exfalso; apply Hn; auto; fail
    | by intros _ _ _ [[=]|[=]]
    | intros _ _ _; repeat split; done ].

(** C10.  [handler_write_property] makes exactly one [datalink_send_pdu]
    call in every case, to the requester, and the APDU it sends is: a Reject
    (missing required parameter) when [service_len] is 0; otherwise an Abort
    (segmentation not supported) when the message is segmented; otherwise an
    Abort (other) when [wp_decode_service_request] returns a value [<= 0];
    otherwise a SimpleACK when the relinquish bypass or
    [Device_Write_Property] succeeded; otherwise an Error carrying the error
    class and code of [wp_data].  The last conjunct says when the two are
    called: the bypass after every good decode, [Device_Write_Property] when
    the bypass failed and [write_property_bacnet_array_valid] accepted the
    request. *)
Theorem handler_write_property_response
    (service_request : list Z) (service_len : Z)
    (src : Bip.BACNET_ADDRESS)
    (service_data : BACNET_CONFIRMED_SERVICE_DATA)
    (wp_data : BACNET_WRITE_PROPERTY_DATA) (dev : device) :
  let r := handler service_request service_len src service_data wp_data
             dev in
  let l := locals r in
  let id := invoke_id service_data in
  let d := wp_decode_service_request service_request service_len wp_data in
  let succeeded :=
    bypass_status l = Some true \/ device_write_status l = Some true in
  sent r = [ {| send_dest := src;
                send_npdu_data := mk_npdu_data false (priority service_data);
                send_apdu := encoded l;
                send_pdu_len :=
                  npdu_encode_pdu src datalink_get_my_address
                    (mk_npdu_data false (priority service_data))
                  + apdu_len (encoded l) |} ] /\
  length (sent r) = 1%nat /\
  (service_len = 0 ->
     encoded l = Reject id REJECT_REASON_MISSING_REQUIRED_PARAMETER) /\
  (service_len <> 0 -> segmented_message service_data = true ->
     encoded l = Abort id ABORT_REASON_SEGMENTATION_NOT_SUPPORTED true) /\
  (service_len <> 0 -> segmented_message service_data = false ->
   d.1 <= 0 ->
     encoded l = Abort id ABORT_REASON_OTHER true) /\
  (service_len <> 0 -> segmented_message service_data = false ->
   0 < d.1 -> succeeded ->
     encoded l = SimpleAck id SERVICE_CONFIRMED_WRITE_PROPERTY) /\
  (service_len <> 0 -> segmented_message service_data = false ->
   0 < d.1 -> ~ succeeded ->
     encoded l = Error id SERVICE_CONFIRMED_WRITE_PROPERTY
                   (error_class (wp_data_now l))
                   (error_code (wp_data_now l))) /\
  (service_len <> 0 -> segmented_message service_data = false ->
   0 < d.1 ->
     let b := bypass dev d.2 in
     let v := write_property_bacnet_array_valid b.2 in
     let w := Device_Write_Property dev v.2 in
     bypass_status l = Some b.1 /\
     device_write_status l =
       (if b.1 then None else if v.1 then Some w.1.1 else None) /\
     wp_data_now l = (if b.1 then b.2 else if v.1 then w.1.2 else v.2) /\
     device_now l = (if b.1 then dev else if v.1 then w.2 else dev)).
Proof.
  intros r l id d succeeded. subst succeeded l r.
  unfold handler_write_property, write_response. fold d. fold id.
  cbn [sent locals].
  split; [reflexivity|]. split; [reflexivity|].
  destruct (Z.eqb_spec service_len 0) as [Hl|Hl].
  { cbn [encoded]. split_and!; try done; intros; lia. }
  destruct (segmented_message service_data).
  { cbn [encoded]. split_and!; try done. }
  destruct (Z.leb_spec d.1 0) as [Hd|Hd].
  { cbn [encoded]. split_and!; try done; intros; lia. }
  destruct (bypass dev d.2) as [bok bwp] eqn:Hb. cbn [fst snd].
  destruct bok.
  { cbn [fst snd encoded bypass_status device_write_status wp_data_now
         device_now].
    split_and!; wp_case. }
  destruct (write_property_bacnet_array_valid bwp) as [vok vwp] eqn:Hv.
  cbn [fst snd]. destruct vok.
  - destruct (Device_Write_Property dev vwp) as [[ok wp'] dev'] eqn:Hw.
    cbn [fst snd]. destruct ok;
      cbn [fst snd encoded bypass_status device_write_status wp_data_now
           device_now];
      split_and!; wp_case.
  - cbn [fst snd encoded bypass_status device_write_status wp_data_now
         device_now].
    split_and!; wp_case.
Qed.

(** X16.  Whatever the request, the one PDU that [handler_write_property]
    sends answers it: it goes to the requester [src], carries the invoke id
    of the request, has the priority of the request and does not expect a
    reply. *)
Theorem handler_write_property_answers_the_request
    (service_request : list Z) (service_len : Z)
    (src : Bip.BACNET_ADDRESS)
    (service_data : BACNET_CONFIRMED_SERVICE_DATA)
    (wp_data : BACNET_WRITE_PROPERTY_DATA) (dev : device) :
  Forall (fun c =>
            send_dest c = src /\
            apdu_invoke_id (send_apdu c) = invoke_id service_data /\
            npdu_priority (send_npdu_data c) = priority service_data /\
            data_expecting_reply (send_npdu_data c) = false)
    (sent (handler service_request service_len src service_data wp_data
             dev)).
Proof.
  unfold handler_write_property, write_response. cbn [sent].
  apply Forall_singleton.
  cbn [send_dest send_apdu send_npdu_data npdu_encode_npdu_data
       npdu_priority data_expecting_reply].
  split_and!; try done.
  repeat (case_match; cbn [encoded apdu_invoke_id]; try done).
Qed.

(** X17.  Compiled for a protocol revision below 21, the handler never
    consults [write_property_relinquish_bypass]: a SimpleACK is then sent
    only after [Device_Write_Property] was called and returned [true], and
    the answer is the same whatever that function would have said. *)
Theorem handler_write_property_before_revision_21
    (service_request : list Z) (service_len : Z)
    (src : Bip.BACNET_ADDRESS)
    (service_data : BACNET_CONFIRMED_SERVICE_DATA)
    (wp_data : BACNET_WRITE_PROPERTY_DATA) (dev : device) :
  BACNET_PROTOCOL_REVISION < 21 ->
  let r := handler service_request service_len src service_data wp_data
             dev in
  bypass_status (locals r) <> Some true /\
  (encoded (locals r)
     = SimpleAck (invoke_id service_data) SERVICE_CONFIRMED_WRITE_PROPERTY ->
   device_write_status (locals r) = Some true) /\
  (forall other_bypass,
     handler_write_property BACNET_PROTOCOL_REVISION device
       Device_Write_Property wp_decode_service_request other_bypass
       write_property_bacnet_array_valid datalink_get_my_address
       npdu_encode_pdu apdu_len service_request service_len src service_data
       wp_data dev = r).
Proof.
  intros Hrev r. subst r.
  unfold handler_write_property, handler_write_property_relinquish_bypass,
    write_response.
  destruct (Z.leb_spec 21 BACNET_PROTOCOL_REVISION); [lia|].
  cbn [fst snd locals sent].
  split_and!; [| |done];
    repeat (case_match;
            cbn [encoded bypass_status device_write_status]; try done).
Qed.

End Response.


(** *** Checks on a concrete device *)

Example write_all_is_acknowledged :
  sent (sample_handler [2; 255; 1] 3 sample_station (mk_service_data false 7 0)
          sample_wp_data tt)
  = [ mk_send_pdu_call sample_station (mk_npdu_data false 0)
        (SimpleAck 7 SERVICE_CONFIRMED_WRITE_PROPERTY) 5 ].
Proof. reflexivity. Qed.

Example empty_request_is_rejected :
  map send_apdu
    (sent (sample_handler [] 0 sample_station (mk_service_data false 7 0)
             sample_wp_data tt))
  = [ Reject 7 REJECT_REASON_MISSING_REQUIRED_PARAMETER ].
Proof. reflexivity. Qed.

Example segmented_request_is_aborted :
  map send_apdu
    (sent (sample_handler [2; 255; 1] 3 sample_station
             (mk_service_data true 7 0) sample_wp_data tt))
  = [ Abort 7 ABORT_REASON_SEGMENTATION_NOT_SUPPORTED true ].
Proof. reflexivity. Qed.

Example undecodable_request_is_aborted :
  map send_apdu
    (sent (sample_handler [2] 1 sample_station (mk_service_data false 7 0)
             sample_wp_data tt))
  = [ Abort 7 ABORT_REASON_OTHER true ].
Proof. reflexivity. Qed.

(** A request that writes element 3 of a property that is not an array:
    [write_property_bacnet_array_valid] refuses it, [Device_Write_Property]
    (which would accept it) is not called, and the Error carries the class
    and code that the check stored in [wp_data]. *)
Example refused_array_index_is_an_error :
  let r := sample_handler [2; 3; 1] 3 sample_station
             (mk_service_data false 7 0) sample_wp_data tt in
  map send_apdu (sent r) = [ Error 7 SERVICE_CONFIRMED_WRITE_PROPERTY 2 50 ]
  /\ device_write_status (locals r) = None
  /\ bypass_status (locals r) = Some false.
Proof. split_and!; reflexivity. Qed.

(** *** The validation helpers *)

Section Validation.
Variable BACNET_CHARACTER_STRING : Type.
Variable characterstring_encoding : BACNET_CHARACTER_STRING -> Z.
Variable characterstring_length : BACNET_CHARACTER_STRING -> Z.
Variable characterstring_printable : BACNET_CHARACTER_STRING -> bool.
Variable BACNET_APPLICATION_TAG_CHARACTER_STRING : Z.
Variable CHARACTER_ANSI_X34 : Z.
Variable ERROR_CLASS_PROPERTY : Z.
Variable ERROR_CLASS_RESOURCES : Z.
Variable ERROR_CODE_VALUE_OUT_OF_RANGE : Z.
Variable ERROR_CODE_NO_SPACE_TO_WRITE_PROPERTY : Z.
Variable ERROR_CODE_CHARACTER_SET_NOT_SUPPORTED : Z.
Variable ERROR_CODE_INVALID_DATA_TYPE : Z.

Local Abbreviation validate_string :=
  (WPValidateString BACNET_CHARACTER_STRING characterstring_encoding
     characterstring_length characterstring_printable
     BACNET_APPLICATION_TAG_CHARACTER_STRING CHARACTER_ANSI_X34
     ERROR_CLASS_PROPERTY ERROR_CLASS_RESOURCES
     ERROR_CODE_VALUE_OUT_OF_RANGE ERROR_CODE_NO_SPACE_TO_WRITE_PROPERTY
     ERROR_CODE_CHARACTER_SET_NOT_SUPPORTED ERROR_CODE_INVALID_DATA_TYPE).

Local Abbreviation validate_arg_type :=
  (WPValidateArgType BACNET_CHARACTER_STRING ERROR_CLASS_PROPERTY
     ERROR_CODE_INVALID_DATA_TYPE).

(** Closes one case of a verdict: the conditions of the case contradict or
    entail what is asked. *)
Ltac verdict := intuition (try done; try lia; try congruence).

(** X13.  [WPValidateString] returns [true] exactly for a character-string
    value in the ANSI X3.4 encoding that is no longer than [iMaxLen] cast to
    [uint16_t] and, unless empty strings are allowed, is neither empty nor
    unprintable.  Success overwrites [*pErrorClass] with the property class
    and leaves [*pErrorCode] alone; every failure sets both: wrong tag,
    wrong character set, out of range (empty or unprintable), no space (too
    long, the only case with the resources class), in this order of
    precedence. *)
Theorem WPValidateString_verdict
    (pValue : BACNET_APPLICATION_DATA_VALUE BACNET_CHARACTER_STRING)
    (iMaxLen : Z) (bEmptyAllowed : bool) (pErrorClass pErrorCode : Z) :
  let str := type_Character_String _ pValue in
  let is_string := tag _ pValue = BACNET_APPLICATION_TAG_CHARACTER_STRING in
  let is_ansi := characterstring_encoding str = CHARACTER_ANSI_X34 in
  let content_ok :=
    bEmptyAllowed = true \/
    (characterstring_length str <> 0 /\
     characterstring_printable str = true) in
  let fits := characterstring_length str <= iMaxLen mod 65536 in
  let r := validate_string pValue iMaxLen bEmptyAllowed pErrorClass
             pErrorCode in
  (bResult r = true <-> is_string /\ is_ansi /\ content_ok /\ fits) /\
  (bResult r = true ->
     error_class_out r = ERROR_CLASS_PROPERTY /\
     error_code_out r = pErrorCode) /\
  (~ is_string ->
     r = mk_validated false ERROR_CLASS_PROPERTY
           ERROR_CODE_INVALID_DATA_TYPE) /\
  (is_string -> ~ is_ansi ->
     r = mk_validated false ERROR_CLASS_PROPERTY
           ERROR_CODE_CHARACTER_SET_NOT_SUPPORTED) /\
  (is_string -> is_ansi -> ~ content_ok ->
     r = mk_validated false ERROR_CLASS_PROPERTY
           ERROR_CODE_VALUE_OUT_OF_RANGE) /\
  (is_string -> is_ansi -> content_ok -> ~ fits ->
     r = mk_validated false ERROR_CLASS_RESOURCES
           ERROR_CODE_NO_SPACE_TO_WRITE_PROPERTY).
Proof.
  intros str is_string is_ansi content_ok fits r.
  subst r is_string is_ansi content_ok fits. unfold WPValidateString.
  fold str. unfold Bip.to_uint16.
  destruct (Z.eqb_spec (tag _ pValue)
              BACNET_APPLICATION_TAG_CHARACTER_STRING) as [Ht|Ht];
    [|cbn [bResult]; split_and!; verdict].
  destruct (Z.eqb_spec (characterstring_encoding str) CHARACTER_ANSI_X34)
    as [He|He]; [|cbn [bResult]; split_and!; verdict].
  destruct bEmptyAllowed; cbn [negb andb].
  - destruct (Z.ltb_spec (iMaxLen mod 65536) (characterstring_length str));
      cbn [bResult error_class_out error_code_out]; split_and!; verdict.
  - destruct (Z.eqb_spec (characterstring_length str) 0) as [Hl|Hl];
      [cbn [bResult]; split_and!; verdict|].
    destruct (characterstring_printable str) eqn:Hp; cbn [negb];
      [|cbn [bResult]; split_and!; verdict].
    destruct (Z.ltb_spec (iMaxLen mod 65536) (characterstring_length str));
      cbn [bResult error_class_out error_code_out]; split_and!; verdict.
Qed.

(** X14.  [WPValidateString] takes its limit modulo 65536 (the cast of
    [iMaxLen] to [uint16_t]): limits that differ by a multiple of 65536 give
    the same verdict.  So a limit of [-1] admits what 65535 admits, and a
    limit of 65536 admits only what 0 admits. *)
Theorem WPValidateString_limit_wraps
    (pValue : BACNET_APPLICATION_DATA_VALUE BACNET_CHARACTER_STRING)
    (iMaxLen : Z) (bEmptyAllowed : bool) (pErrorClass pErrorCode : Z) :
  (forall k,
     validate_string pValue (iMaxLen + k * 65536) bEmptyAllowed pErrorClass
       pErrorCode
     = validate_string pValue iMaxLen bEmptyAllowed pErrorClass pErrorCode) /\
  validate_string pValue (-1) bEmptyAllowed pErrorClass pErrorCode
  = validate_string pValue 65535 bEmptyAllowed pErrorClass pErrorCode /\
  validate_string pValue 65536 bEmptyAllowed pErrorClass pErrorCode
  = validate_string pValue 0 bEmptyAllowed pErrorClass pErrorCode.
Proof.
  split; [|split; reflexivity].
  intros k. unfold WPValidateString, Bip.to_uint16.
  by rewrite Z.mod_add by lia.
Qed.

(** X15.  [WPValidateArgType] accepts exactly a value bearing the expected
    tag and then leaves the two error variables alone.  It agrees with
    [WPValidateString] on character strings: whatever [WPValidateString]
    accepts, [WPValidateArgType] accepts for the character-string tag, and
    what [WPValidateArgType] refuses for that tag, [WPValidateString]
    refuses with the same error class and code. *)
Theorem WPValidateArgType_agrees
    (pValue : BACNET_APPLICATION_DATA_VALUE BACNET_CHARACTER_STRING)
    (ucExpectedTag iMaxLen : Z) (bEmptyAllowed : bool)
    (pErrorClass pErrorCode : Z) :
  let by_type expected :=
    validate_arg_type pValue expected pErrorClass pErrorCode in
  let by_string :=
    validate_string pValue iMaxLen bEmptyAllowed pErrorClass pErrorCode in
  (bResult (by_type ucExpectedTag) = true <->
     tag _ pValue = ucExpectedTag) /\
  (bResult (by_type ucExpectedTag) = true ->
     by_type ucExpectedTag = mk_validated true pErrorClass pErrorCode) /\
  (bResult (by_type ucExpectedTag) = false ->
     by_type ucExpectedTag =
       mk_validated false ERROR_CLASS_PROPERTY ERROR_CODE_INVALID_DATA_TYPE) /\
  (bResult by_string = true ->
     bResult (by_type BACNET_APPLICATION_TAG_CHARACTER_STRING) = true) /\
  (bResult (by_type BACNET_APPLICATION_TAG_CHARACTER_STRING) = false ->
     by_string = by_type BACNET_APPLICATION_TAG_CHARACTER_STRING).
Proof.
  intros by_type by_string. subst by_type by_string.
  unfold WPValidateArgType, WPValidateString.
  destruct (Z.eqb_spec (tag _ pValue) ucExpectedTag);
    destruct (Z.eqb_spec (tag _ pValue)
                BACNET_APPLICATION_TAG_CHARACTER_STRING);
    cbn [negb bResult]; split_and!; verdict.
Qed.

End Validation.

Lemma handler_write_property_before_revision_21_witness :
  let r := handler_write_property 19 unit sample_device_write sample_decode
             (fun _ wp => (true, wp)) sample_array_valid sample_station
             (fun _ _ _ => 2) (fun _ => 3)
             [2; 3; 1] 3 sample_station (mk_service_data false 7 0)
             sample_wp_data tt in
  bypass_status (locals r) <> Some true /\
  map send_apdu (sent r) = [ Error 7 SERVICE_CONFIRMED_WRITE_PROPERTY 2 50 ].
Proof.
  split; [|reflexivity].
  apply (handler_write_property_before_revision_21 19 unit
           sample_device_write sample_decode (fun _ wp => (true, wp))
           sample_array_valid sample_station (fun _ _ _ => 2) (fun _ => 3)
           [2; 3; 1] 3 sample_station (mk_service_data false 7 0)
           sample_wp_data tt).
  lia.
Defined.

(** Strings of three characters against limits of 3, 2 and [-1], an empty
    string, and a value that is not a string. *)
Example WPValidateString_cases :
  let abc := mk_application_data_value (Z * list Z) 7 (0, [97; 98; 99]) in
  let empty := mk_application_data_value (Z * list Z) 7 (0, []) in
  let number := mk_application_data_value (Z * list Z) 2 (0, []) in
  sample_validate_string abc 3 false 0 0 = mk_validated true 2 0 /\
  sample_validate_string abc 2 false 0 0 = mk_validated false 3 20 /\
  sample_validate_string abc (-1) false 0 0 = mk_validated true 2 0 /\
  sample_validate_string empty 3 false 0 0 = mk_validated false 2 37 /\
  sample_validate_string empty 0 true 0 0 = mk_validated true 2 0 /\
  sample_validate_string number 3 true 0 0 = mk_validated false 2 9.
Proof. split_and!; reflexivity. Qed.

End WritePropertyFacts.

(** ** The unconfirmed COV notification handler *)
Module UcovFacts.
Import Ucov.

Lemma chain_unique m a l1 l2 : chain m a l1 -> chain m a l2 -> l1 = l2.
Proof.
  intros H1. revert l2. induction H1 as [a n Ha Hn|a n b l Ha Hn _ IH];
    intros l2 H2; inversion H2 as [a' n' Ha' Hn'|a' n' b' l' Ha' Hn' Hl'];
    subst; rewrite Ha in Ha'; injection Ha' as <-; try congruence.
  rewrite Hn in Hn'. injection Hn' as <-. f_equal. by apply IH.
Qed.

Lemma chain_suffix m a l b :
  chain m a l -> b ∈ l ->
  exists l', chain m b l' /\ (length l' < length l)%nat.
Proof.
  induction 1 as [a n Ha Hn|a n c l Ha Hn Hc IH]; intros Hb.
  - by apply elem_of_nil in Hb.
  - apply elem_of_cons in Hb as [->|Hb].
    + exists l. split; [done|]. cbn. lia.
    + destruct (IH Hb) as (l' & Hl' & Hlen). exists l'. split; [done|].
      cbn. lia.
Qed.

Lemma chain_not_in m a l : chain m a l -> a ∉ l.
Proof.
  intros Hc Hin. destruct (chain_suffix m a l a Hc Hin) as (l' & Hl' & Hlen).
  rewrite (chain_unique m a l l' Hc Hl') in Hlen. lia.
Qed.

Lemma chain_agree m m' a l :
  chain m a l -> (forall x, x ∈ a :: l -> m' !! x = m !! x) -> chain m' a l.
Proof.
  induction 1 as [a n Ha Hn|a n b l Ha Hn Hb IH]; intros Hsame.
  - apply (chain_end m' a n); [|done]. rewrite Hsame; [done|]. by left.
  - apply (chain_step m' a n b l); [|done|].
    + rewrite Hsame; [done|]. by left.
    + apply IH. intros x Hx. apply Hsame. by right.
Qed.

(** The last node of the list that starts at [a] and goes on with [l]. *)
Lemma last_cons_default (a b : Z) (l : list Z) :
  default a (last (b :: l)) = default b (last l).
Proof. rewrite last_cons. by destruct (last l). Qed.

Lemma last_default_elem_of (a : Z) (l : list Z) :
  default a (last l) ∈ a :: l.
Proof.
  revert a. induction l as [|b l IH]; intros a; [by left|].
  rewrite last_cons_default. right. apply IH.
Qed.

(** Every node of a list but the last has a successor further on. *)
Lemma chain_next m a l x :
  chain m a l -> x ∈ a :: l -> x <> default a (last l) ->
  exists n b, m !! x = Some n /\ next n = Some b /\ b ∈ l.
Proof.
  induction 1 as [a n Ha Hn|a n b l Ha Hn Hb IH]; intros Hx Hne.
  - cbn in Hne. rewrite elem_of_cons, elem_of_nil in Hx. tauto.
  - rewrite last_cons_default in Hne.
    apply elem_of_cons in Hx as [->|Hx].
    + exists n, b. split_and!; [done|done|by left].
    + destruct (IH Hx Hne) as (n' & b' & H1 & H2 & H3).
      exists n', b'. split_and!; [done|done|by right].
Qed.

Lemma chain_null_is_last m a l z n :
  chain m a l -> z ∈ a :: l -> m !! z = Some n -> next n = None ->
  z = default a (last l).
Proof.
  intros Hc Hz Hn Hnull.
  destruct (decide (z = default a (last l))) as [|Hne]; [done|].
  destruct (chain_next m a l z Hc Hz Hne) as (n' & b & Hn' & Hb & _).
  congruence.
Qed.

(** Linking the node [cb], which starts a list of its own that stays clear
    of the last node [z], behind [z] joins the two lists. *)
Lemma chain_splice m a l cb l2 n :
  chain m a l ->
  m !! default a (last l) = Some n ->
  chain m cb l2 -> default a (last l) ∉ cb :: l2 ->
  chain (<[default a (last l) :=
             {| next := Some cb; callback := callback n |}]> m)
    a (l ++ cb :: l2).
Proof.
  intros Hc. induction Hc as [a n' Ha Hn'|a n' b l Ha Hn' Hb IH];
    intros Hz Hcb Hclear.
  - cbn [last default app] in *.
    apply (chain_step _ a {| next := Some cb; callback := callback n |} cb l2);
      [by rewrite lookup_insert_eq|done|].
    apply (chain_agree m); [done|].
    intros x Hx. rewrite lookup_insert_ne; [done|]. by intros ->.
  - rewrite last_cons_default in *. cbn [app].
    apply (chain_step _ a n' b (l ++ cb :: l2)); [|done|by apply IH].
    rewrite lookup_insert_ne; [done|]. intros Heq.
    apply (chain_not_in m a (b :: l)); [by apply (chain_step m a n' b l)|].
    rewrite <- Heq. apply last_default_elem_of.
Qed.

Section Handler.
Variable Unconfirmed_COV_Notification_Head : Z.
Variable BACNET_COV_DATA : Type.
Variable cov_notify_decode_service_request :
  list Z -> Z -> Z * BACNET_COV_DATA.
Variable run_callback : Z -> BACNET_COV_DATA -> memory -> memory.

(** Adding a node that is not in the list yet, from any node of the list
    on: the last node of the list is made to point to it, and nothing else
    is changed. *)
Lemma notification_add_loop_links m a l cb :
  chain m a l -> cb ∉ a :: l ->
  forall fuel, (length l < fuel)%nat ->
  exists n,
    m !! default a (last l) = Some n /\ next n = None /\
    notification_add_loop fuel m a (Some cb)
    = Some (<[default a (last l) :=
                {| next := Some cb; callback := callback n |}]> m).
Proof.
  intros Hc. induction Hc as [a n Ha Hn|a n b l Ha Hn Hb IH];
    intros Hfresh fuel Hfuel; (destruct fuel as [|fuel]; [cbn in Hfuel; lia|]);
    cbn [notification_add_loop]; rewrite Ha.
  - rewrite Hn. destruct (decide (None = Some cb)) as [|_]; [done|].
    by exists n.
  - rewrite Hn. destruct (decide (Some b = Some cb)) as [[= ->]|_].
    { exfalso. apply Hfresh. right. by left. }
    rewrite last_cons_default.
    apply IH; [|cbn in Hfuel; lia].
    intros Hin. apply Hfresh. by right.
Qed.

Lemma notification_add_loop_present m a l cb :
  chain m a l -> cb ∈ l ->
  forall fuel, (length l < fuel)%nat ->
  notification_add_loop fuel m a (Some cb) = Some m.
Proof.
  induction 1 as [a n Ha Hn|a n b l Ha Hn Hb IH]; intros Hin fuel Hfuel.
  - by apply elem_of_nil in Hin.
  - destruct fuel as [|fuel]; [cbn in Hfuel; lia|].
    cbn [notification_add_loop]. rewrite Ha, Hn.
    destruct (decide (Some b = Some cb)) as [|Hne]; [done|].
    apply elem_of_cons in Hin as [->|Hin]; [done|].
    apply IH; [done|]. cbn in Hfuel. lia.
Qed.

Lemma notification_add_loop_null m a l :
  chain m a l ->
  forall fuel, (length l < fuel)%nat ->
  notification_add_loop fuel m a None = Some m.
Proof.
  induction 1 as [a n Ha Hn|a n b l Ha Hn Hb IH]; intros fuel Hfuel;
    (destruct fuel as [|fuel]; [cbn in Hfuel; lia|]);
    cbn [notification_add_loop]; rewrite Ha, Hn.
  - by destruct (decide (None = None)).
  - destruct (decide (Some b = None)) as [|_]; [done|].
    apply IH. cbn in Hfuel. lia.
Qed.

Lemma callbacks_of_agree (m m' : memory) l :
  (forall x, m' !! x ≫= callback = m !! x ≫= callback) ->
  callbacks_of m' l = callbacks_of m l.
Proof.
  intros Hsame. induction l as [|x l IH]; [done|].
  cbn [callbacks_of]. by rewrite Hsame, IH.
Qed.

Lemma callbacks_of_app (m : memory) l1 l2 :
  callbacks_of m (l1 ++ l2) = callbacks_of m l1 ++ callbacks_of m l2.
Proof.
  induction l1 as [|x l1 IH]; [done|]. cbn [app callbacks_of].
  rewrite IH. by destruct (m !! x ≫= callback).
Qed.

Local Abbreviation callbacks_keep_memory :=
  (Ucov.callbacks_keep_memory BACNET_COV_DATA run_callback).

Lemma notification_callback_loop_calls m a l cov_data :
  callbacks_keep_memory ->
  chain m a l ->
  forall fuel, (length l < fuel)%nat ->
  notification_callback_loop BACNET_COV_DATA run_callback fuel m a cov_data
  = Some (map (fun f => (f, cov_data)) (callbacks_of m (a :: l)), m).
Proof.
  intros Hkeep. induction 1 as [a n Ha Hn|a n b l Ha Hn Hb IH];
    intros fuel Hfuel; (destruct fuel as [|fuel]; [cbn in Hfuel; lia|]);
    cbn [notification_callback_loop callbacks_of]; rewrite Ha;
    cbn [mbind option_bind].
  - destruct (callback n) as [f|]; cbn [fst snd];
      rewrite ?Hkeep, Ha, Hn; done.
  - destruct (callback n) as [f|]; cbn [fst snd];
      rewrite ?Hkeep, Ha, Hn, IH by (cbn in Hfuel; lia); done.
Qed.

(** X18.  [handler_ucov_notification_add] links, and never looks at the
    node it is given.  On a list that ends in the null pointer, adding a
    node [cb] that is not in the list ends and stores [cb] in the [next] of
    the last node; nothing else is written, the [next] of [cb] included.
    So [cb] brings along the nodes that follow it: when [cb] starts a
    null-terminated list [l2] of its own that stays clear of the last node,
    the list becomes the old nodes, [cb] and [l2], and its callbacks are
    the earlier ones followed by those of [cb] and [l2]. *)
Theorem handler_ucov_notification_add_appends
    (m : memory) (l : list Z) (cb : Z) (fuel : nat) :
  chain m Unconfirmed_COV_Notification_Head l ->
  cb ∉ Unconfirmed_COV_Notification_Head :: l ->
  (length l < fuel)%nat ->
  let z := default Unconfirmed_COV_Notification_Head (last l) in
  exists n m',
    m !! z = Some n /\
    handler_ucov_notification_add Unconfirmed_COV_Notification_Head fuel m
      (Some cb) = Some m' /\
    m' = <[z := {| next := Some cb; callback := callback n |}]> m /\
    (forall l2, chain m cb l2 -> z ∉ l2 ->
       chain m' Unconfirmed_COV_Notification_Head (l ++ cb :: l2) /\
       callbacks_of m' (Unconfirmed_COV_Notification_Head :: l ++ cb :: l2)
       = callbacks_of m (Unconfirmed_COV_Notification_Head :: l)
         ++ callbacks_of m (cb :: l2)).
Proof.
  intros Hc Hfresh Hfuel z.
  destruct (notification_add_loop_links m _ l cb Hc Hfresh fuel Hfuel)
    as (n & Hz & Hnull & Hadd).
  fold z in Hz, Hadd.
  exists n. eexists. split_and!; [done|exact Hadd|done|].
  intros l2 Hcb Hclear.
  assert (Hne : z <> cb).
  { intros <-. apply Hfresh. apply last_default_elem_of. }
  split.
  - apply chain_splice; [done..|].
    rewrite elem_of_cons. intros [?|?]; done.
  - rewrite app_comm_cons, callbacks_of_app. f_equal;
      apply callbacks_of_agree; intros x;
      (destruct (decide (z = x)) as [<-|Hx];
       [by rewrite lookup_insert_eq, Hz|by rewrite lookup_insert_ne]).
Qed.

(** X27.  A node whose own list runs into the registered list makes it
    circular.  When the nodes that follow [cb] lead to the last node of the
    list, then after [handler_ucov_notification_add] no list that ends in
    the null pointer starts at the head any more, and a later notification
    that decodes does not end, however many rounds it is given (for
    callbacks that leave the nodes alone). *)
Theorem handler_ucov_notification_add_makes_circular
    (m : memory) (l l2 : list Z) (cb : Z) (fuel : nat)
    (service_request : list Z) (service_len : Z) :
  Ucov.callbacks_keep_memory BACNET_COV_DATA run_callback ->
  chain m Unconfirmed_COV_Notification_Head l ->
  cb ∉ Unconfirmed_COV_Notification_Head :: l ->
  (length l < fuel)%nat ->
  chain m cb l2 ->
  default Unconfirmed_COV_Notification_Head (last l) ∈ l2 ->
  0 < (cov_notify_decode_service_request service_request service_len).1 ->
  exists m',
    handler_ucov_notification_add Unconfirmed_COV_Notification_Head fuel m
      (Some cb) = Some m' /\
    (forall l', ~ chain m' Unconfirmed_COV_Notification_Head l') /\
    (forall rounds,
       handler_ucov_notification Unconfirmed_COV_Notification_Head
         BACNET_COV_DATA cov_notify_decode_service_request run_callback
         rounds m' service_request service_len = None).
Proof.
  intros Hkeep Hc Hfresh Hfuel Hcb Hz Hd.
  set (z := default Unconfirmed_COV_Notification_Head (last l)) in *.
  destruct (notification_add_loop_links m _ l cb Hc Hfresh fuel Hfuel)
    as (n & Hn & Hnull & Hadd). fold z in Hn, Hadd.
  set (m' := <[z := {| next := Some cb; callback := callback n |}]> m) in *.
  exists m'. split; [exact Hadd|].
  set (nodes := (Unconfirmed_COV_Notification_Head :: l) ++ cb :: l2).
  assert (Hzlast : z = default cb (last l2)).
  { apply (chain_null_is_last m cb l2 z n); [done|by right|done|done]. }
  assert (Hclosed : forall x, x ∈ nodes ->
            exists nx b, m' !! x = Some nx /\ next nx = Some b /\ b ∈ nodes).
  { intros x Hx. destruct (decide (x = z)) as [->|Hxz].
    - exists {| next := Some cb; callback := callback n |}, cb.
      split_and!; [by apply lookup_insert_eq|done|].
      apply elem_of_app. right. by left.
    - unfold m'. rewrite lookup_insert_ne by done.
      apply elem_of_app in Hx as [Hx|Hx].
      + destruct (chain_next m _ l x Hc Hx Hxz) as (nx & b & H1 & H2 & H3).
        exists nx, b. split_and!; [done|done|].
        apply elem_of_app. left. by right.
      + rewrite Hzlast in Hxz.
        destruct (chain_next m _ l2 x Hcb Hx Hxz) as (nx & b & H1 & H2 & H3).
        exists nx, b. split_and!; [done|done|].
        apply elem_of_app. right. by right. }
  split.
  - intros l' Hl'.
    assert (Hall : forall a k, chain m' a k -> a ∈ nodes -> False).
    { intros a k Hk. induction Hk as [a na Ha Hna|a na b k Ha Hna _ IH];
        intros Hin; destruct (Hclosed a Hin) as (nx & b' & H1 & H2 & H3).
      - congruence.
      - apply IH. congruence. }
    apply (Hall _ l' Hl'). by left.
  - intros rounds. unfold handler_ucov_notification.
    destruct (Z.ltb_spec 0
                (cov_notify_decode_service_request service_request
                   service_len).1) as [_|]; [|lia].
    unfold handler_ucov_notification_callback.
    assert (Hloop : forall a, a ∈ nodes ->
              notification_callback_loop BACNET_COV_DATA run_callback rounds
                m' a (cov_notify_decode_service_request service_request
                        service_len).2 = None).
    { induction rounds as [|rounds IH]; intros a Ha; [done|].
      cbn [notification_callback_loop].
      destruct (Hclosed a Ha) as (nx & b & H1 & H2 & H3).
      rewrite H1.
      destruct (callback nx) as [f|]; cbn [fst snd];
        rewrite ?Hkeep, H1, H2, (IH b H3); done. }
    apply Hloop. by left.
Qed.

(** X19.  [handler_ucov_notification_add] registers a node once: adding a
    node that is already in the list, or the null pointer, ends and
    changes nothing. *)
Theorem handler_ucov_notification_add_once
    (m : memory) (l : list Z) (fuel : nat) :
  chain m Unconfirmed_COV_Notification_Head l ->
  (length l < fuel)%nat ->
  (forall cb, cb ∈ l ->
     handler_ucov_notification_add Unconfirmed_COV_Notification_Head fuel m
       (Some cb) = Some m) /\
  handler_ucov_notification_add Unconfirmed_COV_Notification_Head fuel m None
  = Some m.
Proof.
  intros Hc Hfuel. split.
  - intros cb Hin. by apply (notification_add_loop_present m _ l).
  - by apply (notification_add_loop_null m _ l).
Qed.

(** X20.  When the callbacks leave the nodes alone and the list ends in
    the null pointer, [handler_ucov_notification] calls, for a request that
    decodes (a length above 0), the callback of every node of the list that
    has one, the static head included, once each, in the order of the list
    and with the decoded data, and ends; for a request that does not decode
    it calls none. *)
Theorem handler_ucov_notification_calls
    (m : memory) (l : list Z) (fuel : nat)
    (service_request : list Z) (service_len : Z) :
  callbacks_keep_memory ->
  chain m Unconfirmed_COV_Notification_Head l ->
  (length l < fuel)%nat ->
  let d := cov_notify_decode_service_request service_request service_len in
  handler_ucov_notification Unconfirmed_COV_Notification_Head
    BACNET_COV_DATA cov_notify_decode_service_request run_callback
    fuel m service_request service_len
  = Some (if 0 <? d.1 then
            map (fun f => (f, d.2))
              (callbacks_of m (Unconfirmed_COV_Notification_Head :: l))
          else [], m).
Proof.
  intros Hkeep Hc Hfuel d. unfold handler_ucov_notification. fold d.
  destruct (0 <? d.1); [|done].
  by apply notification_callback_loop_calls.
Qed.

(** X21.  Callbacks run in the order of their registration.  When the
    callbacks leave the nodes alone, and a node with the callback [f] and a
    null [next] that is not in the list has been added, a notification that
    decodes calls the callbacks registered before it, in their order, and
    then [f]. *)
Theorem handler_ucov_notification_after_add
    (m : memory) (l : list Z) (cb f : Z) (fuel : nat)
    (service_request : list Z) (service_len : Z) :
  callbacks_keep_memory ->
  chain m Unconfirmed_COV_Notification_Head l ->
  m !! cb = Some {| next := None; callback := Some f |} ->
  cb ∉ Unconfirmed_COV_Notification_Head :: l ->
  (length l + 1 < fuel)%nat ->
  let d := cov_notify_decode_service_request service_request service_len in
  0 < d.1 ->
  exists m',
    handler_ucov_notification_add Unconfirmed_COV_Notification_Head fuel m
      (Some cb) = Some m' /\
    handler_ucov_notification Unconfirmed_COV_Notification_Head
      BACNET_COV_DATA cov_notify_decode_service_request run_callback
      fuel m' service_request service_len
    = Some (map (fun g => (g, d.2))
              (callbacks_of m (Unconfirmed_COV_Notification_Head :: l))
            ++ [(f, d.2)], m').
Proof.
  intros Hkeep Hc Hcb Hfresh Hfuel d Hd.
  destruct (notification_add_loop_links m _ l cb Hc Hfresh fuel ltac:(lia))
    as (n & Hz & Hnull & Hadd).
  set (z := default Unconfirmed_COV_Notification_Head (last l)) in *.
  eexists. split; [exact Hadd|].
  assert (Hne : z <> cb).
  { intros <-. apply Hfresh. apply last_default_elem_of. }
  assert (Hchain :
    chain (<[z := {| next := Some cb; callback := callback n |}]> m)
      Unconfirmed_COV_Notification_Head (l ++ [cb])).
  { apply chain_splice; [done|done| |].
    - by apply (chain_end m cb {| next := None; callback := Some f |}).
    - rewrite elem_of_cons, elem_of_nil. intros [?|?]; done. }
  unfold handler_ucov_notification. fold d.
  destruct (Z.ltb_spec 0 d.1); [|lia].
  unfold handler_ucov_notification_callback.
  rewrite (notification_callback_loop_calls _ _ (l ++ [cb])) by
    (try done; rewrite length_app; cbn; lia).
  rewrite (callbacks_of_agree m).
  - rewrite app_comm_cons, callbacks_of_app, map_app.
    cbn [callbacks_of]. rewrite Hcb. done.
  - intros x. destruct (decide (z = x)) as [<-|Hx].
    + by rewrite lookup_insert_eq, Hz.
    + by rewrite lookup_insert_ne.
Qed.

End Handler.

Lemma sample_registered_chain : chain sample_registered 100 [200].
Proof.
  apply (chain_step _ 100 (mk_notification (Some 200) None) 200 []);
    [reflexivity|reflexivity|].
  apply (chain_end _ 200 (mk_notification None (Some 7))); reflexivity.
Defined.

Lemma sample_supplied_chain : chain sample_supplied 100 [].
Proof.
  apply (chain_end _ 100 (mk_notification None None)); reflexivity.
Defined.

Lemma handler_ucov_notification_add_appends_witness :
  let z := default 100 (last []) in
  exists n m',
    sample_supplied !! z = Some n /\
    handler_ucov_notification_add 100 5 sample_supplied (Some 200)
      = Some m' /\
    m' = <[z := {| next := Some 200; callback := callback n |}]>
           sample_supplied /\
    (forall l2, chain sample_supplied 200 l2 -> z ∉ l2 ->
       chain m' 100 ([] ++ 200 :: l2) /\
       callbacks_of m' (100 :: [] ++ 200 :: l2)
       = callbacks_of sample_supplied [100]
         ++ callbacks_of sample_supplied (200 :: l2)).
Proof.
  apply (handler_ucov_notification_add_appends 100 sample_supplied [] 200 5).
  - exact sample_supplied_chain.
  - rewrite elem_of_cons, elem_of_nil. lia.
  - cbn. lia.
Defined.

Lemma handler_ucov_notification_add_once_witness :
  (forall cb, cb ∈ [200] ->
     handler_ucov_notification_add 100 5 sample_registered (Some cb)
     = Some sample_registered) /\
  handler_ucov_notification_add 100 5 sample_registered None
  = Some sample_registered.
Proof.
  apply (handler_ucov_notification_add_once 100 sample_registered [200] 5).
  - exact sample_registered_chain.
  - cbn. lia.
Defined.

Lemma handler_ucov_notification_calls_witness :
  handler_ucov_notification 100 (list Z) (fun request n => (n, request))
    (fun _ _ m => m) 5 sample_registered [1; 2; 3] 3
  = Some (if 0 <? 3 then
            map (fun f => (f, [1; 2; 3]))
              (callbacks_of sample_registered [100; 200])
          else [], sample_registered).
Proof.
  apply (handler_ucov_notification_calls 100 (list Z)
           (fun request n => (n, request)) (fun _ _ m => m)
           sample_registered [200] 5 [1; 2; 3] 3).
  - intros f d m. reflexivity.
  - exact sample_registered_chain.
  - cbn. lia.
Defined.

Lemma handler_ucov_notification_after_add_witness :
  exists m',
    handler_ucov_notification_add 100 5 sample_supplied (Some 200)
      = Some m' /\
    handler_ucov_notification 100 (list Z) (fun request n => (n, request))
      (fun _ _ m => m) 5 m' [1; 2; 3] 3
    = Some (map (fun g => (g, [1; 2; 3]))
              (callbacks_of sample_supplied [100])
            ++ [(7, [1; 2; 3])], m').
Proof.
  apply (handler_ucov_notification_after_add 100 (list Z)
           (fun request n => (n, request)) (fun _ _ m => m)
           sample_supplied [] 200 7 5 [1; 2; 3] 3).
  - intros f d m. reflexivity.
  - exact sample_supplied_chain.
  - reflexivity.
  - rewrite elem_of_cons, elem_of_nil. lia.
  - cbn. lia.
  - cbn. lia.
Defined.

(** The head at 100 with an empty list, and a node at 200 whose [next]
    holds the address of the head. *)
Lemma sample_looping_chain :
  chain (<[200 := mk_notification (Some 100) (Some 7)]> sample_supplied)
    200 [100].
Proof.
  apply (chain_step _ 200 (mk_notification (Some 100) (Some 7)) 100 []);
    [reflexivity|reflexivity|].
  apply (chain_end _ 100 (mk_notification None None)); reflexivity.
Defined.

Lemma sample_looping_head :
  chain (<[200 := mk_notification (Some 100) (Some 7)]> sample_supplied)
    100 [].
Proof.
  apply (chain_end _ 100 (mk_notification None None)); reflexivity.
Defined.

Lemma handler_ucov_notification_add_makes_circular_witness :
  exists m',
    handler_ucov_notification_add 100 5
      (<[200 := mk_notification (Some 100) (Some 7)]> sample_supplied)
      (Some 200) = Some m' /\
    (forall l', ~ chain m' 100 l') /\
    (forall rounds,
       handler_ucov_notification 100 (list Z)
         (fun request n => (n, request)) (fun _ _ m => m)
         rounds m' [1; 2; 3] 3 = None).
Proof.
  apply (handler_ucov_notification_add_makes_circular 100 (list Z)
           (fun request n => (n, request)) (fun _ _ m => m)
           (<[200 := mk_notification (Some 100) (Some 7)]> sample_supplied)
           [] [100] 200 5 [1; 2; 3] 3).
  - intros f d m. reflexivity.
  - exact sample_looping_head.
  - rewrite elem_of_cons, elem_of_nil. lia.
  - cbn. lia.
  - exact sample_looping_chain.
  - cbn. by left.
  - cbn. lia.
Defined.

(** A callback that registers a node while the list is walked: the new
    node is called in the same notification. *)
Example handler_ucov_notification_callback_registers :
  let decode := fun (request : list Z) (n : Z) => (n, request) in
  let registers :=
    fun (f : Z) (_ : list Z) (m : memory) =>
      if f =? 7 then default m (handler_ucov_notification_add 100 5 m (Some 300))
      else m in
  let m0 : memory :=
    <[100 := mk_notification (Some 200) None]>
      (<[200 := mk_notification None (Some 7)]>
         (<[300 := mk_notification None (Some 9)]> ∅)) in
  callbacks_of m0 [100; 200] = [7] /\
  fst <$> handler_ucov_notification 100 (list Z) decode registers 5 m0 [1] 1
  = Some [(7, [1]); (9, [1])].
Proof. split; vm_compute; reflexivity. Qed.

(** The list as the program has it after two registrations, and a
    notification that does not decode. *)
Example handler_ucov_notification_two_callbacks :
  let decode := fun (request : list Z) (n : Z) => (n, request) in
  let keep := fun (_ : Z) (_ : list Z) (m : memory) => m in
  let m0 : memory :=
    <[100 := mk_notification None None]>
      (<[200 := mk_notification None (Some 7)]>
         (<[300 := mk_notification None (Some 9)]> ∅)) in
  let m2 := handler_ucov_notification_add 100 5 m0 (Some 200)
              ≫= fun m1 => handler_ucov_notification_add 100 5 m1
                             (Some 300) in
  (m2 ≫= fun m => fst <$> handler_ucov_notification 100 (list Z) decode
                              keep 5 m [1] 1)
    = Some [(7, [1]); (9, [1])] /\
  (m2 ≫= fun m => fst <$> handler_ucov_notification 100 (list Z) decode
                              keep 5 m [] 0)
    = Some [].
Proof. split; vm_compute; reflexivity. Qed.

End UcovFacts.

(** ** The millisecond timer *)
Module MstimerFacts.
Import Mstimer.

Lemma ticks_counter timers handler (n : nat) :
  forall s : mstimer_state timers,
    Millisecond_Counter timers (ticks timers handler n s)
    = (Millisecond_Counter timers s + Z.of_nat n) mod 2 ^ 32 \/
    (n = 0%nat /\ ticks timers handler n s = s).
Proof.
  induction n as [|n IH]; intros s; [by right|]. left.
  cbn [ticks]. destruct (IH (SysTick_Handler timers handler s))
    as [->|[-> ->]]; cbn [SysTick_Handler Millisecond_Counter].
  - rewrite Zplus_mod_idemp_l. f_equal. lia.
  - f_equal.
Qed.

(** X22.  The millisecond count rolls over and stays usable: after [n]
    interrupts, the unsigned difference between [mstimer_now] and its
    earlier value is [n] (modulo [2^32]), also across the roll-over of the
    counter, and the count stays below [2^32]. *)
Theorem mstimer_elapsed
    (timers : Type) (handler : timers -> timers)
    (s : mstimer_state timers) (n : nat) :
  0 <= Millisecond_Counter timers s < 2 ^ 32 ->
  let s' := ticks timers handler n s in
  0 <= mstimer_now timers s' < 2 ^ 32 /\
  (mstimer_now timers s' - mstimer_now timers s) mod 2 ^ 32
  = Z.of_nat n mod 2 ^ 32.
Proof.
  intros Hs s'. subst s'. unfold mstimer_now.
  destruct (ticks_counter timers handler n s) as [->|[-> ->]].
  - split; [apply Z.mod_pos_bound; lia|].
    rewrite Zminus_mod_idemp_l. f_equal. lia.
  - split; [done|]. by rewrite Z.sub_diag.
Qed.

Lemma mstimer_elapsed_witness :
  let s := mk_mstimer_state unit (2 ^ 32 - 2) tt in
  let s' := ticks unit id 5 s in
  0 <= mstimer_now unit s' < 2 ^ 32 /\
  (mstimer_now unit s' - mstimer_now unit s) mod 2 ^ 32
  = Z.of_nat 5 mod 2 ^ 32.
Proof.
  apply (mstimer_elapsed unit id (mk_mstimer_state unit (2 ^ 32 - 2) tt) 5).
  cbn. lia.
Defined.

End MstimerFacts.
